(** * View-state controller of the NBA statistics viewer

    A shallow embedding of the decision logic of [frontend/src/App.tsx]
    (tab navigation, leaderboard pagination, typeahead search, player
    detail resolution, the chat page) and of [frontend/src/Standings.tsx]
    (standings sort, East/West partition, what the page shows and the
    rank chip), with the properties stated about them.

    Conventions of the embedding.
    - A JavaScript string is a [string]: a sequence of code units below
      256.  On that domain [trim], [toLowerCase] and [includes] are the
      built-ins, exactly.
    - A JavaScript number that is an id, a count or a limit is a [Z]; a
      statistic is a [Q] (every finite double is a rational, and the code
      only looks at signs of differences).
    - React state is a record.  An event handler, an effect, a timer
      callback or a promise callback is a function from the render it
      closes over to the list of things it does, in program order: state
      setters are queued and applied together at the next render, while
      a ref write, a [fetch] and a [setTimeout] happen at once.  After a
      render React runs the effects whose dependencies changed, against
      that render; what they set leads to the next render.  React renders
      between two events, so a handler always closes over the last render.
    - The world outside is a clock, the list of pending timers and the list
      of requests in flight; an event is a user action, time passing, or a
      reply to a request in flight, replies coming in any order. *)

From Stdlib Require Import ZArith QArith Bool List String Ascii Lia Lqa.
From Stdlib Require Import Permutation Sorted.
Import ListNotations.

Local Open Scope string_scope.
Local Open Scope list_scope.
Local Open Scope Z_scope.

(** ** JavaScript built-ins used by the source *)

Module Js.

(** [x ?? d] *)
Definition nullish {A : Type} (x : option A) (d : A) : A :=
  match x with Some v => v | None => d end.

Definition code (c : ascii) : N := N_of_ascii c.

(** White space of [String.prototype.trim] among code units below 256:
    TAB, LF, VT, FF, CR, SPACE and NO-BREAK SPACE. *)
Definition isWhiteSpace (c : ascii) : bool :=
  let n := code c in
  ((9 <=? n) && (n <=? 13) || (n =? 32) || (n =? 160))%N.

Fixpoint trimStart (s : string) : string :=
  match s with
  | EmptyString => EmptyString
  | String c s' => if isWhiteSpace c then trimStart s' else s
  end.

(** Drops the trailing white space: a character is kept when it is not
    white space or when something is kept after it. *)
Fixpoint trimEnd (s : string) : string :=
  match s with
  | EmptyString => EmptyString
  | String c s' =>
      match trimEnd s' with
      | EmptyString => if isWhiteSpace c then EmptyString else String c EmptyString
      | t => String c t
      end
  end.

Definition trim (s : string) : string := trimEnd (trimStart s).

(** Truthiness of a string: [!s] is true exactly for the empty string. *)
Definition isEmpty (s : string) : bool :=
  match s with EmptyString => true | _ => false end.

(** [String.prototype.toLowerCase] on code units below 256: A-Z and the
    Latin-1 capitals (U+00C0-U+00DE but U+00D7) move up by 32. *)
Definition lowerChar (c : ascii) : ascii :=
  let n := code c in
  if ((65 <=? n) && (n <=? 90) || (192 <=? n) && (n <=? 222) && negb (n =? 215))%N
  then ascii_of_N (n + 32) else c.

Fixpoint toLowerCase (s : string) : string :=
  match s with
  | EmptyString => EmptyString
  | String c s' => String (lowerChar c) (toLowerCase s')
  end.

(** [s.includes(sub)] *)
Fixpoint includes (s sub : string) : bool :=
  String.prefix sub s ||
  match s with
  | EmptyString => false
  | String _ s' => includes s' sub
  end.

(** [Array.prototype.find] *)
Fixpoint find {A : Type} (f : A -> bool) (l : list A) : option A :=
  match l with
  | [] => None
  | x :: l' => if f x then Some x else find f l'
  end.

(** [Array.prototype.sort] with a comparator.  The sort is stable
    (ECMAScript 2019), and for a consistent comparator its result is the
    one stable sorted arrangement; it is computed here by insertion,
    the comparator deciding by the sign of its result. *)
Section Sort.
Context {A : Type} (cmp : A -> A -> Q).

(** [x] may stand before [y]. *)
Definition before (x y : A) : Prop := (cmp x y <= 0)%Q.

Fixpoint insert (x : A) (l : list A) : list A :=
  match l with
  | [] => [x]
  | y :: l' => if Qle_bool (cmp x y) 0 then x :: l else y :: insert x l'
  end.

Fixpoint sort (l : list A) : list A :=
  match l with
  | [] => []
  | x :: l' => insert x (sort l')
  end.
End Sort.

End Js.

(** ** Remote calls *)

Module Remote.

(** The status of a state slot fed by a remote call. *)
Inductive Status := Idle | Loading | Ok | Error.

Definition Status_eqb (a b : Status) : bool :=
  match a, b with
  | Idle, Idle | Loading, Loading | Ok, Ok | Error, Error => true
  | _, _ => false
  end.

(** The body of a response as [r.json()] sees it: not JSON, the JSON
    [null], or a JSON value read at the declared type. *)
Inductive Body (A : Type) :=
| BadJson
| JsonNull
| JsonValue (a : A).
Arguments BadJson {A}.
Arguments JsonNull {A}.
Arguments JsonValue {A} a.

(** [fetch] rejects (network error) or resolves with a response whose
    [ok] flag tells a 2xx status from the others. *)
Inductive FetchResult (A : Type) :=
| NetworkError
| Response (ok : bool) (body : Body A).
Arguments NetworkError {A}.
Arguments Response {A} ok body.

(** A promise that has settled: [None] is a rejection. *)
Definition Settled (A : Type) : Type := option A.

Definition andThen {A B : Type} (p : Settled A) (f : A -> Settled B) : Settled B :=
  match p with Some a => f a | None => None end.

Definition catch {A : Type} (p : Settled A) (handler : A) : A :=
  match p with Some a => a | None => handler end.

Definition fetched {A : Type} (r : FetchResult A) : Settled (bool * Body A) :=
  match r with
  | NetworkError => None
  | Response ok body => Some (ok, body)
  end.

(** [r.json()]: rejects on a body that is not JSON; the value may be
    [null]. *)
Definition json {A : Type} (r : bool * Body A) : Settled (option A) :=
  match snd r with
  | BadJson => None
  | JsonNull => Some None
  | JsonValue a => Some (Some a)
  end.

(** [data.p]: a TypeError when [data] is [null]. *)
Definition prop {A B : Type} (data : option A) (p : A -> B) : Settled B :=
  match data with Some a => Some (p a) | None => None end.

End Remote.

(** ** Standings.tsx *)

Module Standings.
Import Js Remote.

Record Team := {
  team_id : option Z;
  team_name : option string;
  team_city : option string;
  team_slug : option string;
  conference : option string;
  playoff_rank : option Q;
  wins : option Z;
  losses : option Z;
  win_pct : option Q;
  l10 : option string;
  streak : option string
}.

Definition lowerConference (t : Team) : string :=
  toLowerCase (nullish (conference t) "").
Definition rankKey (t : Team) : Q := nullish (playoff_rank t) 999%Q.
Definition pctKey (t : Team) : Q := nullish (win_pct t) (-1)%Q.

Section WithCollation.
(** [String.prototype.localeCompare]: the host's collation, of which
    only the sign of the result is used. *)
Variable localeCompare : string -> string -> Z.

(** The comparator of [sortStandings]. *)
Definition compareTeams (a b : Team) : Q :=
  let ca := lowerConference a in
  let cb := lowerConference b in
  if negb (String.eqb ca cb) then inject_Z (localeCompare ca cb)
  else
    let ra := rankKey a in
    let rb := rankKey b in
    if negb (Qeq_bool ra rb) then ra - rb
    else
      let wa := pctKey a in
      let wb := pctKey b in
      wb - wa.

Definition sortStandings (teams : list Team) : list Team :=
  sort compareTeams teams.
End WithCollation.

(** Of the standings response the component reads [teams], through
    [?? []]. *)
Record StandingsResponse := { resp_teams : option (list Team) }.

(** The state of the component. *)
Record StandingsState := {
  status : Status;
  teams : list Team
}.

Definition unfetched : StandingsState := {| status := Idle; teams := [] |}.

Section Fetch.
Variable localeCompare : string -> string -> Z.

(** [fetchFromDb] up to the request. *)
Definition fetchFromDb (s : StandingsState) : StandingsState :=
  {| status := Loading; teams := teams s |}.

(** [fetchFromDb] once the request has settled. *)
Definition fetchFromDbSettled (r : FetchResult StandingsResponse)
  (s : StandingsState) : StandingsState :=
  catch
    (andThen (fetched r) (fun r =>
     andThen (json r) (fun data =>
     andThen (prop data resp_teams) (fun field =>
       Some {| status := Ok;
               teams := sortStandings localeCompare (nullish field []) |}))))
    {| status := Error; teams := teams s |}.
End Fetch.

(** The [useMemo] derivations of the component. *)
Definition east (teams : list Team) : list Team :=
  filter (fun t => includes (lowerConference t) "east") teams.
Definition west (teams : list Team) : list Team :=
  filter (fun t => includes (lowerConference t) "west") teams.
Definition hasSplit (teams : list Team) : bool :=
  (0 <? Z.of_nat (List.length (east teams)))%Z || (0 <? Z.of_nat (List.length (west teams)))%Z.

(** The order the two tables are expected to show, read off the fields
    of the rows: playoff rank ascending, win percentage descending among
    equal ranks, a team without a rank standing as rank 999 and a team
    without a percentage as -1. *)
Definition rankThenPct (a b : Team) : Prop :=
  let rank t := match playoff_rank t with Some r => r | None => 999%Q end in
  let pct t := match win_pct t with Some w => w | None => (-1)%Q end in
  (rank a < rank b)%Q \/ (rank a == rank b /\ pct b <= pct a)%Q.

(** A label that reads "Eastern Conference" or "Western Conference" up to
    the case of its letters. *)
Definition easternLabel (t : Team) : Prop :=
  exists l, conference t = Some l /\ toLowerCase l = toLowerCase "Eastern Conference".
Definition westernLabel (t : Team) : Prop :=
  exists l, conference t = Some l /\ toLowerCase l = toLowerCase "Western Conference".
Definition conferenceLabelled (t : Team) : Prop :=
  easternLabel t \/ westernLabel t.

(** A collation to run the component with: the order of code units. *)
Definition codeUnitCompare (a b : string) : Z :=
  match String.compare a b with
  | Lt => -1
  | Eq => 0
  | Gt => 1
  end.

(** Sample rows. *)
Definition sampleTeam (name conf : string) (rank : Q) (pct : Q) : Team :=
  {| team_id := None; team_name := Some name; team_city := None;
     team_slug := None; conference := Some conf; playoff_rank := Some rank;
     wins := None; losses := None; win_pct := Some pct; l10 := None;
     streak := None |}.

Definition sampleTeams : list Team :=
  [ sampleTeam "Nuggets" "WESTERN CONFERENCE" 2 (6#10);
    sampleTeam "Knicks" "eastern conference" 2 (6#10);
    sampleTeam "Thunder" "Western Conference" 1 (8#10);
    sampleTeam "Celtics" "Eastern Conference" 1 (7#10);
    sampleTeam "Cavaliers" "EaStErN cOnFeReNcE" 1 (75#100) ].

(** What the component returns: the error box, the East and West tabs, or
    one table of all the teams. *)
Inductive Shown :=
| FailedToLoad
| EastWest (eastList westList : list Team)
| OneTable (list : list Team).

Definition render (s : StandingsState) : Shown :=
  if Status_eqb (status s) Error then FailedToLoad
  else if hasSplit (teams s) then EastWest (east (teams s)) (west (teams s))
  else OneTable (teams s).

(** [rankChip]: the classes of the tone, and what the chip shows ([None]
    is the dash). *)
Definition rankChip (rank : option Q) : string * option Q :=
  let r := nullish rank 999%Q in
  let tone :=
    if Qle_bool r 6
    then "bg-emerald-500/10 text-emerald-200 border-emerald-500/20"
    else if Qle_bool r 10
    then "bg-amber-500/10 text-amber-200 border-amber-500/20"
    else "bg-slate-900/40 text-slate-200 border-slate-800" in
  (tone, rank).

(** The row of [StandingsTable]: the divider under the row of rank
    [rank], which is [t.playoff_rank ?? null]. *)
Definition divider (rank : option Q) : string :=
  match rank with
  | Some r =>
      if Qeq_bool r 6 then "shadow-[inset_0_-1px_0_0_rgba(16,185,129,0.35)]"
      else if Qeq_bool r 10 then "shadow-[inset_0_-1px_0_0_rgba(245,158,11,0.35)]"
      else ""
  | None => ""
  end.

(** A team the league has not ranked yet. *)
Definition unrankedTeam (name conf : string) : Team :=
  {| team_id := None; team_name := Some name; team_city := None;
     team_slug := None; conference := Some conf; playoff_rank := None;
     wins := None; losses := None; win_pct := None; l10 := None;
     streak := None |}.

Definition sampleWithUnranked : list Team :=
  [ unrankedTeam "Pistons" "Eastern Conference";
    sampleTeam "Celtics" "Eastern Conference" 1 (7#10);
    sampleTeam "Thunder" "Western Conference" 1 (8#10) ].

End Standings.

(** ** App.tsx *)

Module App.
Import Js Remote.

(** *** Types (API and UI contracts) *)

Inductive AppTab := TabHome | TabAi | TabPlayer | TabLeaders | TabStandings.
Inductive LeaderTab := Cat3pt | CatPts | CatReb | CatAst | CatBlk | CatFg.

Definition AppTab_eqb (a b : AppTab) : bool :=
  match a, b with
  | TabHome, TabHome | TabAi, TabAi | TabPlayer, TabPlayer
  | TabLeaders, TabLeaders | TabStandings, TabStandings => true
  | _, _ => false
  end.

Definition LeaderTab_eqb (a b : LeaderTab) : bool :=
  match a, b with
  | Cat3pt, Cat3pt | CatPts, CatPts | CatReb, CatReb
  | CatAst, CatAst | CatBlk, CatBlk | CatFg, CatFg => true
  | _, _ => false
  end.

Record Leader := {
  player_id : Z;
  player_name : string;
  team_abbreviation : string;
  fg3_pct : option Q;
  fg3m : option Q;
  fg3a : option Q;
  fg_pct : option Q;
  fgm : option Q;
  fga : option Q;
  value : option Q;
  gp : Z
}.

Record PlayerHit := {
  nba_player_id : Z;
  full_name : string;
  nba_team_id : option Z
}.

Record PlayerLastNGameRow := {
  nba_game_id : string;
  game_date : option string;
  game_team_id : option Z;
  minutes : option string;
  game_fg_pct : option Q;
  pts : option Q;
  reb : option Q;
  ast : option Q;
  stl : option Q;
  blk : option Q;
  tov : option Q;
  game_fg3m : option Q;
  game_fg3a : option Q;
  plus_minus : option Q
}.

Record Averages := {
  avg_pts : option Q;
  avg_reb : option Q;
  avg_ast : option Q;
  avg_stl : option Q;
  avg_blk : option Q;
  avg_tov : option Q;
  avg_min : option Q;
  avg_fg_pct : option Q;
  avg_fg3_pct : option Q;
  avg_ft_pct : option Q
}.

(** The game-log response; [stats_player_id] is its [nba_player_id]. *)
Record PlayerLastNResponse := {
  stats_player_id : Z;
  n : Z;
  count : Z;
  averages : Averages;
  games : list PlayerLastNGameRow;
  source : string
}.

(** Of the leaders and search responses the controller reads one
    property, and reads it through [?? []]: it may be absent. *)
Record LeadersResponse := { resp_leaders : option (list Leader) }.
Record PlayerSearchResponse := { resp_players : option (list PlayerHit) }.

(** *** Requests, timers and state *)

Record LeadersEndpoint := {
  ep_path : LeaderTab;
  ep_season : string;
  ep_min_attempts : option (string * Z);
  ep_min_gp : Z;
  ep_limit : Z
}.

(** A request in flight, with what its continuation closes over. *)
Inductive Request :=
| ReqLeaders (url : LeadersEndpoint) (closedLimit : Z)
| ReqSearch (q : string)
| ReqJumpSearch (playerId : Z) (playerName : string)
| ReqLastN (nbaPlayerId : Z) (window : Z).

Inductive TimerCallback :=
| CbTabSwap
| CbTabUnlock
| CbSearch (q : string).

Record Timer := {
  timer_id : nat;
  due : Z;
  callback : TimerCallback
}.

Record State := {
  tab : AppTab;
  isTabTransitioning : bool;
  pendingTabRef : option AppTab;
  leaderTab : LeaderTab;
  leadersStatus : Status;
  leaders : list Leader;
  leadersLimit : Z;
  canLoadMore : bool;
  playerQuery : string;
  playerSearchStatus : Status;
  playerResults : list PlayerHit;
  selectedPlayer : option PlayerHit;
  playerStatsStatus : Status;
  playerStats : option PlayerLastNResponse;
  showAllGames : bool;
  now : Z;
  nextTimerId : nat;
  timers : list Timer;
  debounceTimer : option nat;
  inflight : list Request
}.

(** Field updates. *)
Definition with_tab (v : AppTab) (s : State) : State :=
  {| tab := v; isTabTransitioning := isTabTransitioning s;
     pendingTabRef := pendingTabRef s; leaderTab := leaderTab s;
     leadersStatus := leadersStatus s; leaders := leaders s;
     leadersLimit := leadersLimit s; canLoadMore := canLoadMore s;
     playerQuery := playerQuery s;
     playerSearchStatus := playerSearchStatus s;
     playerResults := playerResults s; selectedPlayer := selectedPlayer s;
     playerStatsStatus := playerStatsStatus s; playerStats := playerStats s;
     showAllGames := showAllGames s; now := now s;
     nextTimerId := nextTimerId s; timers := timers s;
     debounceTimer := debounceTimer s; inflight := inflight s |}.
Definition with_isTabTransitioning (v : bool) (s : State) : State :=
  {| tab := tab s; isTabTransitioning := v; pendingTabRef := pendingTabRef s;
     leaderTab := leaderTab s; leadersStatus := leadersStatus s;
     leaders := leaders s; leadersLimit := leadersLimit s;
     canLoadMore := canLoadMore s; playerQuery := playerQuery s;
     playerSearchStatus := playerSearchStatus s;
     playerResults := playerResults s; selectedPlayer := selectedPlayer s;
     playerStatsStatus := playerStatsStatus s; playerStats := playerStats s;
     showAllGames := showAllGames s; now := now s;
     nextTimerId := nextTimerId s; timers := timers s;
     debounceTimer := debounceTimer s; inflight := inflight s |}.
Definition with_pendingTabRef (v : option AppTab) (s : State) : State :=
  {| tab := tab s; isTabTransitioning := isTabTransitioning s;
     pendingTabRef := v; leaderTab := leaderTab s;
     leadersStatus := leadersStatus s; leaders := leaders s;
     leadersLimit := leadersLimit s; canLoadMore := canLoadMore s;
     playerQuery := playerQuery s;
     playerSearchStatus := playerSearchStatus s;
     playerResults := playerResults s; selectedPlayer := selectedPlayer s;
     playerStatsStatus := playerStatsStatus s; playerStats := playerStats s;
     showAllGames := showAllGames s; now := now s;
     nextTimerId := nextTimerId s; timers := timers s;
     debounceTimer := debounceTimer s; inflight := inflight s |}.
Definition with_leaderTab (v : LeaderTab) (s : State) : State :=
  {| tab := tab s; isTabTransitioning := isTabTransitioning s;
     pendingTabRef := pendingTabRef s; leaderTab := v;
     leadersStatus := leadersStatus s; leaders := leaders s;
     leadersLimit := leadersLimit s; canLoadMore := canLoadMore s;
     playerQuery := playerQuery s;
     playerSearchStatus := playerSearchStatus s;
     playerResults := playerResults s; selectedPlayer := selectedPlayer s;
     playerStatsStatus := playerStatsStatus s; playerStats := playerStats s;
     showAllGames := showAllGames s; now := now s;
     nextTimerId := nextTimerId s; timers := timers s;
     debounceTimer := debounceTimer s; inflight := inflight s |}.
Definition with_leadersStatus (v : Status) (s : State) : State :=
  {| tab := tab s; isTabTransitioning := isTabTransitioning s;
     pendingTabRef := pendingTabRef s; leaderTab := leaderTab s;
     leadersStatus := v; leaders := leaders s;
     leadersLimit := leadersLimit s; canLoadMore := canLoadMore s;
     playerQuery := playerQuery s;
     playerSearchStatus := playerSearchStatus s;
     playerResults := playerResults s; selectedPlayer := selectedPlayer s;
     playerStatsStatus := playerStatsStatus s; playerStats := playerStats s;
     showAllGames := showAllGames s; now := now s;
     nextTimerId := nextTimerId s; timers := timers s;
     debounceTimer := debounceTimer s; inflight := inflight s |}.
Definition with_leaders (v : list Leader) (s : State) : State :=
  {| tab := tab s; isTabTransitioning := isTabTransitioning s;
     pendingTabRef := pendingTabRef s; leaderTab := leaderTab s;
     leadersStatus := leadersStatus s; leaders := v;
     leadersLimit := leadersLimit s; canLoadMore := canLoadMore s;
     playerQuery := playerQuery s;
     playerSearchStatus := playerSearchStatus s;
     playerResults := playerResults s; selectedPlayer := selectedPlayer s;
     playerStatsStatus := playerStatsStatus s; playerStats := playerStats s;
     showAllGames := showAllGames s; now := now s;
     nextTimerId := nextTimerId s; timers := timers s;
     debounceTimer := debounceTimer s; inflight := inflight s |}.
Definition with_leadersLimit (v : Z) (s : State) : State :=
  {| tab := tab s; isTabTransitioning := isTabTransitioning s;
     pendingTabRef := pendingTabRef s; leaderTab := leaderTab s;
     leadersStatus := leadersStatus s; leaders := leaders s;
     leadersLimit := v; canLoadMore := canLoadMore s;
     playerQuery := playerQuery s;
     playerSearchStatus := playerSearchStatus s;
     playerResults := playerResults s; selectedPlayer := selectedPlayer s;
     playerStatsStatus := playerStatsStatus s; playerStats := playerStats s;
     showAllGames := showAllGames s; now := now s;
     nextTimerId := nextTimerId s; timers := timers s;
     debounceTimer := debounceTimer s; inflight := inflight s |}.
Definition with_canLoadMore (v : bool) (s : State) : State :=
  {| tab := tab s; isTabTransitioning := isTabTransitioning s;
     pendingTabRef := pendingTabRef s; leaderTab := leaderTab s;
     leadersStatus := leadersStatus s; leaders := leaders s;
     leadersLimit := leadersLimit s; canLoadMore := v;
     playerQuery := playerQuery s;
     playerSearchStatus := playerSearchStatus s;
     playerResults := playerResults s; selectedPlayer := selectedPlayer s;
     playerStatsStatus := playerStatsStatus s; playerStats := playerStats s;
     showAllGames := showAllGames s; now := now s;
     nextTimerId := nextTimerId s; timers := timers s;
     debounceTimer := debounceTimer s; inflight := inflight s |}.
Definition with_playerQuery (v : string) (s : State) : State :=
  {| tab := tab s; isTabTransitioning := isTabTransitioning s;
     pendingTabRef := pendingTabRef s; leaderTab := leaderTab s;
     leadersStatus := leadersStatus s; leaders := leaders s;
     leadersLimit := leadersLimit s; canLoadMore := canLoadMore s;
     playerQuery := v; playerSearchStatus := playerSearchStatus s;
     playerResults := playerResults s; selectedPlayer := selectedPlayer s;
     playerStatsStatus := playerStatsStatus s; playerStats := playerStats s;
     showAllGames := showAllGames s; now := now s;
     nextTimerId := nextTimerId s; timers := timers s;
     debounceTimer := debounceTimer s; inflight := inflight s |}.
Definition with_playerSearchStatus (v : Status) (s : State) : State :=
  {| tab := tab s; isTabTransitioning := isTabTransitioning s;
     pendingTabRef := pendingTabRef s; leaderTab := leaderTab s;
     leadersStatus := leadersStatus s; leaders := leaders s;
     leadersLimit := leadersLimit s; canLoadMore := canLoadMore s;
     playerQuery := playerQuery s; playerSearchStatus := v;
     playerResults := playerResults s; selectedPlayer := selectedPlayer s;
     playerStatsStatus := playerStatsStatus s; playerStats := playerStats s;
     showAllGames := showAllGames s; now := now s;
     nextTimerId := nextTimerId s; timers := timers s;
     debounceTimer := debounceTimer s; inflight := inflight s |}.
Definition with_playerResults (v : list PlayerHit) (s : State) : State :=
  {| tab := tab s; isTabTransitioning := isTabTransitioning s;
     pendingTabRef := pendingTabRef s; leaderTab := leaderTab s;
     leadersStatus := leadersStatus s; leaders := leaders s;
     leadersLimit := leadersLimit s; canLoadMore := canLoadMore s;
     playerQuery := playerQuery s;
     playerSearchStatus := playerSearchStatus s; playerResults := v;
     selectedPlayer := selectedPlayer s;
     playerStatsStatus := playerStatsStatus s; playerStats := playerStats s;
     showAllGames := showAllGames s; now := now s;
     nextTimerId := nextTimerId s; timers := timers s;
     debounceTimer := debounceTimer s; inflight := inflight s |}.
Definition with_selectedPlayer (v : option PlayerHit) (s : State) : State :=
  {| tab := tab s; isTabTransitioning := isTabTransitioning s;
     pendingTabRef := pendingTabRef s; leaderTab := leaderTab s;
     leadersStatus := leadersStatus s; leaders := leaders s;
     leadersLimit := leadersLimit s; canLoadMore := canLoadMore s;
     playerQuery := playerQuery s;
     playerSearchStatus := playerSearchStatus s;
     playerResults := playerResults s; selectedPlayer := v;
     playerStatsStatus := playerStatsStatus s; playerStats := playerStats s;
     showAllGames := showAllGames s; now := now s;
     nextTimerId := nextTimerId s; timers := timers s;
     debounceTimer := debounceTimer s; inflight := inflight s |}.
Definition with_playerStatsStatus (v : Status) (s : State) : State :=
  {| tab := tab s; isTabTransitioning := isTabTransitioning s;
     pendingTabRef := pendingTabRef s; leaderTab := leaderTab s;
     leadersStatus := leadersStatus s; leaders := leaders s;
     leadersLimit := leadersLimit s; canLoadMore := canLoadMore s;
     playerQuery := playerQuery s;
     playerSearchStatus := playerSearchStatus s;
     playerResults := playerResults s; selectedPlayer := selectedPlayer s;
     playerStatsStatus := v; playerStats := playerStats s;
     showAllGames := showAllGames s; now := now s;
     nextTimerId := nextTimerId s; timers := timers s;
     debounceTimer := debounceTimer s; inflight := inflight s |}.
Definition with_playerStats (v : option PlayerLastNResponse) (s : State) : State :=
  {| tab := tab s; isTabTransitioning := isTabTransitioning s;
     pendingTabRef := pendingTabRef s; leaderTab := leaderTab s;
     leadersStatus := leadersStatus s; leaders := leaders s;
     leadersLimit := leadersLimit s; canLoadMore := canLoadMore s;
     playerQuery := playerQuery s;
     playerSearchStatus := playerSearchStatus s;
     playerResults := playerResults s; selectedPlayer := selectedPlayer s;
     playerStatsStatus := playerStatsStatus s; playerStats := v;
     showAllGames := showAllGames s; now := now s;
     nextTimerId := nextTimerId s; timers := timers s;
     debounceTimer := debounceTimer s; inflight := inflight s |}.
Definition with_showAllGames (v : bool) (s : State) : State :=
  {| tab := tab s; isTabTransitioning := isTabTransitioning s;
     pendingTabRef := pendingTabRef s; leaderTab := leaderTab s;
     leadersStatus := leadersStatus s; leaders := leaders s;
     leadersLimit := leadersLimit s; canLoadMore := canLoadMore s;
     playerQuery := playerQuery s;
     playerSearchStatus := playerSearchStatus s;
     playerResults := playerResults s; selectedPlayer := selectedPlayer s;
     playerStatsStatus := playerStatsStatus s; playerStats := playerStats s;
     showAllGames := v; now := now s; nextTimerId := nextTimerId s;
     timers := timers s; debounceTimer := debounceTimer s;
     inflight := inflight s |}.
Definition with_now (v : Z) (s : State) : State :=
  {| tab := tab s; isTabTransitioning := isTabTransitioning s;
     pendingTabRef := pendingTabRef s; leaderTab := leaderTab s;
     leadersStatus := leadersStatus s; leaders := leaders s;
     leadersLimit := leadersLimit s; canLoadMore := canLoadMore s;
     playerQuery := playerQuery s;
     playerSearchStatus := playerSearchStatus s;
     playerResults := playerResults s; selectedPlayer := selectedPlayer s;
     playerStatsStatus := playerStatsStatus s; playerStats := playerStats s;
     showAllGames := showAllGames s; now := v; nextTimerId := nextTimerId s;
     timers := timers s; debounceTimer := debounceTimer s;
     inflight := inflight s |}.
Definition with_nextTimerId (v : nat) (s : State) : State :=
  {| tab := tab s; isTabTransitioning := isTabTransitioning s;
     pendingTabRef := pendingTabRef s; leaderTab := leaderTab s;
     leadersStatus := leadersStatus s; leaders := leaders s;
     leadersLimit := leadersLimit s; canLoadMore := canLoadMore s;
     playerQuery := playerQuery s;
     playerSearchStatus := playerSearchStatus s;
     playerResults := playerResults s; selectedPlayer := selectedPlayer s;
     playerStatsStatus := playerStatsStatus s; playerStats := playerStats s;
     showAllGames := showAllGames s; now := now s; nextTimerId := v;
     timers := timers s; debounceTimer := debounceTimer s;
     inflight := inflight s |}.
Definition with_timers (v : list Timer) (s : State) : State :=
  {| tab := tab s; isTabTransitioning := isTabTransitioning s;
     pendingTabRef := pendingTabRef s; leaderTab := leaderTab s;
     leadersStatus := leadersStatus s; leaders := leaders s;
     leadersLimit := leadersLimit s; canLoadMore := canLoadMore s;
     playerQuery := playerQuery s;
     playerSearchStatus := playerSearchStatus s;
     playerResults := playerResults s; selectedPlayer := selectedPlayer s;
     playerStatsStatus := playerStatsStatus s; playerStats := playerStats s;
     showAllGames := showAllGames s; now := now s;
     nextTimerId := nextTimerId s; timers := v;
     debounceTimer := debounceTimer s; inflight := inflight s |}.
Definition with_debounceTimer (v : option nat) (s : State) : State :=
  {| tab := tab s; isTabTransitioning := isTabTransitioning s;
     pendingTabRef := pendingTabRef s; leaderTab := leaderTab s;
     leadersStatus := leadersStatus s; leaders := leaders s;
     leadersLimit := leadersLimit s; canLoadMore := canLoadMore s;
     playerQuery := playerQuery s;
     playerSearchStatus := playerSearchStatus s;
     playerResults := playerResults s; selectedPlayer := selectedPlayer s;
     playerStatsStatus := playerStatsStatus s; playerStats := playerStats s;
     showAllGames := showAllGames s; now := now s;
     nextTimerId := nextTimerId s; timers := timers s; debounceTimer := v;
     inflight := inflight s |}.
Definition with_inflight (v : list Request) (s : State) : State :=
  {| tab := tab s; isTabTransitioning := isTabTransitioning s;
     pendingTabRef := pendingTabRef s; leaderTab := leaderTab s;
     leadersStatus := leadersStatus s; leaders := leaders s;
     leadersLimit := leadersLimit s; canLoadMore := canLoadMore s;
     playerQuery := playerQuery s;
     playerSearchStatus := playerSearchStatus s;
     playerResults := playerResults s; selectedPlayer := selectedPlayer s;
     playerStatsStatus := playerStatsStatus s; playerStats := playerStats s;
     showAllGames := showAllGames s; now := now s;
     nextTimerId := nextTimerId s; timers := timers s;
     debounceTimer := debounceTimer s; inflight := v |}.

(** *** What handlers, effects and callbacks do *)

(** One thing done by a piece of code of the component.  State setters
    are queued and take effect at the next render; a ref write, a
    [fetch] and a [setTimeout] happen at once. *)
Inductive Action :=
| SetTab (v : AppTab)
| SetIsTabTransitioning (v : bool)
| WritePendingTabRef (v : option AppTab)
| SetLeaderTab (v : LeaderTab)
| SetLeadersStatus (v : Status)
| SetLeaders (v : list Leader)
| SetLeadersLimit (v : Z)
| AddLeadersLimit (d : Z)
| SetCanLoadMore (v : bool)
| SetPlayerQuery (v : string)
| SetPlayerSearchStatus (v : Status)
| SetPlayerResults (v : list PlayerHit)
| SetSelectedPlayer (v : option PlayerHit)
| SetPlayerStatsStatus (v : Status)
| SetPlayerStats (v : option PlayerLastNResponse)
| SetShowAllGames (v : bool)
| Fetch (r : Request)
| SetTimeout (cb : TimerCallback) (ms : Z)
| StartDebounce (q : string)
| ClearDebounce.

Definition newTimer (cb : TimerCallback) (ms : Z) (s : State) : State :=
  with_nextTimerId (S (nextTimerId s))
    (with_timers
       (timers s ++ [{| timer_id := nextTimerId s; due := now s + ms; callback := cb |}])
       s).

Definition clearTimeout (id : nat) (s : State) : State :=
  with_timers (filter (fun t => negb (Nat.eqb (timer_id t) id)) (timers s)) s.

Definition applyAction (a : Action) (s : State) : State :=
  match a with
  | SetTab v => with_tab v s
  | SetIsTabTransitioning v => with_isTabTransitioning v s
  | WritePendingTabRef v => with_pendingTabRef v s
  | SetLeaderTab v => with_leaderTab v s
  | SetLeadersStatus v => with_leadersStatus v s
  | SetLeaders v => with_leaders v s
  | SetLeadersLimit v => with_leadersLimit v s
  | AddLeadersLimit d => with_leadersLimit (leadersLimit s + d) s
  | SetCanLoadMore v => with_canLoadMore v s
  | SetPlayerQuery v => with_playerQuery v s
  | SetPlayerSearchStatus v => with_playerSearchStatus v s
  | SetPlayerResults v => with_playerResults v s
  | SetSelectedPlayer v => with_selectedPlayer v s
  | SetPlayerStatsStatus v => with_playerStatsStatus v s
  | SetPlayerStats v => with_playerStats v s
  | SetShowAllGames v => with_showAllGames v s
  | Fetch r => with_inflight (inflight s ++ [r]) s
  | SetTimeout cb ms => newTimer cb ms s
  | StartDebounce q =>
      (* const t = setTimeout(() => fetchPlayerSearch(playerQuery), 250);
         return () => clearTimeout(t); *)
      with_debounceTimer (Some (nextTimerId s)) (newTimer (CbSearch q) 250 s)
  | ClearDebounce =>
      match debounceTimer s with
      | Some id => with_debounceTimer None (clearTimeout id s)
      | None => s
      end
  end.

Definition applyActions (acts : list Action) (s : State) : State :=
  fold_left (fun s a => applyAction a s) acts s.

(** *** Constants *)

Definition TAB_SWAP_MS : Z := 800.
Definition TAB_UNLOCK_MS : Z := 800.
Definition DEFAULT_LAST_N : Z := 10.
Definition ALL_GAMES_N : Z := 9999.

Definition IMPLEMENTED_ROUTES (t : LeaderTab) : bool :=
  match t with
  | Cat3pt => true
  | CatPts => true
  | CatReb => true
  | CatAst => true
  | CatBlk => true
  | CatFg => true
  end.

(** *** The functions of the component *)

Definition requestTabChange (next : AppTab) (s : State) : list Action :=
  if AppTab_eqb next (tab s) then []
  else if isTabTransitioning s then []
  else [ WritePendingTabRef (Some next);
         SetIsTabTransitioning true;
         SetTimeout CbTabSwap TAB_SWAP_MS;
         SetTimeout CbTabUnlock TAB_UNLOCK_MS ].

(** The [useMemo] that builds the leaders URL. *)
Definition leadersEndpoint (s : State) : LeadersEndpoint :=
  let mk path att :=
    {| ep_path := path; ep_season := "2025-26"; ep_min_attempts := att;
       ep_min_gp := 10; ep_limit := leadersLimit s |} in
  match leaderTab s with
  | Cat3pt => mk Cat3pt (Some ("min_3pa", 50))
  | CatPts => mk CatPts None
  | CatReb => mk CatReb None
  | CatAst => mk CatAst None
  | CatBlk => mk CatBlk None
  | CatFg => mk CatFg (Some ("min_fga", 100))
  end.

(** [fetchLeaders] up to its first [await]. *)
Definition fetchLeaders (s : State) : list Action :=
  if negb (IMPLEMENTED_ROUTES (leaderTab s))
  then [ SetLeaders []; SetLeadersStatus Idle; SetCanLoadMore true ]
  else [ SetLeadersStatus Loading;
         Fetch (ReqLeaders (leadersEndpoint s) (leadersLimit s)) ].

(** [fetchLeaders] from its first [await] on, [leadersLimit] being the
    value the call closed over. *)
Definition leadersSettled (leadersLimit : Z) (r : FetchResult LeadersResponse)
  : list Action :=
  catch
    (andThen (fetched r) (fun r =>
     andThen (if negb (fst r) then None else Some r) (fun r =>
     andThen (json r) (fun data =>
     andThen (prop data resp_leaders) (fun field =>
       let list := nullish field [] in
       Some [ SetLeaders list;
              SetCanLoadMore (leadersLimit <=? Z.of_nat (List.length list))%Z;
              SetLeadersStatus Ok ])))))
    [ SetLeadersStatus Error ].

Definition fetchPlayerSearch (q : string) : list Action :=
  let trimmed := trim q in
  if isEmpty trimmed
  then [ SetPlayerResults []; SetPlayerSearchStatus Idle ]
  else [ SetPlayerSearchStatus Loading; Fetch (ReqSearch trimmed) ].

Definition searchSettled (r : FetchResult PlayerSearchResponse) : list Action :=
  catch
    (andThen (fetched r) (fun r =>
     andThen (json r) (fun data =>
     andThen (prop data resp_players) (fun field =>
       Some [ SetPlayerResults (nullish field []);
              SetPlayerSearchStatus Ok ]))))
    [ SetPlayerSearchStatus Error ].

Definition fetchPlayerLastN (nbaPlayerId : Z) (window : Z) : list Action :=
  [ SetPlayerStatsStatus Loading; Fetch (ReqLastN nbaPlayerId window) ].

Definition lastNSettled (r : FetchResult PlayerLastNResponse) : list Action :=
  catch
    (andThen (fetched r) (fun r =>
     andThen (json r) (fun data =>
       Some [ SetPlayerStats data; SetPlayerStatsStatus Ok ])))
    [ SetPlayerStatsStatus Error ].

Definition jumpToPlayerFromLeader (playerId : Z) (playerName : string) (s : State)
  : list Action :=
  requestTabChange TabPlayer s
  ++ [ SetSelectedPlayer None;
       SetPlayerStats None;
       SetShowAllGames false;
       SetPlayerQuery playerName;
       SetPlayerSearchStatus Loading;
       Fetch (ReqJumpSearch playerId playerName) ].

Definition jumpSettled (playerId : Z) (r : FetchResult PlayerSearchResponse)
  : list Action :=
  catch
    (andThen (fetched r) (fun r =>
     andThen (json r) (fun data =>
     andThen (prop data resp_players) (fun field =>
       let exact :=
         find (fun p => (nba_player_id p =? playerId)%Z) (nullish field []) in
       Some
         (match exact with
          | Some exact =>
              [ SetSelectedPlayer (Some exact);
                SetPlayerQuery "";
                SetPlayerResults [] ]
              ++ fetchPlayerLastN (nba_player_id exact) DEFAULT_LAST_N
          | None => []
          end
          ++ [ SetPlayerSearchStatus Ok ])))))
    [ SetPlayerSearchStatus Error ].

(** *** Effects *)

(** The effects of a render [cur] that follows the render [prev], in the
    order React runs them: the cleanup of an effect that is about to run
    again, then the effect bodies in the order of their declaration; an
    effect runs when one of its dependencies differs between the two
    renders, and it reads the render it belongs to. *)
Definition effects (prev cur : State) : list Action :=
  let leaderTabChanged := negb (LeaderTab_eqb (leaderTab prev) (leaderTab cur)) in
  let tabChanged := negb (AppTab_eqb (tab prev) (tab cur)) in
  let limitChanged := negb (leadersLimit prev =? leadersLimit cur)%Z in
  let queryChanged := negb (String.eqb (playerQuery prev) (playerQuery cur)) in
  (if queryChanged then [ ClearDebounce ] else [])
  ++ (if leaderTabChanged
      then [ SetLeadersLimit 10; SetCanLoadMore true ] else [])
  ++ (if tabChanged
      then if AppTab_eqb (tab cur) TabLeaders
           then [ SetLeadersLimit 10; SetCanLoadMore true ] else []
      else [])
  ++ (if leaderTabChanged || limitChanged || tabChanged
      then if AppTab_eqb (tab cur) TabLeaders then fetchLeaders cur else []
      else [])
  ++ (if queryChanged then [ StartDebounce (playerQuery cur) ] else []).

(** Every effect runs after the first render. *)
Definition mountEffects (cur : State) : list Action :=
  [ SetLeadersLimit 10; SetCanLoadMore true ]
  ++ (if AppTab_eqb (tab cur) TabLeaders
      then [ SetLeadersLimit 10; SetCanLoadMore true ] else [])
  ++ fetchLeaders cur
  ++ (if AppTab_eqb (tab cur) TabLeaders then fetchLeaders cur else [])
  ++ [ StartDebounce (playerQuery cur) ].

(** Renders and runs effects until a render changes no dependency:
    [prev] is the last render, [cur] the state to render next. *)
Fixpoint flush (passes : nat) (prev cur : State) : State :=
  match passes with
  | O => cur
  | S k => flush k cur (applyActions (effects prev cur) cur)
  end.

(** Two passes reach a render without effects (lemma [flush_settles]). *)
Definition commit (prev cur : State) : State := flush 2 prev cur.

(** Runs a piece of code against the render [s] it closes over, then
    renders. *)
Definition dispatch (code : State -> list Action) (s : State) : State :=
  commit s (applyActions (code s) s).

(** *** Events *)

Inductive Reply :=
| LeadersReply (r : FetchResult LeadersResponse)
| SearchReply (r : FetchResult PlayerSearchResponse)
| LastNReply (r : FetchResult PlayerLastNResponse).

Inductive Event :=
| TabClicked (v : AppTab)
| LeaderTabClicked (v : LeaderTab)
| LoadMoreClicked
| QueryTyped (q : string)
| ToggleAllClicked
| ClearClicked
| ResultClicked (i : nat)
| LeaderRowClicked (i : nat)
| Elapsed (ms : Z)
| Replied (k : nat) (r : Reply).

(** The handlers of the JSX; a control that is not rendered, or is
    disabled, handles nothing. *)
Definition handle (e : Event) (s : State) : list Action :=
  match e with
  | TabClicked v => requestTabChange v s
  | LeaderTabClicked v =>
      if AppTab_eqb (tab s) TabLeaders then [ SetLeaderTab v ] else []
  | LoadMoreClicked =>
      if AppTab_eqb (tab s) TabLeaders && Status_eqb (leadersStatus s) Ok
         && canLoadMore s
      then [ AddLeadersLimit 10 ] else []
  | QueryTyped q =>
      if AppTab_eqb (tab s) TabPlayer then [ SetPlayerQuery q ] else []
  | ToggleAllClicked =>
      if AppTab_eqb (tab s) TabPlayer then
        match selectedPlayer s with
        | Some p =>
            let next := negb (showAllGames s) in
            SetShowAllGames next
            :: fetchPlayerLastN (nba_player_id p)
                 (if next then ALL_GAMES_N else DEFAULT_LAST_N)
        | None => []
        end
      else []
  | ClearClicked =>
      if AppTab_eqb (tab s) TabPlayer then
        match selectedPlayer s with
        | Some _ =>
            [ SetSelectedPlayer None;
              SetPlayerStats None;
              SetShowAllGames false;
              SetPlayerQuery "";
              SetPlayerResults [] ]
        | None => []
        end
      else []
  | ResultClicked i =>
      if AppTab_eqb (tab s) TabPlayer then
        match nth_error (playerResults s) i with
        | Some p =>
            [ SetSelectedPlayer (Some p);
              SetShowAllGames false;
              SetPlayerQuery "";
              SetPlayerResults [] ]
            ++ fetchPlayerLastN (nba_player_id p) DEFAULT_LAST_N
        | None => []
        end
      else []
  | LeaderRowClicked i =>
      if AppTab_eqb (tab s) TabLeaders
         && negb (Status_eqb (leadersStatus s) Loading)
      then
        match nth_error (leaders s) i with
        | Some p => jumpToPlayerFromLeader (player_id p) (player_name p) s
        | None => []
        end
      else []
  | Elapsed _ => []
  | Replied _ _ => []
  end.

Definition timerFired (cb : TimerCallback) (s : State) : list Action :=
  match cb with
  | CbTabSwap =>
      match pendingTabRef s with
      | Some target => [ SetTab target ]
      | None => []
      end
  | CbTabUnlock => [ WritePendingTabRef None; SetIsTabTransitioning false ]
  | CbSearch q => fetchPlayerSearch q
  end.

(** The continuation of a request, when the reply is one for it. *)
Definition settled (req : Request) (r : Reply) : option (list Action) :=
  match req, r with
  | ReqLeaders _ closedLimit, LeadersReply r => Some (leadersSettled closedLimit r)
  | ReqSearch _, SearchReply r => Some (searchSettled r)
  | ReqJumpSearch playerId _, SearchReply r => Some (jumpSettled playerId r)
  | ReqLastN _ _, LastNReply r => Some (lastNSettled r)
  | _, _ => None
  end.

Fixpoint removeNth {A : Type} (k : nat) (l : list A) : list A :=
  match k, l with
  | _, [] => []
  | O, _ :: l' => l'
  | S k', x :: l' => x :: removeNth k' l'
  end.

(** The pending timer that fires first: the earliest due one and, among
    timers due together, the one set first. *)
Fixpoint nextDue (l : list Timer) : option Timer :=
  match l with
  | [] => None
  | t :: l' =>
      match nextDue l' with
      | Some u => if (due u <? due t)%Z then Some u else Some t
      | None => Some t
      end
  end.

(** Fires, in order, the timers due by [deadline]. *)
Fixpoint runTimers (fuel : nat) (deadline : Z) (s : State) : State :=
  match fuel with
  | O => s
  | S fuel' =>
      match nextDue (timers s) with
      | Some t =>
          if (due t <=? deadline)%Z then
            let s1 := with_now (Z.max (now s) (due t)) (clearTimeout (timer_id t) s) in
            runTimers fuel' deadline (dispatch (timerFired (callback t)) s1)
          else s
      | None => s
      end
  end.

Definition elapse (ms : Z) (s : State) : State :=
  let deadline := now s + Z.max 0 ms in
  with_now deadline (runTimers (List.length (timers s)) deadline s).

Definition step (e : Event) (s : State) : State :=
  match e with
  | Elapsed ms => elapse ms s
  | Replied k r =>
      match nth_error (inflight s) k with
      | Some req =>
          match settled req r with
          | Some acts =>
              dispatch (fun _ => acts) (with_inflight (removeNth k (inflight s)) s)
          | None => s
          end
      | None => s
      end
  | _ => dispatch (handle e) s
  end.

Definition run (evs : list Event) (s : State) : State :=
  fold_left (fun s e => step e s) evs s.

(** The [useState] and [useRef] initial values, before the first
    effects. *)
Definition initial : State :=
  {| tab := TabHome; isTabTransitioning := false; pendingTabRef := None;
     leaderTab := Cat3pt; leadersStatus := Idle; leaders := [];
     leadersLimit := 10; canLoadMore := true;
     playerQuery := ""; playerSearchStatus := Idle; playerResults := [];
     selectedPlayer := None; playerStatsStatus := Idle; playerStats := None;
     showAllGames := false;
     now := 0; nextTimerId := O; timers := []; debounceTimer := None;
     inflight := [] |}.

(** The component once mounted. *)
Definition mounted : State :=
  commit initial (applyActions (mountEffects initial) initial).

(** *** Vocabulary of the statements *)

(** A remote call that failed: the request was rejected, the status is not
    2xx, or the body does not parse. *)
Definition failed {A : Type} (r : FetchResult A) : bool :=
  match r with
  | NetworkError => true
  | Response ok body =>
      negb ok || match body with BadJson => true | _ => false end
  end.

(** What an effect can do. *)
Definition isEffectAction (a : Action) : bool :=
  match a with
  | SetLeadersLimit v => v =? 10
  | SetCanLoadMore v => v
  | SetLeadersStatus _ | SetLeaders _
  | Fetch (ReqLeaders _ _) | StartDebounce _ | ClearDebounce => true
  | _ => false
  end.

Definition isLeadersRequest (r : Request) : bool :=
  match r with ReqLeaders _ _ => true | _ => false end.

(** [s'] differs from [s] at most in the leaderboard slot, the timers and
    new leaderboard requests. *)
Definition leadersOnly (s s' : State) : Prop :=
  tab s' = tab s /\
  isTabTransitioning s' = isTabTransitioning s /\
  pendingTabRef s' = pendingTabRef s /\
  leaderTab s' = leaderTab s /\
  playerQuery s' = playerQuery s /\
  playerSearchStatus s' = playerSearchStatus s /\
  playerResults s' = playerResults s /\
  selectedPlayer s' = selectedPlayer s /\
  playerStatsStatus s' = playerStatsStatus s /\
  playerStats s' = playerStats s /\
  showAllGames s' = showAllGames s /\
  now s' = now s /\
  exists extra,
    inflight s' = inflight s ++ extra /\ forallb isLeadersRequest extra = true.

(** No dependency of an effect differs between two renders. *)
Definition sameDeps (prev cur : State) : Prop :=
  leaderTab prev = leaderTab cur /\
  tab prev = tab cur /\
  leadersLimit prev = leadersLimit cur /\
  playerQuery prev = playerQuery cur.

Definition isLastNRequest (r : Request) : bool :=
  match r with ReqLastN _ _ => true | _ => false end.

(** The committed game log is the log of the selected player. *)
Definition statsBelongToSelection (s : State) : Prop :=
  forall d, playerStats s = Some d ->
  exists p, selectedPlayer s = Some p /\ nba_player_id p = stats_player_id d.

(** The backend answers a game-log request with the log of the player it
    was asked for. *)
Definition answersTheRequest (s : State) (e : Event) : Prop :=
  match e with
  | Replied k (LastNReply (Response _ (JsonValue d))) =>
      forall id w, nth_error (inflight s) k = Some (ReqLastN id w) ->
                   stats_player_id d = id
  | _ => True
  end.

Fixpoint honest (s : State) (evs : list Event) : Prop :=
  match evs with
  | [] => True
  | e :: evs' => answersTheRequest s e /\ honest (step e s) evs'
  end.

(** The player with this id was the selected one at some point of the
    run. *)
Definition wasSelected (evs : list Event) (id : Z) : Prop :=
  exists k p,
    selectedPlayer (run (firstn k evs) mounted) = Some p /\ nba_player_id p = id.

(** The part of the state the game log lives in. *)
Definition statsView (s : State)
  : option PlayerHit * option PlayerLastNResponse * list Request :=
  (selectedPlayer s, playerStats s, filter isLastNRequest (inflight s)).

Definition keepsStats (a : Action) : bool :=
  match a with
  | SetSelectedPlayer _ | SetPlayerStats _ | Fetch (ReqLastN _ _) => false
  | _ => true
  end.


Definition isTabCallback (cb : TimerCallback) : bool :=
  match cb with CbSearch _ => false | _ => true end.

(** Timer ids are handed out in increasing order. *)
Definition freshIds (s : State) : Prop :=
  forall t, In t (timers s) -> (timer_id t < nextTimerId s)%nat.

(** The one pending search timer is the one the debounce effect holds for
    its cleanup. *)
Definition debounceOnly (s : State) : Prop :=
  forall t, In t (timers s) -> isTabCallback (callback t) = false ->
            debounceTimer s = Some (timer_id t).



(** The timers and what the debounce effect depends on. *)
Definition timersView (s : State) : string * list Timer * option nat * nat :=
  (playerQuery s, timers s, debounceTimer s, nextTimerId s).

Definition keepsTimers (a : Action) : bool :=
  match a with
  | SetPlayerQuery _ | SetTimeout _ _ | StartDebounce _ | ClearDebounce => false
  | _ => true
  end.

(** What a step can do to the game log and to the game-log requests: the
    log is the one of before or answers a request that was in flight; a
    request is one of before or asks for the player selected after the
    step. *)
Definition statsStep (s s' : State) : Prop :=
  (forall d, playerStats s' = Some d ->
     playerStats s = Some d \/
     exists w, In (ReqLastN (stats_player_id d) w) (inflight s)) /\
  (forall id w, In (ReqLastN id w) (inflight s') ->
     In (ReqLastN id w) (inflight s) \/
     exists p, selectedPlayer s' = Some p /\ nba_player_id p = id).

(** A piece of code that sets no search timer. *)
Definition plainAction (a : Action) : bool :=
  match a with
  | StartDebounce _ | SetTimeout (CbSearch _) _ => false
  | _ => true
  end.

Definition noSearchTimers (s : State) : Prop :=
  forall t, In t (timers s) -> isTabCallback (callback t) = true.

(** No timer of a tab transition is pending. *)
Definition noTabTimers (s : State) : Prop :=
  forall t, In t (timers s) -> isTabCallback (callback t) = false.

(** A transition to [a] is under way: its swap timer [sw] is pending, or
    it has fired and the tab is [a]. *)
Definition swapPending (a : AppTab) (sw : Timer) (s : State) : Prop :=
  pendingTabRef s = Some a /\
  isTabTransitioning s = true /\
  (In sw (timers s) \/ tab s = a) /\
  forall t, In t (timers s) -> isTabCallback (callback t) = false ->
            timer_id t <> timer_id sw.

(** The pending timers of a tab transition, in the order they were set. *)
Definition tabTimers (s : State) : list Timer :=
  filter (fun t => isTabCallback (callback t)) (timers s).

(** Timer ids are fresh and distinct, and the id kept by the debounce
    effect is the id of a search timer. *)
Definition timersWf (s : State) : Prop :=
  freshIds s /\
  NoDup (map timer_id (timers s)) /\
  forall i, debounceTimer s = Some i ->
            (i < nextTimerId s)%nat /\
            forall t, In t (timers s) -> timer_id t = i ->
                      isTabCallback (callback t) = false.

(** The tab machine and its timers: idle, no transition timer is pending;
    in transition, the swap timer and after it the unlock timer, not due
    earlier, or the unlock timer alone. *)
Definition tabInv (s : State) : Prop :=
  if isTabTransitioning s then
    (exists sw ul,
        tabTimers s = [sw; ul] /\ callback sw = CbTabSwap /\
        callback ul = CbTabUnlock /\ due sw <= due ul)
    \/ (exists ul, tabTimers s = [ul] /\ callback ul = CbTabUnlock)
  else tabTimers s = [].

(** An action that neither sets a timer of its own nor touches the
    transition flag. *)
Definition tabQuiet (a : Action) : bool :=
  match a with
  | SetIsTabTransitioning _ | SetTimeout _ _ => false
  | _ => true
  end.

Definition keepsTab (a : Action) : bool :=
  match a with SetTab _ => false | _ => true end.

(** *** Sample data *)

Definition sampleLeader (id : Z) (name : string) : Leader :=
  {| player_id := id; player_name := name; team_abbreviation := "GSW";
     fg3_pct := None; fg3m := None; fg3a := None;
     fg_pct := None; fgm := None; fga := None;
     value := Some (25#1); gp := 40 |}.

Definition sampleRows (k : nat) : list Leader :=
  map (fun i => sampleLeader (Z.of_nat i) "Player") (seq 1 k).

Definition sampleHit (id : Z) (name : string) : PlayerHit :=
  {| nba_player_id := id; full_name := name; nba_team_id := None |}.

Definition sampleLog (id : Z) : PlayerLastNResponse :=
  {| stats_player_id := id; n := 10; count := 0;
     averages :=
       {| avg_pts := None; avg_reb := None; avg_ast := None; avg_stl := None;
          avg_blk := None; avg_tov := None; avg_min := None;
          avg_fg_pct := None; avg_fg3_pct := None; avg_ft_pct := None |};
     games := []; source := "warehouse" |}.

Definition leadersOk (rows : list Leader) : Reply :=
  LeadersReply (Response true (JsonValue {| resp_leaders := Some rows |})).

Definition searchOk (hits : list PlayerHit) : Reply :=
  SearchReply (Response true (JsonValue {| resp_players := Some hits |})).

Definition lastNOk (d : PlayerLastNResponse) : Reply :=
  LastNReply (Response true (JsonValue d)).



(** The pagination is at its first page. *)
Definition pagingReset (s : State) : Prop :=
  leadersLimit s = 10 /\ canLoadMore s = true.




(** From the mounted component to the Leaders page, both requests
    answered with ten rows. *)
Definition toLeadersPage : list Event :=
  [ TabClicked TabLeaders; Elapsed 800;
    Replied 0 (leadersOk (sampleRows 10));
    Replied 0 (leadersOk (sampleRows 10)) ].

Definition leadersShown : State := run toLeadersPage mounted.

(** "Load more" twice: thirty rows of the 3PT% leaderboard. *)
Definition thirtyRows : State :=
  run [ LoadMoreClicked; Replied 0 (leadersOk (sampleRows 20));
        LoadMoreClicked; Replied 0 (leadersOk (sampleRows 30)) ]
    leadersShown.



(** Away to the Player page and on the way back to Leaders. *)
Definition returning : State :=
  run [ TabClicked TabPlayer; Elapsed 800; TabClicked TabLeaders ] thirtyRows.


(** Back on the Leaders page, both requests of the return answered, the
    one for thirty rows last. *)
Definition returnedOutOfOrder : State :=
  run [ Elapsed 800; Replied 1 (leadersOk (sampleRows 10));
        Replied 0 (leadersOk (sampleRows 30)) ]
    returning.

(** From the mounted component to the Player page. *)
Definition toPlayerPage : list Event :=
  [ TabClicked TabPlayer; Elapsed 800 ].

(** Two players picked one after the other from search results; the game
    log of the second arrives first, the game log of the first last. *)
Definition staleTrace : list Event :=
  toPlayerPage
  ++ [ QueryTyped "a"; Elapsed 250;
       Replied 1 (searchOk [ sampleHit 1 "Ann"; sampleHit 2 "Bob" ]);
       ResultClicked 0;
       QueryTyped "b"; Elapsed 250;
       Replied 2 (searchOk [ sampleHit 1 "Ann"; sampleHit 2 "Bob" ]);
       ResultClicked 1;
       Replied 2 (lastNOk (sampleLog 2));
       Replied 1 (lastNOk (sampleLog 1)) ].

(** The Player page with a search for "cur" in flight. *)
Definition searchingCur : State :=
  run (toPlayerPage ++ [ QueryTyped "cur"; Elapsed 250 ]) mounted.

(** The search answered: one hit on display. *)
Definition curTrace : list Event :=
  toPlayerPage
  ++ [ QueryTyped "cur"; Elapsed 250;
       Replied 1 (searchOk [ sampleHit 201 "Stephen Curry" ]) ].

Definition curShown : State := run curTrace mounted.

(** The body of an error page: JSON without the expected properties. *)
Definition errorPage : PlayerSearchResponse := {| resp_players := None |}.

(** *** Vocabulary of the further properties *)

(** A limit the pagination can reach: 10, 20, 30, ... *)
Definition pageSize (l : Z) : Prop := exists k, 0 < k /\ l = 10 * k.

(** The minimum of attempts the URL of a category carries. *)
Definition minAttempts (t : LeaderTab) : option (string * Z) :=
  match t with
  | Cat3pt => Some ("min_3pa", 50)
  | CatFg => Some ("min_fga", 100)
  | _ => None
  end.

(** A request as the component means to send it: a leaderboard request
    asks for the limit its continuation later compares the rows with, a
    search request carries a trimmed query that is not empty, a game-log
    request asks for the last 10 games or for all of them. *)
Definition wellFormed (r : Request) : Prop :=
  match r with
  | ReqLeaders url l =>
      ep_limit url = l /\ pageSize l /\ ep_season url = "2025-26" /\
      ep_min_gp url = 10 /\ ep_min_attempts url = minAttempts (ep_path url)
  | ReqSearch q => q <> "" /\ trim q = q
  | ReqJumpSearch _ _ => True
  | ReqLastN _ w => w = DEFAULT_LAST_N \/ w = ALL_GAMES_N
  end.

(** An action that keeps the limit a page size and sends well-formed
    requests only. *)
Definition okAction (a : Action) : Prop :=
  match a with
  | SetLeadersLimit v => pageSize v
  | AddLeadersLimit d => d = 10
  | Fetch r => wellFormed r
  | _ => True
  end.

Definition requestsWf (s : State) : Prop :=
  pageSize (leadersLimit s) /\ Forall wellFormed (inflight s).

(** A request of the typeahead slot: the search itself or the search of a
    deep link. *)
Definition isSearchRequest (r : Request) : bool :=
  match r with ReqSearch _ | ReqJumpSearch _ _ => true | _ => false end.

(** A request of this kind is in flight. *)
Definition awaited (kind : Request -> bool) (s : State) : bool :=
  existsb kind (inflight s).

(** A slot that shows Loading has a request in flight. *)
Definition loadingBacked (s : State) : Prop :=
  (leadersStatus s = Loading -> awaited isLeadersRequest s = true) /\
  (playerSearchStatus s = Loading -> awaited isSearchRequest s = true) /\
  (playerStatsStatus s = Loading -> awaited isLastNRequest s = true).

(** The pending timers of the debounced search. *)
Definition searchTimers (s : State) : list Timer :=
  filter (fun t => negb (isTabCallback (callback t))) (timers s).

(** The pending search is the search for the query on display. *)
Definition searchesTheQuery (s : State) : Prop :=
  forall t, In t (timers s) -> forall q, callback t = CbSearch q -> q = playerQuery s.

(** An action that sends no leaderboard request. *)
Definition noLeadersFetch (a : Action) : bool :=
  match a with
  | Fetch r => negb (isLeadersRequest r)
  | _ => true
  end.

(** An action that sends no request and leaves the tab. *)
Definition keepsRequests (a : Action) : bool :=
  match a with
  | Fetch _ | SetTab _ => false
  | _ => true
  end.

(** The tab and the requests in flight. *)
Definition tabAndRequests (s : State) : AppTab * list Request :=
  (tab s, inflight s).

(** The tab is the one of before or the pending one, the pending tab the
    one of before or none. *)
Definition towards (p0 : option AppTab) (t0 : AppTab) (s : State) : Prop :=
  (pendingTabRef s = p0 \/ pendingTabRef s = None) /\
  (tab s = t0 \/ Some (tab s) = p0).

(** Neither on the Leaders page nor on the way to it. *)
Definition awayFromLeaders (s : State) : Prop :=
  tab s <> TabLeaders /\ pendingTabRef s <> Some TabLeaders.

(** The delay a callback is set with. *)
Definition delayOf (cb : TimerCallback) : Z :=
  match cb with
  | CbTabSwap => TAB_SWAP_MS
  | CbTabUnlock => TAB_UNLOCK_MS
  | CbSearch _ => 250
  end.

(** No pending timer is due later than its delay from now. *)
Definition dueBound (s : State) : Prop :=
  forall t, In t (timers s) -> due t <= now s + delayOf (callback t).

(** An action that sets no timer with more than the delay of its
    callback. *)
Definition timedAction (a : Action) : bool :=
  match a with
  | SetTimeout cb ms => ms <=? delayOf cb
  | _ => true
  end.

(** Out of a transition no tab is pending. *)
Definition lockInv (s : State) : Prop :=
  isTabTransitioning s = false -> pendingTabRef s = None.

End App.


(** ** App.tsx: the chat page *)

(** [AIPage], a component of its own with three state hooks, while it is
    mounted.  The ids of the messages come from [Date.now()] and
    [Math.random()]: they are inputs of the event that asks.  The fixed
    texts hold characters above U+00FF and are written as their UTF-8
    bytes; nothing looks into them but [trim], which stops at the ASCII
    letters and marks they begin and end with. *)

Module AIPage.
Import Js.

Inductive Role := User | Assistant.

Record ChatMsg := {
  msg_id : string;
  role : Role;
  text : string
}.

Inductive ChatStatus := ChatIdle | Thinking.

(** A pending [setTimeout] of [mockAsk], with the id its callback closes
    over. *)
Record ReplyTimer := {
  reply_due : Z;
  assistantId : string
}.

Record ChatState := {
  question : string;
  chatStatus : ChatStatus;
  messages : list ChatMsg;
  clock : Z;
  replyTimers : list ReplyTimer
}.

Definition newline : string := String (ascii_of_nat 10) EmptyString.

Definition placeholderText : string := "…".

Definition cannedReply : string :=
  "Got it — once AI answers are enabled, I’ll respond here."
  ++ newline ++ newline
  ++ "For now, you can use Player / Leaders / Standings to explore the data.".

Definition examples : list string :=
  [ "Compare Stephen Curry and Damian Lillard in the last 5 games.";
    "Summarize Nikola Jokić’s last 10 games (PTS/REB/AST) and FG%.";
    "Which players improved their scoring the most over the last 10 games?";
    "Which star players are trending up? Compare last 10 games vs season averages";
    "Show me the top 5 'winning impact' players by average +/- in the last 3 games.";
    "What is the best single game stat line so far this season? (PTS/REB/AST)";
    "Who has the most minutes? Show me the average and the total for that player.";
    "Who’s been the best all-around player in the last 3 games? (min 25 MPG)" ].

Definition REPLY_MS : Z := 650.

(** [addMsg], the id being given. *)
Definition addMsg (id : string) (r : Role) (t : string) (m : list ChatMsg)
  : list ChatMsg :=
  m ++ [ {| msg_id := id; role := r; text := t |} ].

(** [mockAsk], with the two ids [addMsg] draws. *)
Definition mockAsk (userId assistantId : string) (s : ChatState) : ChatState :=
  let q := trim (question s) in
  if isEmpty q then s
  else
    {| question := "";
       chatStatus := Thinking;
       messages := addMsg assistantId Assistant placeholderText
                     (addMsg userId User q (messages s));
       clock := clock s;
       replyTimers :=
         replyTimers s
         ++ [ {| reply_due := clock s + REPLY_MS; assistantId := assistantId |} ] |}.

(** The callback of the timeout. *)
Definition replyArrives (assistantId : string) (s : ChatState) : ChatState :=
  {| question := question s;
     chatStatus := ChatIdle;
     messages :=
       map (fun x =>
              if String.eqb (msg_id x) assistantId
              then {| msg_id := msg_id x; role := role x; text := cannedReply |}
              else x)
           (messages s);
     clock := clock s;
     replyTimers := replyTimers s |}.

Inductive ChatEvent :=
| Typed (v : string)
| EnterPressed (userId assistantId : string)
| SendClicked (userId assistantId : string)
| ClearChatClicked
| ExampleClicked (i : nat)
| Waited (ms : Z).

(** The Send button is disabled while thinking and on a blank question;
    the Enter key is not. *)
Definition sendDisabled (s : ChatState) : bool :=
  match chatStatus s with
  | Thinking => true
  | ChatIdle => (Z.of_nat (String.length (trim (question s))) =? 0)%Z
  end.

Definition setQuestion (v : string) (s : ChatState) : ChatState :=
  {| question := v; chatStatus := chatStatus s; messages := messages s;
     clock := clock s; replyTimers := replyTimers s |}.

Definition clearChat (s : ChatState) : ChatState :=
  {| question := ""; chatStatus := ChatIdle; messages := [];
     clock := clock s; replyTimers := replyTimers s |}.

Definition ReplyTimer_eqb (a b : ReplyTimer) : bool :=
  (reply_due a =? reply_due b)%Z && String.eqb (assistantId a) (assistantId b).

Fixpoint removeFirst (t : ReplyTimer) (l : list ReplyTimer) : list ReplyTimer :=
  match l with
  | [] => []
  | u :: l' => if ReplyTimer_eqb u t then l' else u :: removeFirst t l'
  end.

(** The pending timeout that fires first: the earliest due one and, among
    those due together, the one set first. *)
Fixpoint nextReply (l : list ReplyTimer) : option ReplyTimer :=
  match l with
  | [] => None
  | t :: l' =>
      match nextReply l' with
      | Some u => if (reply_due u <? reply_due t)%Z then Some u else Some t
      | None => Some t
      end
  end.

Fixpoint runReplies (fuel : nat) (deadline : Z) (s : ChatState) : ChatState :=
  match fuel with
  | O => s
  | S fuel' =>
      match nextReply (replyTimers s) with
      | Some t =>
          if (reply_due t <=? deadline)%Z then
            runReplies fuel' deadline
              (replyArrives (assistantId t)
                 {| question := question s; chatStatus := chatStatus s;
                    messages := messages s;
                    clock := Z.max (clock s) (reply_due t);
                    replyTimers := removeFirst t (replyTimers s) |})
          else s
      | None => s
      end
  end.

Definition wait (ms : Z) (s : ChatState) : ChatState :=
  let deadline := clock s + Z.max 0 ms in
  let s' := runReplies (List.length (replyTimers s)) deadline s in
  {| question := question s'; chatStatus := chatStatus s'; messages := messages s';
     clock := deadline; replyTimers := replyTimers s' |}.

Definition chatStep (e : ChatEvent) (s : ChatState) : ChatState :=
  match e with
  | Typed v => setQuestion v s
  | EnterPressed userId assistantId => mockAsk userId assistantId s
  | SendClicked userId assistantId =>
      if sendDisabled s then s else mockAsk userId assistantId s
  | ClearChatClicked => clearChat s
  | ExampleClicked i =>
      match nth_error examples i with
      | Some ex => setQuestion ex s
      | None => s
      end
  | Waited ms => wait ms s
  end.

Definition chat (evs : list ChatEvent) (s : ChatState) : ChatState :=
  fold_left (fun s e => chatStep e s) evs s.

Definition chatInitial : ChatState :=
  {| question := ""; chatStatus := ChatIdle; messages := []; clock := 0;
     replyTimers := [] |}.

(** *** Vocabulary of the statements *)

(** The thread is a sequence of exchanges: a user message, then an
    assistant message. *)
Fixpoint exchanges (roles : list Role) : Prop :=
  match roles with
  | [] => True
  | User :: Assistant :: rest => exchanges rest
  | _ => False
  end.

(** A reply is on its way for every assistant message that still shows
    the placeholder, and for the typing indicator. *)
Definition awaitsReply (s : ChatState) : Prop :=
  (forall m, In m (messages s) -> role m = Assistant -> text m = placeholderText ->
             exists t, In t (replyTimers s) /\ assistantId t = msg_id m) /\
  (chatStatus s = Thinking -> replyTimers s <> []).

(** No pending reply is due later than 650 ms from now. *)
Definition replyBound (s : ChatState) : Prop :=
  forall t, In t (replyTimers s) -> reply_due t <= clock s + REPLY_MS.

(** An assistant message shows the placeholder or the reply. *)
Definition assistantTexts (s : ChatState) : Prop :=
  forall m, In m (messages s) -> role m = Assistant ->
            text m = placeholderText \/ text m = cannedReply.

(** An event that may send the question. *)
Definition isAsk (e : ChatEvent) : bool :=
  match e with
  | EnterPressed _ _ | SendClicked _ _ => true
  | _ => false
  end.

End AIPage.

(** * Properties *)

(** ** The sort *)

Module JsFacts.
Import Js.

Section SortFacts.
Context {A : Type} (cmp : A -> A -> Q).

Lemma insert_perm (x : A) (l : list A) : Permutation (insert cmp x l) (x :: l).
Proof.
  induction l as [|y l IH]; simpl.
  - apply Permutation_refl.
  - destruct (Qle_bool (cmp x y) 0).
    + apply Permutation_refl.
    + eapply perm_trans; [apply perm_skip, IH | apply perm_swap].
Qed.

Lemma sort_perm (l : list A) : Permutation (sort cmp l) l.
Proof.
  induction l as [|x l IH]; simpl.
  - apply perm_nil.
  - eapply perm_trans; [apply insert_perm | apply perm_skip, IH].
Qed.

(** On a set of elements where the comparator is a total preorder, the
    result is sorted. *)
Variable dom : A -> Prop.
Hypothesis before_total :
  forall x y, dom x -> dom y -> ~ before cmp x y -> before cmp y x.
Hypothesis before_trans :
  forall x y z, dom x -> dom y -> dom z ->
    before cmp x y -> before cmp y z -> before cmp x z.

Lemma insert_sorted (x : A) (l : list A) :
  dom x -> Forall dom l ->
  StronglySorted (before cmp) l -> StronglySorted (before cmp) (insert cmp x l).
Proof.
  intros Hx Hl Hs. induction Hs as [|y l Hs IH Hy]; simpl.
  - constructor; constructor.
  - inversion Hl as [|? ? Hdy Hdl]; subst.
    destruct (Qle_bool (cmp x y) 0) eqn:E.
    + apply Qle_bool_iff in E.
      constructor; [constructor; assumption|].
      constructor; [exact E|].
      rewrite Forall_forall in *. intros z Hz.
      apply (before_trans x y z); auto.
    + assert (Hyx : before cmp y x).
      { apply before_total; auto. intro Hc.
        apply Qle_bool_iff in Hc. unfold before in Hc. congruence. }
      constructor; [apply IH; assumption|].
      apply (Permutation_Forall (Permutation_sym (insert_perm x l))).
      constructor; assumption.
Qed.

Lemma sort_sorted (l : list A) :
  Forall dom l -> StronglySorted (before cmp) (sort cmp l).
Proof.
  induction l as [|x l IH]; simpl; intros Hl.
  - constructor.
  - inversion Hl; subst. apply insert_sorted; auto.
    apply (Permutation_Forall (Permutation_sym (sort_perm l))). assumption.
Qed.

End SortFacts.

Lemma filter_sorted {A : Type} (R : A -> A -> Prop) (f : A -> bool) (l : list A) :
  StronglySorted R l -> StronglySorted R (filter f l).
Proof.
  induction 1 as [|x l Hs IH Hx]; simpl.
  - constructor.
  - destruct (f x); [constructor|]; auto.
    rewrite Forall_forall in *. intros y Hy.
    apply filter_In in Hy. apply Hx, Hy.
Qed.

Lemma sorted_weaken {A : Type} (R R' : A -> A -> Prop) (dom : A -> Prop) (l : list A) :
  (forall x y, dom x -> dom y -> R x y -> R' x y) ->
  Forall dom l -> StronglySorted R l -> StronglySorted R' l.
Proof.
  intros HR Hl Hs. induction Hs as [|x l Hs IH Hx].
  - constructor.
  - inversion Hl as [|? ? Hdx Hdl]; subst.
    constructor; [auto|].
    rewrite Forall_forall in *. intros y Hy. apply HR; auto.
Qed.

Lemma filter_split {A : Type} (f g : A -> bool) (l : list A) :
  Forall (fun x => g x = negb (f x)) l ->
  Permutation (filter f l ++ filter g l) l.
Proof.
  induction 1 as [|x l Hx Hl IH]; simpl.
  - apply perm_nil.
  - rewrite Hx. destruct (f x); simpl.
    + apply perm_skip, IH.
    + eapply perm_trans; [apply Permutation_sym, Permutation_middle|].
      apply perm_skip, IH.
Qed.

Lemma find_Some {A : Type} (f : A -> bool) (l : list A) (x : A) :
  find f l = Some x -> f x = true /\ In x l.
Proof.
  induction l as [|y l IH]; simpl; [discriminate|].
  destruct (f y) eqn:E.
  - intros H. inversion H; subst. split; [exact E | left; reflexivity].
  - intros H. destruct (IH H) as [Hf Hi]. split; [exact Hf | right; exact Hi].
Qed.

Lemma find_None {A : Type} (f : A -> bool) (l : list A) :
  find f l = None <-> forall x, In x l -> f x = false.
Proof.
  induction l as [|y l IH]; simpl.
  - split; [intros _ x [] | reflexivity].
  - destruct (f y) eqn:E; split.
    + discriminate.
    + intros H. specialize (H y (or_introl eq_refl)). congruence.
    + intros H x [<-|Hx]; [exact E | apply IH; assumption].
    + intros H. apply IH. intros x Hx. apply H. right. exact Hx.
Qed.

Example trim_samples :
  trim "  Stephen Curry  " = "Stephen Curry" /\
  trim "" = "" /\
  trim (String (ascii_of_nat 9) (String (ascii_of_nat 160) " ")) = "" /\
  trim "a  b" = "a  b".
Proof. repeat split. Qed.

Example toLowerCase_samples :
  toLowerCase "EaStErN Conference" = "eastern conference" /\
  includes "western conference" "west" = true /\
  includes "western conference" "east" = false /\
  includes "" "east" = false.
Proof. repeat split. Qed.

End JsFacts.

(** ** Standings *)

Module StandingsFacts.
Import Js Remote Standings JsFacts.

(** In a sorted list a row stands in the order before every row under
    it. *)
Lemma sorted_apart {A : Type} (R : A -> A -> Prop) (l1 l2 l3 : list A) (x y : A) :
  StronglySorted R (l1 ++ x :: l2 ++ y :: l3) -> R x y.
Proof.
  induction l1 as [|z l1 IH]; simpl; intros H; inversion H; subst.
  - match goal with F : Forall _ _ |- _ => rewrite Forall_forall in F; apply F end.
    apply in_or_app. right. left. reflexivity.
  - apply IH. assumption.
Qed.

Lemma eastern_lower (t : Team) :
  easternLabel t -> lowerConference t = "eastern conference".
Proof. intros [l [Hc Hl]]. unfold lowerConference. rewrite Hc. exact Hl. Qed.

Lemma western_lower (t : Team) :
  westernLabel t -> lowerConference t = "western conference".
Proof. intros [l [Hc Hl]]. unfold lowerConference. rewrite Hc. exact Hl. Qed.

Lemma labelled_lower (t : Team) :
  conferenceLabelled t ->
  lowerConference t = "eastern conference" \/ lowerConference t = "western conference".
Proof.
  intros [H|H]; [left; apply eastern_lower | right; apply western_lower]; exact H.
Qed.

Lemma labelled_one_side (t : Team) :
  conferenceLabelled t ->
  includes (lowerConference t) "west" = negb (includes (lowerConference t) "east").
Proof. intros H. destruct (labelled_lower t H) as [E|E]; rewrite E; reflexivity. Qed.

Section Collation.
Variable localeCompare : string -> string -> Z.
Hypothesis east_first :
  (localeCompare "eastern conference" "western conference" < 0)%Z.
Hypothesis west_last :
  (0 < localeCompare "western conference" "eastern conference")%Z.

(** The keys of the comparator are the fields as [rankThenPct] reads
    them. *)
Lemma rankThenPct_keys (a b : Team) :
  rankThenPct a b
  <-> (rankKey a < rankKey b)%Q \/ (rankKey a == rankKey b /\ pctKey b <= pctKey a)%Q.
Proof.
  unfold rankThenPct, rankKey, pctKey, nullish.
  destruct (playoff_rank a), (playoff_rank b), (win_pct a), (win_pct b); reflexivity.
Qed.

Lemma compare_same_conference (a b : Team) :
  lowerConference a = lowerConference b ->
  (before (compareTeams localeCompare) a b <-> rankThenPct a b).
Proof.
  intros E. rewrite rankThenPct_keys. unfold before, compareTeams.
  rewrite E, String.eqb_refl. simpl.
  destruct (Qeq_bool (rankKey a) (rankKey b)) eqn:R; simpl.
  - apply Qeq_bool_iff in R. split.
    + intros H. right. split; [exact R | lra].
    + intros [H|[_ H]]; lra.
  - apply Qeq_bool_neq in R. split.
    + intros H. left. lra.
    + intros [H|[H _]]; [lra | contradiction].
Qed.

Lemma compare_east_west (a b : Team) :
  lowerConference a = "eastern conference" ->
  lowerConference b = "western conference" ->
  before (compareTeams localeCompare) a b.
Proof.
  intros Ea Eb. unfold before, compareTeams. rewrite Ea, Eb. simpl.
  change 0%Q with (inject_Z 0). rewrite <- Zle_Qle. lia.
Qed.

Lemma compare_west_east (a b : Team) :
  lowerConference a = "western conference" ->
  lowerConference b = "eastern conference" ->
  ~ before (compareTeams localeCompare) a b.
Proof.
  intros Ea Eb. unfold before, compareTeams. rewrite Ea, Eb. simpl.
  change 0%Q with (inject_Z 0). rewrite <- Zle_Qle. lia.
Qed.

Lemma rankThenPct_total (a b : Team) : ~ rankThenPct a b -> rankThenPct b a.
Proof.
  rewrite !rankThenPct_keys. intros H.
  destruct (Qlt_le_dec (rankKey b) (rankKey a)) as [L|L]; [left; exact L|].
  destruct (Qlt_le_dec (rankKey a) (rankKey b)) as [L'|L'].
  - exfalso. apply H. left. exact L'.
  - right. split; [lra|].
    destruct (Qlt_le_dec (pctKey b) (pctKey a)) as [W|W]; [|exact W].
    exfalso. apply H. right. split; lra.
Qed.

Lemma rankThenPct_trans (a b c : Team) :
  rankThenPct a b -> rankThenPct b c -> rankThenPct a c.
Proof.
  rewrite !rankThenPct_keys. intros [H1|[H1 H1']] [H2|[H2 H2']].
  - left; lra.
  - left; lra.
  - left; lra.
  - right; split; lra.
Qed.

Lemma compare_total (a b : Team) :
  conferenceLabelled a -> conferenceLabelled b ->
  ~ before (compareTeams localeCompare) a b -> before (compareTeams localeCompare) b a.
Proof.
  intros Ha Hb H.
  destruct (labelled_lower a Ha) as [Ea|Ea], (labelled_lower b Hb) as [Eb|Eb].
  - apply compare_same_conference; [congruence|].
    apply rankThenPct_total. intro Hc. apply H.
    apply compare_same_conference; [congruence | exact Hc].
  - exfalso. apply H. apply compare_east_west; assumption.
  - apply compare_east_west; assumption.
  - apply compare_same_conference; [congruence|].
    apply rankThenPct_total. intro Hc. apply H.
    apply compare_same_conference; [congruence | exact Hc].
Qed.

Lemma compare_trans (a b c : Team) :
  conferenceLabelled a -> conferenceLabelled b -> conferenceLabelled c ->
  before (compareTeams localeCompare) a b ->
  before (compareTeams localeCompare) b c ->
  before (compareTeams localeCompare) a c.
Proof.
  intros Ha Hb Hc Hab Hbc.
  destruct (labelled_lower a Ha) as [Ea|Ea], (labelled_lower b Hb) as [Eb|Eb],
    (labelled_lower c Hc) as [Ec|Ec];
    try (apply compare_east_west; assumption);
    try (exfalso; apply (compare_west_east a b); assumption);
    try (exfalso; apply (compare_west_east b c); assumption).
  - apply compare_same_conference; [congruence|].
    apply compare_same_conference in Hab; [|congruence].
    apply compare_same_conference in Hbc; [|congruence].
    eapply rankThenPct_trans; eassumption.
  - apply compare_same_conference; [congruence|].
    apply compare_same_conference in Hab; [|congruence].
    apply compare_same_conference in Hbc; [|congruence].
    eapply rankThenPct_trans; eassumption.
Qed.

Lemma sortStandings_sorted (ts : list Team) :
  Forall conferenceLabelled ts ->
  StronglySorted (before (compareTeams localeCompare)) (sortStandings localeCompare ts).
Proof.
  intros H. unfold sortStandings.
  apply (sort_sorted (compareTeams localeCompare) conferenceLabelled).
  - apply compare_total.
  - apply compare_trans.
  - exact H.
Qed.

Lemma east_side (t : Team) :
  conferenceLabelled t -> includes (lowerConference t) "east" = true ->
  lowerConference t = "eastern conference".
Proof.
  intros L I. destruct (labelled_lower t L) as [E|E]; [exact E|].
  rewrite E in I. discriminate I.
Qed.

Lemma west_side (t : Team) :
  conferenceLabelled t -> includes (lowerConference t) "west" = true ->
  lowerConference t = "western conference".
Proof.
  intros L I. destruct (labelled_lower t L) as [E|E]; [|exact E].
  rewrite E in I. discriminate I.
Qed.

Lemma side_sorted (f : Team -> bool) (label : string) (ts : list Team) :
  (forall t, conferenceLabelled t -> f t = true -> lowerConference t = label) ->
  Forall conferenceLabelled ts ->
  StronglySorted rankThenPct (filter f (sortStandings localeCompare ts)).
Proof.
  intros Hf H.
  assert (Hs : Forall conferenceLabelled (sortStandings localeCompare ts)).
  { apply (Permutation_Forall (Permutation_sym (sort_perm _ ts))). exact H. }
  pose proof (sortStandings_sorted ts H) as Sorted.
  apply (filter_sorted _ f) in Sorted.
  eapply (sorted_weaken _ _ (fun t => lowerConference t = label)); [| |exact Sorted].
  - intros a b Ea Eb Hab.
    apply compare_same_conference; [congruence | exact Hab].
  - rewrite Forall_forall in *. intros t Ht. apply filter_In in Ht.
    destruct Ht as [Ht Hi]. apply Hf; [apply Hs, Ht | exact Hi].
Qed.

(** Between two ranked rows [rankThenPct] is the order of the ranks, and
    among equal ranks the reverse order of the percentages. *)
Lemma rankThenPct_ranked (a b : Team) (ra rb : Q) :
  rankThenPct a b -> playoff_rank a = Some ra -> playoff_rank b = Some rb ->
  (ra <= rb)%Q /\
  (forall wa wb, ra == rb -> win_pct a = Some wa -> win_pct b = Some wb ->
                 (wb <= wa)%Q).
Proof.
  unfold rankThenPct. cbv beta zeta. intros H A B. rewrite A, B in H. split.
  - destruct H as [H|[H _]]; lra.
  - intros wa wb E Wa Wb. rewrite Wa, Wb in H. destruct H as [H|[_ H]]; [lra | exact H].
Qed.

(** C9: when every conference label reads "Eastern Conference" or
    "Western Conference" up to letter case, the two lists derived from the
    committed standings hold every team exactly once between them, and
    each list is in ascending playoff rank, win percentage descending
    among equal ranks: of two ranked teams of a list the upper one has
    the lower or the same [playoff_rank], and with the same rank the
    higher or the same [win_pct]. *)
Theorem standings_partition_sorted (ts : list Team) (s : StandingsState) :
  Forall conferenceLabelled ts ->
  let shown :=
    teams (fetchFromDbSettled localeCompare
             (Response true (JsonValue {| resp_teams := Some ts |})) s) in
  Permutation (east shown ++ west shown) ts /\
  (forall t, In t (east shown) -> ~ In t (west shown)) /\
  StronglySorted rankThenPct (east shown) /\
  StronglySorted rankThenPct (west shown) /\
  (forall side l1 upper l2 lower l3 ra rb,
     side = east shown \/ side = west shown ->
     side = l1 ++ upper :: l2 ++ lower :: l3 ->
     playoff_rank upper = Some ra -> playoff_rank lower = Some rb ->
     (ra <= rb)%Q /\
     (forall wa wb, ra == rb -> win_pct upper = Some wa -> win_pct lower = Some wb ->
                    (wb <= wa)%Q)).
Proof.
  intros H. cbn [fetchFromDbSettled fetched json prop andThen catch snd teams nullish resp_teams].
  assert (Hs : Forall conferenceLabelled (sortStandings localeCompare ts)).
  { apply (Permutation_Forall (Permutation_sym (sort_perm _ ts))). exact H. }
  assert (SE : StronglySorted rankThenPct (east (sortStandings localeCompare ts)))
    by (apply (side_sorted _ "eastern conference"); [exact east_side | exact H]).
  assert (SW : StronglySorted rankThenPct (west (sortStandings localeCompare ts)))
    by (apply (side_sorted _ "western conference"); [exact west_side | exact H]).
  split; [|split; [|split; [exact SE | split; [exact SW|]]]].
  - eapply perm_trans; [|apply (sort_perm (compareTeams localeCompare))].
    apply filter_split. rewrite Forall_forall in *. intros t Ht.
    apply labelled_one_side, Hs, Ht.
  - intros t He Hw. unfold east, west in *.
    apply filter_In in He. apply filter_In in Hw.
    destruct He as [Ht He], Hw as [_ Hw].
    rewrite Forall_forall in Hs.
    rewrite (labelled_one_side t (Hs t Ht)), He in Hw. discriminate Hw.
  - intros side l1 upper l2 lower l3 ra rb Side E A B.
    apply (rankThenPct_ranked upper lower ra rb); [|exact A | exact B].
    apply (sorted_apart rankThenPct l1 l2 l3). rewrite <- E.
    destruct Side as [->| ->]; assumption.
Qed.

End Collation.

Lemma standings_partition_sorted_witness :
  (codeUnitCompare "eastern conference" "western conference" < 0)%Z /\
  (0 < codeUnitCompare "western conference" "eastern conference")%Z /\
  Forall conferenceLabelled sampleTeams /\
  let shown :=
    teams (fetchFromDbSettled codeUnitCompare
             (Response true (JsonValue {| resp_teams := Some sampleTeams |})) unfetched) in
  map (fun t => (team_name t, playoff_rank t, win_pct t)) (east shown)
  = [ (Some "Cavaliers", Some 1%Q, Some (75#100)%Q);
      (Some "Celtics", Some 1%Q, Some (7#10)%Q);
      (Some "Knicks", Some 2%Q, Some (6#10)%Q) ] /\
  map (fun t => (team_name t, playoff_rank t, win_pct t)) (west shown)
  = [ (Some "Thunder", Some 1%Q, Some (8#10)%Q);
      (Some "Nuggets", Some 2%Q, Some (6#10)%Q) ] /\
  Permutation (east shown ++ west shown) sampleTeams /\
  (forall t, In t (east shown) -> ~ In t (west shown)) /\
  StronglySorted rankThenPct (east shown) /\
  StronglySorted rankThenPct (west shown) /\
  (forall side l1 upper l2 lower l3 ra rb,
     side = east shown \/ side = west shown ->
     side = l1 ++ upper :: l2 ++ lower :: l3 ->
     playoff_rank upper = Some ra -> playoff_rank lower = Some rb ->
     (ra <= rb)%Q /\
     (forall wa wb, ra == rb -> win_pct upper = Some wa -> win_pct lower = Some wb ->
                    (wb <= wa)%Q)).
Proof.
  assert (E : (codeUnitCompare "eastern conference" "western conference" < 0)%Z)
    by reflexivity.
  assert (W : (0 < codeUnitCompare "western conference" "eastern conference")%Z)
    by reflexivity.
  assert (L : Forall conferenceLabelled sampleTeams).
  { unfold sampleTeams.
    repeat (apply Forall_cons;
            [ first [ left; eexists; split; reflexivity
                    | right; eexists; split; reflexivity ] | ]).
    apply Forall_nil. }
  split; [exact E|]. split; [exact W|]. split; [exact L|].
  split; [reflexivity|]. split; [reflexivity|].
  exact (standings_partition_sorted codeUnitCompare E W sampleTeams unfetched L).
Defined.

(** The sample, computed: East by rank, the better record first among
    the two teams ranked 1. *)
Example standings_sample_east :
  map team_name (east (sortStandings codeUnitCompare sampleTeams))
  = [Some "Cavaliers"; Some "Celtics"; Some "Knicks"].
Proof. reflexivity. Qed.

Example standings_sample_west :
  map team_name (west (sortStandings codeUnitCompare sampleTeams))
  = [Some "Thunder"; Some "Nuggets"].
Proof. reflexivity. Qed.

End StandingsFacts.

(** ** The controller *)

Module AppFacts.
Import Js Remote App JsFacts.


Lemma AppTab_eqb_refl (a : AppTab) : AppTab_eqb a a = true.
Proof. destruct a; reflexivity. Qed.

Lemma AppTab_eqb_neq (a b : AppTab) : AppTab_eqb a b = false <-> a <> b.
Proof. destruct a, b; simpl; split; congruence. Qed.

Lemma LeaderTab_eqb_eq (a b : LeaderTab) : LeaderTab_eqb a b = true <-> a = b.
Proof. destruct a, b; simpl; split; congruence. Qed.

Lemma LeaderTab_eqb_refl (a : LeaderTab) : LeaderTab_eqb a a = true.
Proof. destruct a; reflexivity. Qed.

Lemma LeaderTab_eqb_neq (a b : LeaderTab) : LeaderTab_eqb a b = false <-> a <> b.
Proof. destruct a, b; simpl; split; congruence. Qed.

Lemma applyActions_app (l1 l2 : list Action) (s : State) :
  applyActions (l1 ++ l2) s = applyActions l2 (applyActions l1 s).
Proof. unfold applyActions. apply fold_left_app. Qed.

(** *** Renders *)

Lemma effects_sameDeps (prev cur : State) :
  sameDeps prev cur -> effects prev cur = [].
Proof.
  intros (E1 & E2 & E3 & E4). unfold effects.
  rewrite E1, E2, E3, E4.
  rewrite LeaderTab_eqb_refl, AppTab_eqb_refl, Z.eqb_refl, String.eqb_refl.
  reflexivity.
Qed.

Lemma sameDeps_refl (s : State) : sameDeps s s.
Proof. repeat split. Qed.

Lemma commit_sameDeps (prev cur : State) :
  sameDeps prev cur -> commit prev cur = cur.
Proof.
  intros H. unfold commit. simpl.
  rewrite (effects_sameDeps _ _ H). simpl.
  rewrite (effects_sameDeps _ _ (sameDeps_refl cur)). reflexivity.
Qed.

(** A piece of code that changes no dependency is followed by one render
    without effects. *)
Lemma dispatch_sameDeps (code : State -> list Action) (s : State) :
  sameDeps s (applyActions (code s) s) ->
  dispatch code s = applyActions (code s) s.
Proof. apply commit_sameDeps. Qed.

Lemma leadersOnly_refl (s : State) : leadersOnly s s.
Proof.
  repeat split. exists []. rewrite app_nil_r. split; reflexivity.
Qed.

Lemma leadersOnly_trans (s1 s2 s3 : State) :
  leadersOnly s1 s2 -> leadersOnly s2 s3 -> leadersOnly s1 s3.
Proof.
  unfold leadersOnly.
  intros (A1 & A2 & A3 & A4 & A5 & A6 & A7 & A8 & A9 & A10 & A11 & A12 & x & Ax & Fx)
         (B1 & B2 & B3 & B4 & B5 & B6 & B7 & B8 & B9 & B10 & B11 & B12 & y & By & Fy).
  repeat split; try congruence.
  exists (x ++ y). split.
  - rewrite By, Ax, app_assoc. reflexivity.
  - rewrite forallb_app, Fx, Fy. reflexivity.
Qed.

Lemma effectAction_leadersOnly (a : Action) (s : State) :
  isEffectAction a = true -> leadersOnly s (applyAction a s).
Proof.
  destruct a; try discriminate; intros H; simpl.
  1-4, 6: repeat split; exists []; rewrite app_nil_r; split; reflexivity.
  - destruct r; try discriminate.
    repeat split. eexists. split; reflexivity.
  - destruct (debounceTimer s); simpl;
      repeat split; exists []; rewrite app_nil_r; split; reflexivity.
Qed.

Lemma effectActions_leadersOnly (acts : list Action) (s : State) :
  forallb isEffectAction acts = true -> leadersOnly s (applyActions acts s).
Proof.
  revert s. induction acts as [|a acts IH]; simpl; intros s H.
  - apply leadersOnly_refl.
  - apply andb_prop in H. destruct H as [Ha Hs].
    eapply leadersOnly_trans; [apply effectAction_leadersOnly, Ha|].
    apply IH, Hs.
Qed.

Lemma fetchLeaders_vocabulary (s : State) :
  forallb isEffectAction (fetchLeaders s) = true.
Proof. unfold fetchLeaders. destruct (IMPLEMENTED_ROUTES (leaderTab s)); reflexivity. Qed.

Lemma effects_vocabulary (prev cur : State) :
  forallb isEffectAction (effects prev cur) = true.
Proof.
  unfold effects.
  repeat rewrite forallb_app.
  repeat match goal with
         | |- context [if ?b then _ else _] => destruct b; simpl
         end;
    rewrite ?fetchLeaders_vocabulary; reflexivity.
Qed.

Lemma flush_leadersOnly (passes : nat) (prev cur : State) :
  leadersOnly cur (flush passes prev cur).
Proof.
  revert prev cur. induction passes as [|k IH]; simpl; intros prev cur.
  - apply leadersOnly_refl.
  - eapply leadersOnly_trans; [|apply IH].
    apply effectActions_leadersOnly, effects_vocabulary.
Qed.

Lemma commit_leadersOnly (prev cur : State) : leadersOnly cur (commit prev cur).
Proof. apply flush_leadersOnly. Qed.

Lemma commit_tab (prev cur : State) : tab (commit prev cur) = tab cur.
Proof. apply (commit_leadersOnly prev cur). Qed.

Lemma commit_isTabTransitioning (prev cur : State) : isTabTransitioning (commit prev cur) = isTabTransitioning cur.
Proof. apply (commit_leadersOnly prev cur). Qed.

Lemma commit_pendingTabRef (prev cur : State) : pendingTabRef (commit prev cur) = pendingTabRef cur.
Proof. apply (commit_leadersOnly prev cur). Qed.

Lemma commit_leaderTab (prev cur : State) : leaderTab (commit prev cur) = leaderTab cur.
Proof. apply (commit_leadersOnly prev cur). Qed.

Lemma commit_playerQuery (prev cur : State) : playerQuery (commit prev cur) = playerQuery cur.
Proof. apply (commit_leadersOnly prev cur). Qed.

Lemma commit_playerSearchStatus (prev cur : State) : playerSearchStatus (commit prev cur) = playerSearchStatus cur.
Proof. apply (commit_leadersOnly prev cur). Qed.

Lemma commit_playerResults (prev cur : State) : playerResults (commit prev cur) = playerResults cur.
Proof. apply (commit_leadersOnly prev cur). Qed.

Lemma commit_selectedPlayer (prev cur : State) : selectedPlayer (commit prev cur) = selectedPlayer cur.
Proof. apply (commit_leadersOnly prev cur). Qed.

Lemma commit_playerStatsStatus (prev cur : State) : playerStatsStatus (commit prev cur) = playerStatsStatus cur.
Proof. apply (commit_leadersOnly prev cur). Qed.

Lemma commit_playerStats (prev cur : State) : playerStats (commit prev cur) = playerStats cur.
Proof. apply (commit_leadersOnly prev cur). Qed.

Lemma commit_showAllGames (prev cur : State) : showAllGames (commit prev cur) = showAllGames cur.
Proof. apply (commit_leadersOnly prev cur). Qed.

Lemma commit_now (prev cur : State) : now (commit prev cur) = now cur.
Proof. apply (commit_leadersOnly prev cur). Qed.

Lemma commit_inflight (prev cur : State) :
  exists extra,
    inflight (commit prev cur) = inflight cur ++ extra /\
    forallb isLeadersRequest extra = true.
Proof. apply (commit_leadersOnly prev cur). Qed.

Create Rewrite HintDb commit_frame.
#[local] Hint Rewrite commit_tab commit_isTabTransitioning commit_pendingTabRef
  commit_leaderTab commit_playerQuery commit_playerSearchStatus
  commit_playerResults commit_selectedPlayer commit_playerStatsStatus
  commit_playerStats commit_showAllGames commit_now : commit_frame.

Lemma fetchLeaders_keeps_deps (s0 s : State) :
  sameDeps s (applyActions (fetchLeaders s0) s).
Proof.
  unfold fetchLeaders. destruct (IMPLEMENTED_ROUTES (leaderTab s0)); repeat split.
Qed.

(** After the two passes of [commit] the next render has no effect to
    run. *)
Lemma flush_settles (prev cur : State) :
  sameDeps (flush 1 prev cur) (flush 2 prev cur).
Proof.
  simpl. set (s1 := applyActions (effects prev cur) cur).
  assert (L : leadersOnly cur s1)
    by apply effectActions_leadersOnly, effects_vocabulary.
  destruct L as (E1 & _ & _ & E4 & E5 & _).
  unfold effects at 1.
  rewrite E1, E4, E5.
  rewrite LeaderTab_eqb_refl, AppTab_eqb_refl, String.eqb_refl. simpl.
  destruct (negb (leadersLimit cur =? leadersLimit s1)); simpl;
    [|apply sameDeps_refl].
  rewrite app_nil_r.
  destruct (AppTab_eqb (tab cur) TabLeaders); [|apply sameDeps_refl].
  apply fetchLeaders_keeps_deps.
Qed.

Lemma step_replied (k : nat) (r : Reply) (req : Request) (acts : list Action)
  (s : State) :
  nth_error (inflight s) k = Some req ->
  settled req r = Some acts ->
  step (Replied k r) s
  = dispatch (fun _ => acts) (with_inflight (removeNth k (inflight s)) s).
Proof. intros H1 H2. simpl. rewrite H1, H2. reflexivity. Qed.

Lemma step_leaders_reply (k : nat) (url : LeadersEndpoint) (limit : Z)
  (r : FetchResult LeadersResponse) (s : State) :
  nth_error (inflight s) k = Some (ReqLeaders url limit) ->
  step (Replied k (LeadersReply r)) s
  = dispatch (fun _ => leadersSettled limit r)
      (with_inflight (removeNth k (inflight s)) s).
Proof. intros H. apply (step_replied k _ _ _ s H). reflexivity. Qed.

Lemma step_search_reply (k : nat) (q : string)
  (r : FetchResult PlayerSearchResponse) (s : State) :
  nth_error (inflight s) k = Some (ReqSearch q) ->
  step (Replied k (SearchReply r)) s
  = dispatch (fun _ => searchSettled r)
      (with_inflight (removeNth k (inflight s)) s).
Proof. intros H. apply (step_replied k _ _ _ s H). reflexivity. Qed.

Lemma step_jump_reply (k : nat) (playerId : Z) (name : string)
  (r : FetchResult PlayerSearchResponse) (s : State) :
  nth_error (inflight s) k = Some (ReqJumpSearch playerId name) ->
  step (Replied k (SearchReply r)) s
  = dispatch (fun _ => jumpSettled playerId r)
      (with_inflight (removeNth k (inflight s)) s).
Proof. intros H. apply (step_replied k _ _ _ s H). reflexivity. Qed.

Lemma step_lastN_reply (k : nat) (id window : Z)
  (r : FetchResult PlayerLastNResponse) (s : State) :
  nth_error (inflight s) k = Some (ReqLastN id window) ->
  step (Replied k (LastNReply r)) s
  = dispatch (fun _ => lastNSettled r)
      (with_inflight (removeNth k (inflight s)) s).
Proof. intros H. apply (step_replied k _ _ _ s H). reflexivity. Qed.

(** *** Frames *)

(** A view of the state that a class of actions leaves alone is left alone
    by every render, and by every piece of code made of such actions. *)
Section Frame.
Context {V : Type} (view : State -> V) (keeps : Action -> bool).
Hypothesis keeps_sound :
  forall a s, keeps a = true -> view (applyAction a s) = view s.
Hypothesis keeps_effects :
  forall a, isEffectAction a = true -> keeps a = true.
Hypothesis view_now : forall v s, view (with_now v s) = view s.
Hypothesis view_timers : forall v s, view (with_timers v s) = view s.

Lemma frame_actions (acts : list Action) (s : State) :
  forallb keeps acts = true -> view (applyActions acts s) = view s.
Proof.
  revert s. induction acts as [|a acts IH]; simpl; intros s H; [reflexivity|].
  apply andb_prop in H. destruct H as [Ha Hs].
  rewrite (IH _ Hs). apply keeps_sound, Ha.
Qed.

Lemma frame_effects (prev cur : State) :
  forallb keeps (effects prev cur) = true.
Proof.
  pose proof (effects_vocabulary prev cur) as H.
  rewrite forallb_forall in *. intros a Ha. apply keeps_effects, H, Ha.
Qed.

Lemma frame_flush (passes : nat) (prev cur : State) :
  view (flush passes prev cur) = view cur.
Proof.
  revert prev cur. induction passes as [|k IH]; simpl; intros prev cur; [reflexivity|].
  rewrite IH. apply frame_actions, frame_effects.
Qed.

Lemma frame_commit (prev cur : State) : view (commit prev cur) = view cur.
Proof. apply frame_flush. Qed.

Lemma frame_dispatch_view (code : State -> list Action) (s : State) :
  view (dispatch code s) = view (applyActions (code s) s).
Proof. apply frame_commit. Qed.

Lemma frame_dispatch (code : State -> list Action) (s : State) :
  forallb keeps (code s) = true -> view (dispatch code s) = view s.
Proof. intros H. rewrite frame_dispatch_view. apply frame_actions, H. Qed.

Hypothesis keeps_timers :
  forall cb s, forallb keeps (timerFired cb s) = true.

Lemma frame_runTimers (fuel : nat) (deadline : Z) (s : State) :
  view (runTimers fuel deadline s) = view s.
Proof.
  revert s. induction fuel as [|fuel IH]; simpl; intros s; [reflexivity|].
  destruct (nextDue (timers s)) as [t|]; [|reflexivity].
  destruct (due t <=? deadline); [|reflexivity].
  rewrite IH, frame_dispatch by apply keeps_timers.
  unfold clearTimeout. rewrite view_now, view_timers. reflexivity.
Qed.

Lemma frame_elapse (ms : Z) (s : State) : view (elapse ms s) = view s.
Proof. unfold elapse. rewrite view_now. apply frame_runTimers. Qed.

End Frame.

(** *** Leaderboard *)


Lemma leadersSettled_failed (limit : Z) (r : FetchResult LeadersResponse) :
  failed r = true -> leadersSettled limit r = [ SetLeadersStatus Error ].
Proof.
  destruct r as [|ok body]; [reflexivity|].
  destruct ok; [|reflexivity].
  destruct body; simpl; [reflexivity | discriminate | discriminate].
Qed.

(** A request of [fetchLeaders] asks for the limit its continuation
    closes over, the limit of the render that issued it. *)
Lemma fetchLeaders_request (s : State) (url : LeadersEndpoint) (limit : Z) :
  In (Fetch (ReqLeaders url limit)) (fetchLeaders s) ->
  ep_limit url = limit /\ limit = leadersLimit s /\ ep_path url = leaderTab s.
Proof.
  unfold fetchLeaders. destruct (IMPLEMENTED_ROUTES (leaderTab s)); simpl.
  - intros [H|[H|[]]]; [discriminate|]. inversion H; subst.
    unfold leadersEndpoint. destruct (leaderTab s); repeat split.
  - intros [H|[H|[H|[]]]]; discriminate.
Qed.



(** The leaderboard scenario: PPG at limit 10 answered with 10 rows, "Load
    more" enabled; at limit 20 answered with 7 rows, "Load more" disabled
    and without effect. *)
Example load_more_scenario :
  let s1 := run [ LeaderTabClicked CatPts; Replied 0 (leadersOk (sampleRows 10)) ]
              leadersShown in
  let s2 := run [ LoadMoreClicked ] s1 in
  let s3 := run [ Replied 0 (leadersOk (sampleRows 7)) ] s2 in
  let s4 := run [ LoadMoreClicked ] s3 in
  (leadersLimit s1, List.length (leaders s1), canLoadMore s1, leadersStatus s1)
  = (10, 10%nat, true, Ok) /\
  (leadersLimit s2, leadersStatus s2, map isLeadersRequest (inflight s2))
  = (20, Loading, [true]) /\
  (leadersLimit s3, List.length (leaders s3), canLoadMore s3, leadersStatus s3)
  = (20, 7%nat, false, Ok) /\
  s4 = s3.
Proof. vm_compute. repeat split. Qed.

(** C5: a failed leaders fetch sets the status to Error and leaves the
    committed list, the limit and "more available" as they were. *)
Theorem leaders_failure_keeps_results (s : State) (k : nat) (url : LeadersEndpoint)
  (limit : Z) (r : FetchResult LeadersResponse) :
  nth_error (inflight s) k = Some (ReqLeaders url limit) ->
  failed r = true ->
  let s' := step (Replied k (LeadersReply r)) s in
  leadersStatus s' = Error /\
  leaders s' = leaders s /\
  leadersLimit s' = leadersLimit s /\
  canLoadMore s' = canLoadMore s.
Proof.
  intros H F s'.
  assert (E : s' = applyActions (leadersSettled limit r)
                     (with_inflight (removeNth k (inflight s)) s)).
  { unfold s'. rewrite (step_leaders_reply k url limit _ s H).
    apply dispatch_sameDeps. rewrite (leadersSettled_failed _ _ F). repeat split. }
  rewrite E, (leadersSettled_failed _ _ F). repeat split.
Qed.

Lemma leaders_failure_keeps_results_witness :
  nth_error (inflight mounted) 0 =
    Some (ReqLeaders (leadersEndpoint initial) 10) /\
  failed (Response false (@BadJson LeadersResponse)) = true /\
  let s' := step (Replied 0 (LeadersReply (Response false BadJson))) mounted in
  leadersStatus s' = Error /\
  leaders s' = leaders mounted /\
  leadersLimit s' = leadersLimit mounted /\
  canLoadMore s' = canLoadMore mounted.
Proof.
  split; [reflexivity|]. split; [reflexivity|].
  exact (leaders_failure_keeps_results mounted 0 (leadersEndpoint initial) 10
           (Response false BadJson) eq_refl eq_refl).
Defined.

(** *** Failures of the other remote calls *)

Lemma searchSettled_rejected (r : FetchResult PlayerSearchResponse) :
  r = NetworkError \/ (exists ok, r = Response ok BadJson) ->
  searchSettled r = [ SetPlayerSearchStatus Error ].
Proof. intros [->|[ok ->]]; reflexivity. Qed.

Lemma jumpSettled_rejected (playerId : Z) (r : FetchResult PlayerSearchResponse) :
  r = NetworkError \/ (exists ok, r = Response ok BadJson) ->
  jumpSettled playerId r = [ SetPlayerSearchStatus Error ].
Proof. intros [->|[ok ->]]; reflexivity. Qed.

Lemma lastNSettled_rejected (r : FetchResult PlayerLastNResponse) :
  r = NetworkError \/ (exists ok, r = Response ok BadJson) ->
  lastNSettled r = [ SetPlayerStatsStatus Error ].
Proof. intros [->|[ok ->]]; reflexivity. Qed.

Lemma standings_rejected (lc : string -> string -> Z)
  (r : FetchResult Standings.StandingsResponse) (s : Standings.StandingsState) :
  r = NetworkError \/ (exists ok, r = Response ok BadJson) ->
  Standings.fetchFromDbSettled lc r s
  = {| Standings.status := Error; Standings.teams := Standings.teams s |}.
Proof. intros [->|[ok ->]]; reflexivity. Qed.

(** The search in flight of [searchingCur]. *)
Example searchingCur_inflight :
  nth_error (inflight searchingCur) 1 = Some (ReqSearch "cur") /\
  playerSearchStatus searchingCur = Loading.
Proof. split; reflexivity. Qed.

(** C2, where the code departs from it: of the remote calls only the
    leaders fetch looks at the status of the response.  A reply with a
    status outside 2xx whose body parses is committed with status Ok by
    the search, the deep-link search, the game-log fetch and the standings
    fetch; here the search on the Player page, answered by an error page. *)
Theorem non_2xx_reply_committed_as_ok :
  (forall limit body, leadersSettled limit (Response false body) = [ SetLeadersStatus Error ]) /\
  (forall data,
     searchSettled (Response false (JsonValue data))
     = [ SetPlayerResults (nullish (resp_players data) []); SetPlayerSearchStatus Ok ]) /\
  (forall data,
     lastNSettled (Response false (JsonValue data))
     = [ SetPlayerStats (Some data); SetPlayerStatsStatus Ok ]) /\
  (forall playerId data,
     In (SetPlayerSearchStatus Ok) (jumpSettled playerId (Response false (JsonValue data)))) /\
  (forall lc data s,
     Standings.status (Standings.fetchFromDbSettled lc (Response false (JsonValue data)) s)
     = Ok) /\
  failed (Response false (JsonValue errorPage)) = true /\
  playerSearchStatus
    (step (Replied 1 (SearchReply (Response false (JsonValue errorPage)))) searchingCur)
  = Ok.
Proof.
  repeat split.
  intros playerId data. unfold jumpSettled. simpl.
  apply in_or_app. right. left. reflexivity.
Qed.

(** *** Deep link from a leaderboard row *)

Lemma jumpSettled_match (playerId : Z) (ok : bool) (data : PlayerSearchResponse)
  (p : PlayerHit) :
  find (fun p => nba_player_id p =? playerId) (nullish (resp_players data) []) = Some p ->
  jumpSettled playerId (Response ok (JsonValue data))
  = [ SetSelectedPlayer (Some p); SetPlayerQuery ""; SetPlayerResults [];
      SetPlayerStatsStatus Loading; Fetch (ReqLastN playerId DEFAULT_LAST_N);
      SetPlayerSearchStatus Ok ]
  /\ nba_player_id p = playerId.
Proof.
  intros H. pose proof (find_Some _ _ _ H) as [E _]. apply Z.eqb_eq in E.
  unfold jumpSettled. simpl. rewrite H. simpl. rewrite E. split; reflexivity.
Qed.

Lemma jumpSettled_no_match (playerId : Z) (ok : bool) (data : PlayerSearchResponse) :
  find (fun p => nba_player_id p =? playerId) (nullish (resp_players data) []) = None ->
  jumpSettled playerId (Response ok (JsonValue data)) = [ SetPlayerSearchStatus Ok ].
Proof. intros H. unfold jumpSettled. simpl. rewrite H. reflexivity. Qed.

(** The three outcomes of the deep-link search. *)
Lemma jumpSettled_cases (playerId : Z) (r : FetchResult PlayerSearchResponse) :
  (exists p,
     nba_player_id p = playerId /\
     jumpSettled playerId r
     = [ SetSelectedPlayer (Some p); SetPlayerQuery ""; SetPlayerResults [];
         SetPlayerStatsStatus Loading; Fetch (ReqLastN playerId DEFAULT_LAST_N);
         SetPlayerSearchStatus Ok ])
  \/ jumpSettled playerId r = [ SetPlayerSearchStatus Ok ]
  \/ jumpSettled playerId r = [ SetPlayerSearchStatus Error ].
Proof.
  destruct r as [|ok [| |data]]; try (right; right; reflexivity).
  destruct (find (fun p => nba_player_id p =? playerId) (nullish (resp_players data) []))
    as [p|] eqn:F.
  - left. exists p. destruct (jumpSettled_match _ ok _ _ F) as [E I]. split; assumption.
  - right. left. apply jumpSettled_no_match, F.
Qed.

(** Whenever the deep-link search settles: the selection becomes a player
    with the id of the row, whose game log is then requested, or the
    selection, the game log and its status stay as they are. *)
Lemma jump_reply_exact_or_unchanged (s : State) (k : nat) (playerId : Z)
  (name : string) (r : FetchResult PlayerSearchResponse) :
  nth_error (inflight s) k = Some (ReqJumpSearch playerId name) ->
  let s' := step (Replied k (SearchReply r)) s in
  (exists p,
     selectedPlayer s' = Some p /\ nba_player_id p = playerId /\
     In (ReqLastN playerId DEFAULT_LAST_N) (inflight s') /\
     playerSearchStatus s' = Ok)
  \/ (selectedPlayer s' = selectedPlayer s /\
      playerStats s' = playerStats s /\
      playerStatsStatus s' = playerStatsStatus s /\
      inflight s' = removeNth k (inflight s)).
Proof.
  intros H s'. unfold s'. rewrite (step_jump_reply k playerId name r s H).
  destruct (jumpSettled_cases playerId r) as [(p & Hp & E)|[E|E]].
  - left. exists p. unfold dispatch. rewrite E.
    match goal with
    | |- context [commit ?a ?b] => destruct (commit_inflight a b) as (extra & I & _)
    end.
    autorewrite with commit_frame. rewrite I. simpl.
    repeat split; try assumption.
    apply in_or_app. left. apply in_or_app. right. left. reflexivity.
  - right. rewrite dispatch_sameDeps; rewrite E; repeat split.
  - right. rewrite dispatch_sameDeps; rewrite E; repeat split.
Qed.

Lemma Status_eqb_neq (a b : Status) : Status_eqb a b = false <-> a <> b.
Proof. destruct a, b; simpl; split; congruence. Qed.

(** What clicking a leaderboard row does at once. *)
Lemma leader_row_clicked (s : State) (i : nat) (row : Leader) :
  tab s = TabLeaders -> leadersStatus s <> Loading ->
  nth_error (leaders s) i = Some row ->
  let s1 := step (LeaderRowClicked i) s in
  selectedPlayer s1 = None /\
  playerStats s1 = None /\
  playerStatsStatus s1 = playerStatsStatus s /\
  playerSearchStatus s1 = Loading /\
  nth_error (inflight s1) (List.length (inflight s))
  = Some (ReqJumpSearch (player_id row) (player_name row)).
Proof.
  intros T L R s1. unfold s1, step, dispatch.
  assert (E : handle (LeaderRowClicked i) s
              = jumpToPlayerFromLeader (player_id row) (player_name row) s).
  { simpl. rewrite T, R. simpl.
    apply Status_eqb_neq in L. rewrite L. reflexivity. }
  rewrite E. unfold jumpToPlayerFromLeader. rewrite applyActions_app.
  set (s0 := applyActions (requestTabChange TabPlayer s) s).
  assert (F : inflight s0 = inflight s /\ playerStatsStatus s0 = playerStatsStatus s).
  { unfold s0, requestTabChange. rewrite T. simpl.
    destruct (isTabTransitioning s); split; reflexivity. }
  destruct F as [F1 F2].
  autorewrite with commit_frame. simpl. repeat split; try assumption.
  match goal with
  | |- nth_error (inflight (commit ?a ?b)) _ = _ =>
      destruct (commit_inflight a b) as (extra & I & _)
  end.
  rewrite I. simpl. rewrite F1, <- app_assoc.
  rewrite nth_error_app2 by lia. rewrite Nat.sub_diag. reflexivity.
Qed.

(** C3: the deep link from a leaderboard row for player id P scans the
    results of the search it issues for the id P; it commits a selection
    with id P and requests that player's game log, or it commits no
    selection; and when no result has the id P, the search status is Ok, no
    error status appears and no player is selected. *)
Theorem deep_link_exact_or_nothing (s : State) (i : nat) (row : Leader)
  (r : FetchResult PlayerSearchResponse) :
  tab s = TabLeaders -> leadersStatus s <> Loading ->
  nth_error (leaders s) i = Some row ->
  let P := player_id row in
  let s1 := step (LeaderRowClicked i) s in
  let s2 := step (Replied (List.length (inflight s)) (SearchReply r)) s1 in
  ((exists p,
      selectedPlayer s2 = Some p /\ nba_player_id p = P /\
      In (ReqLastN P DEFAULT_LAST_N) (inflight s2))
   \/ (selectedPlayer s2 = None /\ playerStats s2 = None /\
       playerStatsStatus s2 = playerStatsStatus s)) /\
  (forall ok data,
     r = Response ok (JsonValue data) ->
     (forall p, In p (nullish (resp_players data) []) -> nba_player_id p <> P) ->
     selectedPlayer s2 = None /\ playerStats s2 = None /\
     playerSearchStatus s2 = Ok /\
     playerStatsStatus s2 = playerStatsStatus s) /\
  (forall ok data p,
     r = Response ok (JsonValue data) ->
     In p (nullish (resp_players data) []) -> nba_player_id p = P ->
     exists p', selectedPlayer s2 = Some p' /\ nba_player_id p' = P).
Proof.
  intros T L R P s1 s2.
  destruct (leader_row_clicked s i row T L R) as (A1 & A2 & A3 & A4 & A5).
  fold s1 in A1, A2, A3, A4, A5. fold P in A5.
  pose proof (jump_reply_exact_or_unchanged s1 _ P _ r A5) as J.
  fold s2 in J. cbv zeta in J.
  split; [|split].
  - destruct J as [(p & J1 & J2 & J3 & _)|(J1 & J2 & J3 & _)].
    + left. exists p. repeat split; assumption.
    + right. repeat split; congruence.
  - intros ok data -> N.
    assert (F : find (fun p => nba_player_id p =? P) (nullish (resp_players data) []) = None).
    { apply find_None. intros p Hp. apply Z.eqb_neq, N, Hp. }
    unfold s2. rewrite (step_jump_reply _ P _ _ s1 A5).
    rewrite dispatch_sameDeps; rewrite (jumpSettled_no_match _ _ _ F);
      repeat split; assumption.
  - intros ok data p -> I E.
    destruct (find (fun p => nba_player_id p =? P) (nullish (resp_players data) []))
      as [p'|] eqn:F.
    + destruct (jumpSettled_match _ ok _ _ F) as [Ea Ep].
      exists p'. split; [|exact Ep].
      unfold s2. rewrite (step_jump_reply _ P _ _ s1 A5).
      unfold dispatch. rewrite Ea. autorewrite with commit_frame. reflexivity.
    + exfalso. rewrite find_None in F. specialize (F p I). simpl in F.
      apply Z.eqb_neq in F. contradiction.
Qed.

Lemma deep_link_exact_or_nothing_witness :
  tab leadersShown = TabLeaders /\ leadersStatus leadersShown <> Loading /\
  nth_error (leaders leadersShown) 0 = Some (sampleLeader 1 "Player") /\
  let r := Response true
             (JsonValue {| resp_players :=
                             Some [ sampleHit 7 "Player"; sampleHit 1 "Player" ] |}) in
  let s1 := step (LeaderRowClicked 0) leadersShown in
  let s2 := step (Replied (List.length (inflight leadersShown)) (SearchReply r)) s1 in
  exists p', selectedPlayer s2 = Some p' /\ nba_player_id p' = 1.
Proof.
  assert (T : tab leadersShown = TabLeaders) by (vm_compute; reflexivity).
  assert (L : leadersStatus leadersShown <> Loading) by (vm_compute; discriminate).
  assert (R : nth_error (leaders leadersShown) 0 = Some (sampleLeader 1 "Player"))
    by (vm_compute; reflexivity).
  split; [exact T|]. split; [exact L|]. split; [exact R|].
  intros r s1 s2.
  destruct (deep_link_exact_or_nothing leadersShown 0 (sampleLeader 1 "Player") r T L R)
    as (_ & _ & M).
  apply (M true _ (sampleHit 1 "Player") eq_refl).
  - right. left. reflexivity.
  - reflexivity.
Defined.

(** *** Tab navigation *)

Lemma dispatch_nothing (code : State -> list Action) (s : State) :
  code s = [] -> dispatch code s = s.
Proof.
  intros H. rewrite dispatch_sameDeps; rewrite H; [reflexivity | apply sameDeps_refl].
Qed.

Lemma requestTabChange_noop (next : AppTab) (s : State) :
  next = tab s \/ isTabTransitioning s = true -> requestTabChange next s = [].
Proof.
  intros H. unfold requestTabChange.
  destruct (AppTab_eqb next (tab s)) eqn:E; [reflexivity|].
  destruct H as [H|H].
  - apply AppTab_eqb_neq in E. contradiction.
  - rewrite H. reflexivity.
Qed.

Lemma requestTabChange_starts (next : AppTab) (s : State) :
  isTabTransitioning s = false -> next <> tab s ->
  requestTabChange next s
  = [ WritePendingTabRef (Some next); SetIsTabTransitioning true;
      SetTimeout CbTabSwap TAB_SWAP_MS; SetTimeout CbTabUnlock TAB_UNLOCK_MS ].
Proof.
  intros I N. unfold requestTabChange.
  apply AppTab_eqb_neq in N. rewrite N, I. reflexivity.
Qed.

(** The same on the clock: a second request 100 ms after the first; at
    800 ms the tab swaps to the first target and the input is unlocked. *)
Example tab_change_timed :
  let s1 := run [ TabClicked TabPlayer; Elapsed 100; TabClicked TabLeaders ] mounted in
  let s2 := run [ Elapsed 699 ] s1 in
  let s3 := run [ Elapsed 1 ] s2 in
  let s4 := run [ Elapsed 5000 ] s3 in
  (tab s1, isTabTransitioning s1) = (TabHome, true) /\
  (tab s2, isTabTransitioning s2) = (TabHome, true) /\
  (tab s3, isTabTransitioning s3, pendingTabRef s3) = (TabPlayer, false, None) /\
  (tab s4, isTabTransitioning s4, timers s4) = (TabPlayer, false, []).
Proof. vm_compute. repeat split. Qed.

(** *** Pagination resets *)




Lemma IMPLEMENTED_ROUTES_all (t : LeaderTab) : IMPLEMENTED_ROUTES t = true.
Proof. destruct t; reflexivity. Qed.




(** The same through the events: back on the Leaders page the limit is
    10 again, though thirty rows were loaded before leaving. *)
Example leaders_reentry_run :
  let s := run [ Elapsed 800 ] returning in
  (tab s, leaderTab s, leadersLimit s, canLoadMore s) = (TabLeaders, Cat3pt, 10, true) /\
  leadersLimit thirtyRows = 30 /\ List.length (leaders thirtyRows) = 30%nat.
Proof. vm_compute. repeat split. Qed.

(** What a change of category does: the state ends with the paging reset,
    but the fetch effect of the render of the change runs with the limit
    of that render, the one from before the reset; a second fetch, for 10
    rows, follows when the limit was not 10 already. *)
Lemma category_change_requests (s : State) (v : LeaderTab) :
  tab s = TabLeaders -> v <> leaderTab s ->
  let s' := step (LeaderTabClicked v) s in
  pagingReset s' /\ leaderTab s' = v /\
  inflight s'
  = inflight s
    ++ ReqLeaders (leadersEndpoint (with_leaderTab v s)) (leadersLimit s)
    :: (if leadersLimit s =? 10 then []
        else [ ReqLeaders (leadersEndpoint (with_leadersLimit 10 (with_leaderTab v s))) 10 ]).
Proof.
  intros T N s'. unfold s'. simpl step. unfold dispatch.
  rewrite commit_leaderTab.
  assert (H : handle (LeaderTabClicked v) s = [ SetLeaderTab v ])
    by (simpl; rewrite T; reflexivity).
  rewrite H. cbn [applyActions fold_left applyAction].
  assert (N' : LeaderTab_eqb (leaderTab s) v = false)
    by (apply LeaderTab_eqb_neq; congruence).
  unfold commit. cbn [flush].
  set (cur := with_leaderTab v s).
  assert (E1 : effects s cur
               = [ SetLeadersLimit 10; SetCanLoadMore true; SetLeadersStatus Loading;
                   Fetch (ReqLeaders (leadersEndpoint cur) (leadersLimit s)) ]).
  { unfold effects. cbn [cur tab leaderTab leadersLimit playerQuery with_leaderTab].
    rewrite N', T, AppTab_eqb_refl, Z.eqb_refl, String.eqb_refl.
    unfold fetchLeaders. cbn [cur leaderTab with_leaderTab leadersLimit].
    destruct v; reflexivity. }
  rewrite E1. cbn [applyActions fold_left applyAction].
  match goal with
  | |- context [effects cur ?x] => set (s1 := x)
  end.
  assert (E2 : effects cur s1
               = if leadersLimit s =? 10 then []
                 else [ SetLeadersStatus Loading;
                        Fetch (ReqLeaders
                                 (leadersEndpoint (with_leadersLimit 10 (with_leaderTab v s)))
                                 10) ]).
  { unfold effects.
    cbn [s1 cur tab leaderTab leadersLimit playerQuery with_leaderTab with_leadersLimit
           with_canLoadMore with_leadersStatus with_inflight].
    rewrite LeaderTab_eqb_refl, T, AppTab_eqb_refl, String.eqb_refl.
    destruct (leadersLimit s =? 10); [reflexivity|].
    unfold fetchLeaders.
    cbn [s1 cur leaderTab with_leaderTab with_leadersLimit
           with_canLoadMore with_leadersStatus with_inflight leadersLimit].
    destruct v; reflexivity. }
  rewrite E2.
  destruct (leadersLimit s =? 10); simpl; repeat split;
    rewrite <- ?app_assoc; reflexivity.
Qed.

Lemma category_change_requests_at_thirty :
  tab thirtyRows = TabLeaders /\ CatPts <> leaderTab thirtyRows /\
  pagingReset (step (LeaderTabClicked CatPts) thirtyRows).
Proof.
  assert (T : tab thirtyRows = TabLeaders) by (vm_compute; reflexivity).
  assert (N : CatPts <> leaderTab thirtyRows) by (vm_compute; discriminate).
  split; [exact T|]. split; [exact N|].
  exact (proj1 (category_change_requests thirtyRows CatPts T N)).
Defined.

(** C6, where the code departs from it: with thirty rows of 3PT% loaded,
    choosing PPG resets the limit to 10 and "more available" to true, yet
    the next fetch to fire asks for 30 rows of PPG; the fetch for 10 rows
    comes second, and when its reply arrives first the thirty rows of the
    other stay on display under a limit of 10. *)
Theorem category_change_first_fetch_keeps_old_limit :
  let s := step (LeaderTabClicked CatPts) thirtyRows in
  let late :=
    run [ Replied 1 (leadersOk (sampleRows 10));
          Replied 0 (leadersOk (sampleRows 30)) ] s in
  (tab thirtyRows, leaderTab thirtyRows, leadersLimit thirtyRows, inflight thirtyRows)
  = (TabLeaders, Cat3pt, 30, []) /\
  inflight s
  = [ ReqLeaders
        {| ep_path := CatPts; ep_season := "2025-26"; ep_min_attempts := None;
           ep_min_gp := 10; ep_limit := 30 |} 30;
      ReqLeaders
        {| ep_path := CatPts; ep_season := "2025-26"; ep_min_attempts := None;
           ep_min_gp := 10; ep_limit := 10 |} 10 ] /\
  (leaderTab s, leadersLimit s, canLoadMore s) = (CatPts, 10, true) /\
  (List.length (leaders late), leadersLimit late, canLoadMore late, leadersStatus late)
  = (30%nat, 10, true, Ok).
Proof. vm_compute. repeat split. Qed.

(** *** The game log and the selection *)

Lemma keepsStats_sound (a : Action) (s : State) :
  keepsStats a = true -> statsView (applyAction a s) = statsView s.
Proof.
  unfold statsView. destruct a; try discriminate; intros H; simpl; try reflexivity.
  - destruct r; try discriminate; simpl;
      rewrite filter_app; simpl; rewrite app_nil_r; reflexivity.
  - destruct (debounceTimer s); reflexivity.
Qed.

Lemma keepsStats_effects (a : Action) : isEffectAction a = true -> keepsStats a = true.
Proof. destruct a; try discriminate; try reflexivity. destruct r; try discriminate; reflexivity. Qed.

Lemma keepsStats_timers (cb : TimerCallback) (s : State) :
  forallb keepsStats (timerFired cb s) = true.
Proof.
  destruct cb as [| |q]; simpl; try reflexivity.
  - destruct (pendingTabRef s); reflexivity.
  - unfold fetchPlayerSearch. destruct (isEmpty (trim q)); reflexivity.
Qed.

Lemma statsView_dispatch (code : State -> list Action) (s : State) :
  statsView (dispatch code s) = statsView (applyActions (code s) s).
Proof.
  apply (frame_dispatch_view statsView keepsStats keepsStats_sound keepsStats_effects).
Qed.

Lemma statsView_elapse (ms : Z) (s : State) : statsView (elapse ms s) = statsView s.
Proof.
  apply (frame_elapse statsView keepsStats keepsStats_sound keepsStats_effects);
    try reflexivity.
  apply keepsStats_timers.
Qed.

Lemma statsView_actions (acts : list Action) (s : State) :
  forallb keepsStats acts = true -> statsView (applyActions acts s) = statsView s.
Proof. apply (frame_actions statsView keepsStats keepsStats_sound). Qed.

Lemma requestTabChange_keepsStats (next : AppTab) (s : State) :
  forallb keepsStats (requestTabChange next s) = true.
Proof.
  unfold requestTabChange.
  destruct (AppTab_eqb next (tab s)), (isTabTransitioning s); reflexivity.
Qed.

Lemma In_removeNth {A : Type} (k : nat) (l : list A) (x : A) :
  In x (removeNth k l) -> In x l.
Proof.
  revert k. induction l as [|y l IH]; intros k; destruct k; simpl; auto.
  intros [H|H]; [left; exact H | right; eapply IH; exact H].
Qed.

Lemma lastN_in_view (s : State) (id w : Z) :
  In (ReqLastN id w) (inflight s) <->
  In (ReqLastN id w) (filter isLastNRequest (inflight s)).
Proof.
  rewrite filter_In. split; [intros H; split; [exact H | reflexivity] | intros [H _]; exact H].
Qed.

Lemma statsStep_of_view (s s' : State) :
  (snd (fst (statsView s')) = snd (fst (statsView s)) \/ snd (fst (statsView s')) = None) ->
  (forall r, In r (snd (statsView s')) ->
     In r (snd (statsView s)) \/
     exists p w, fst (fst (statsView s')) = Some p /\ r = ReqLastN (nba_player_id p) w) ->
  statsStep s s'.
Proof.
  unfold statsView. simpl. intros Hs Hr. split.
  - intros d Hd. left. destruct Hs as [Hs|Hs]; congruence.
  - intros id w Hi. apply lastN_in_view in Hi.
    destruct (Hr _ Hi) as [H|(p & w' & Hp & E)].
    + left. apply lastN_in_view. exact H.
    + right. exists p. split; [exact Hp | inversion E; reflexivity].
Qed.

Lemma statsStep_same_view (s s' : State) :
  statsView s' = statsView s -> statsStep s s'.
Proof.
  intros E. apply statsStep_of_view; rewrite E; [left; reflexivity | intros r H; left; exact H].
Qed.

Lemma statsStep_code (code : State -> list Action) (s : State) :
  forallb keepsStats (code s) = true -> statsStep s (dispatch code s).
Proof.
  intros H. apply statsStep_same_view.
  rewrite statsView_dispatch. apply statsView_actions, H.
Qed.

Lemma applyActions_cons (a : Action) (acts : list Action) (s : State) :
  applyActions (a :: acts) s = applyActions acts (applyAction a s).
Proof. reflexivity. Qed.

Lemma statsView_select (v : option PlayerHit) (s : State) :
  statsView (applyAction (SetSelectedPlayer v) s)
  = (v, snd (fst (statsView s)), snd (statsView s)).
Proof. reflexivity. Qed.

Lemma statsView_stats (v : option PlayerLastNResponse) (s : State) :
  statsView (applyAction (SetPlayerStats v) s)
  = (fst (fst (statsView s)), v, snd (statsView s)).
Proof. reflexivity. Qed.

Lemma statsView_fetch (id w : Z) (s : State) :
  statsView (applyActions (fetchPlayerLastN id w) s)
  = (fst (fst (statsView s)), snd (fst (statsView s)),
     snd (statsView s) ++ [ ReqLastN id w ]).
Proof. unfold statsView. simpl. rewrite filter_app. reflexivity. Qed.

(** Selecting a player and asking for the game log. *)
Lemma statsView_selecting (pre : list Action) (p : PlayerHit) (w : Z)
  (post : list Action) (s : State) :
  forallb keepsStats pre = true -> forallb keepsStats post = true ->
  statsView (applyActions (pre ++ SetSelectedPlayer (Some p) :: post
                           ++ fetchPlayerLastN (nba_player_id p) w) s)
  = (Some p, snd (fst (statsView s)),
     snd (statsView s) ++ [ ReqLastN (nba_player_id p) w ]).
Proof.
  intros Hpre Hpost.
  rewrite applyActions_app, applyActions_cons, applyActions_app.
  rewrite statsView_fetch, (statsView_actions post _ Hpost), statsView_select.
  cbn [fst snd]. rewrite (statsView_actions pre _ Hpre). reflexivity.
Qed.

Lemma statsStep_select (pre : list Action) (p : PlayerHit) (w : Z)
  (post : list Action) (s : State) :
  forallb keepsStats pre = true -> forallb keepsStats post = true ->
  statsStep s
    (dispatch (fun _ => pre ++ SetSelectedPlayer (Some p) :: post
                        ++ fetchPlayerLastN (nba_player_id p) w) s).
Proof.
  intros Hpre Hpost.
  apply statsStep_of_view; rewrite statsView_dispatch;
    rewrite (statsView_selecting pre p w post s Hpre Hpost); cbn [fst snd].
  - left. reflexivity.
  - intros r H. apply in_app_or in H. destruct H as [H|[H|[]]].
    + left. exact H.
    + right. exists p, w. split; [reflexivity | symmetry; exact H].
Qed.

(** Dropping the selection and the game log. *)
Lemma statsView_clearing (pre post : list Action) (s : State) :
  forallb keepsStats pre = true -> forallb keepsStats post = true ->
  statsView (applyActions (pre ++ SetSelectedPlayer None :: SetPlayerStats None :: post) s)
  = (None, None, snd (statsView s)).
Proof.
  intros Hpre Hpost.
  rewrite applyActions_app, !applyActions_cons.
  rewrite (statsView_actions post _ Hpost), statsView_stats, statsView_select.
  cbn [fst snd]. rewrite (statsView_actions pre _ Hpre). reflexivity.
Qed.

Lemma statsStep_clear (pre post : list Action) (s : State) :
  forallb keepsStats pre = true -> forallb keepsStats post = true ->
  statsStep s
    (dispatch (fun _ => pre ++ SetSelectedPlayer None :: SetPlayerStats None :: post) s).
Proof.
  intros Hpre Hpost.
  apply statsStep_of_view; rewrite statsView_dispatch;
    rewrite (statsView_clearing pre post s Hpre Hpost); cbn [fst snd].
  - right. reflexivity.
  - intros r H. left. exact H.
Qed.

Lemma dispatch_ext (code code' : State -> list Action) (s : State) :
  code s = code' s -> dispatch code s = dispatch code' s.
Proof. unfold dispatch. intros ->. reflexivity. Qed.

Lemma statsStep_handled (e : Event) (s : State) :
  statsStep s (dispatch (handle e) s).
Proof.
  destruct e.
  - (* TabClicked *) apply statsStep_code. apply requestTabChange_keepsStats.
  - (* LeaderTabClicked *)
    apply statsStep_code. simpl. destruct (AppTab_eqb (tab s) TabLeaders); reflexivity.
  - (* LoadMoreClicked *)
    apply statsStep_code. simpl.
    destruct (AppTab_eqb (tab s) TabLeaders && Status_eqb (leadersStatus s) Ok
              && canLoadMore s); reflexivity.
  - (* QueryTyped *)
    apply statsStep_code. simpl. destruct (AppTab_eqb (tab s) TabPlayer); reflexivity.
  - (* ToggleAllClicked *)
    destruct (AppTab_eqb (tab s) TabPlayer) eqn:T;
      [|apply statsStep_code; simpl; rewrite T; reflexivity].
    destruct (selectedPlayer s) as [p|] eqn:P;
      [|apply statsStep_code; simpl; rewrite T, P; reflexivity].
    apply statsStep_of_view; rewrite statsView_dispatch; simpl; rewrite T, P; simpl.
    + left. reflexivity.
    + intros r. rewrite filter_app. simpl. intros H.
      apply in_app_or in H. destruct H as [H|[H|[]]]; [left; exact H|].
      right. exists p. eexists. split; [exact P | symmetry; exact H].
  - (* ClearClicked *)
    destruct (AppTab_eqb (tab s) TabPlayer) eqn:T;
      [|apply statsStep_code; simpl; rewrite T; reflexivity].
    destruct (selectedPlayer s) as [p|] eqn:P;
      [|apply statsStep_code; simpl; rewrite T, P; reflexivity].
    rewrite (dispatch_ext _
               (fun _ => [] ++ SetSelectedPlayer None :: SetPlayerStats None
                         :: [ SetShowAllGames false; SetPlayerQuery "";
                              SetPlayerResults [] ]))
      by (simpl; rewrite T, P; reflexivity).
    apply statsStep_clear; reflexivity.
  - (* ResultClicked *)
    destruct (AppTab_eqb (tab s) TabPlayer) eqn:T;
      [|apply statsStep_code; simpl; rewrite T; reflexivity].
    destruct (nth_error (playerResults s) i) as [p|] eqn:P;
      [|apply statsStep_code; simpl; rewrite T, P; reflexivity].
    rewrite (dispatch_ext _
               (fun _ => [] ++ SetSelectedPlayer (Some p)
                         :: [ SetShowAllGames false; SetPlayerQuery "";
                              SetPlayerResults [] ]
                         ++ fetchPlayerLastN (nba_player_id p) DEFAULT_LAST_N))
      by (simpl; rewrite T, P; reflexivity).
    apply statsStep_select; reflexivity.
  - (* LeaderRowClicked *)
    destruct (AppTab_eqb (tab s) TabLeaders
              && negb (Status_eqb (leadersStatus s) Loading)) eqn:T;
      [|apply statsStep_code; simpl; rewrite T; reflexivity].
    destruct (nth_error (leaders s) i) as [row|] eqn:P;
      [|apply statsStep_code; simpl; rewrite T, P; reflexivity].
    rewrite (dispatch_ext _
               (fun _ => requestTabChange TabPlayer s
                         ++ SetSelectedPlayer None :: SetPlayerStats None
                         :: [ SetShowAllGames false; SetPlayerQuery (player_name row);
                              SetPlayerSearchStatus Loading;
                              Fetch (ReqJumpSearch (player_id row) (player_name row)) ]))
      by (simpl; rewrite T, P; reflexivity).
    apply statsStep_clear; [apply requestTabChange_keepsStats | reflexivity].
  - (* Elapsed *) apply statsStep_code. reflexivity.
  - (* Replied *) apply statsStep_code. reflexivity.
Qed.

Lemma statsStep_after_removal (k : nat) (s s' : State) :
  statsStep (with_inflight (removeNth k (inflight s)) s) s' -> statsStep s s'.
Proof.
  intros [A B]. split.
  - intros d Hd. destruct (A d Hd) as [H|[w H]]; [left; exact H|].
    right. exists w. eapply In_removeNth. exact H.
  - intros id w Hi. destruct (B id w Hi) as [H|H]; [|right; exact H].
    left. eapply In_removeNth. exact H.
Qed.

Lemma leadersSettled_keepsStats (limit : Z) (r : FetchResult LeadersResponse) :
  forallb keepsStats (leadersSettled limit r) = true.
Proof. destruct r as [|[|] [| |d]]; reflexivity. Qed.

Lemma searchSettled_keepsStats (r : FetchResult PlayerSearchResponse) :
  forallb keepsStats (searchSettled r) = true.
Proof. destruct r as [|ok [| |d]]; reflexivity. Qed.

Lemma statsStep_jump (playerId : Z) (r : FetchResult PlayerSearchResponse) (s : State) :
  statsStep s (dispatch (fun _ => jumpSettled playerId r) s).
Proof.
  destruct (jumpSettled_cases playerId r) as [(p & Hp & E)|[E|E]].
  - apply statsStep_of_view; rewrite statsView_dispatch.
    + left. rewrite E. reflexivity.
    + rewrite E. unfold statsView. simpl. rewrite filter_app. simpl.
      intros r0 H. apply in_app_or in H. destruct H as [H|[H|[]]]; [left; exact H|].
      right. exists p, DEFAULT_LAST_N. split; [reflexivity|]. rewrite Hp. symmetry. exact H.
  - apply statsStep_code. rewrite E. reflexivity.
  - apply statsStep_code. rewrite E. reflexivity.
Qed.

Lemma statsStep_replied (k : nat) (r : Reply) (s : State) :
  answersTheRequest s (Replied k r) -> statsStep s (step (Replied k r) s).
Proof.
  intros Honest. simpl.
  destruct (nth_error (inflight s) k) as [req|] eqn:N;
    [|apply statsStep_same_view; reflexivity].
  destruct (settled req r) as [acts|] eqn:S;
    [|apply statsStep_same_view; reflexivity].
  destruct req as [url limit|q|playerId name|id w], r as [r|r|r];
    try discriminate S; inversion S; subst acts; clear S.
  - apply (statsStep_after_removal k), statsStep_code, leadersSettled_keepsStats.
  - apply (statsStep_after_removal k), statsStep_code, searchSettled_keepsStats.
  - apply (statsStep_after_removal k), statsStep_jump.
  - destruct r as [|ok [| |d]].
    + apply (statsStep_after_removal k), statsStep_code. reflexivity.
    + apply (statsStep_after_removal k), statsStep_code. reflexivity.
    + apply (statsStep_after_removal k), statsStep_of_view; rewrite statsView_dispatch.
      * right. reflexivity.
      * intros r H. left. exact H.
    + simpl in Honest. specialize (Honest id w N).
      split.
      * intros d' Hd. right. exists w.
        unfold dispatch in Hd. rewrite commit_playerStats in Hd. simpl in Hd.
        inversion Hd; subst d'. rewrite Honest.
        eapply nth_error_In. exact N.
      * intros id' w' Hi. left.
        apply lastN_in_view in Hi.
        match type of Hi with
        | In _ (filter isLastNRequest (inflight ?x)) =>
            change (filter isLastNRequest (inflight x)) with (snd (statsView x)) in Hi
        end.
        rewrite statsView_dispatch in Hi. simpl in Hi.
        apply filter_In in Hi. destruct Hi as [Hi _].
        eapply In_removeNth. exact Hi.
Qed.

Lemma statsStep_step (e : Event) (s : State) :
  answersTheRequest s e -> statsStep s (step e s).
Proof.
  intros H. destruct e; try apply statsStep_handled.
  - apply statsStep_same_view. apply statsView_elapse.
  - apply statsStep_replied, H.
Qed.

Lemma run_snoc (evs : list Event) (e : Event) (s : State) :
  run (evs ++ [e]) s = step e (run evs s).
Proof. unfold run. rewrite fold_left_app. reflexivity. Qed.

Lemma honest_snoc (evs : list Event) (e : Event) (s : State) :
  honest s (evs ++ [e]) <-> honest s evs /\ answersTheRequest (run evs s) e.
Proof.
  revert s. induction evs as [|e' evs IH]; simpl; intros s.
  - tauto.
  - rewrite IH. tauto.
Qed.

Lemma wasSelected_snoc (evs : list Event) (e : Event) (id : Z) :
  wasSelected evs id -> wasSelected (evs ++ [e]) id.
Proof.
  intros (k & p & H & E).
  exists (Nat.min k (List.length evs)), p. split; [|exact E].
  rewrite firstn_app.
  replace (Nat.min k (List.length evs) - List.length evs)%nat with O by lia.
  simpl. rewrite app_nil_r.
  destruct (Nat.le_ge_cases k (List.length evs)) as [L|L].
  - rewrite Nat.min_l by exact L. exact H.
  - rewrite Nat.min_r by exact L. rewrite firstn_all.
    rewrite firstn_all2 in H by exact L. exact H.
Qed.

Lemma wasSelected_now (evs : list Event) (p : PlayerHit) :
  selectedPlayer (run evs mounted) = Some p -> wasSelected evs (nba_player_id p).
Proof.
  intros H. exists (List.length evs), p. rewrite firstn_all. split; [exact H | reflexivity].
Qed.

(** Along a run, the committed game log and the game-log requests in
    flight are for players that were selected at some point. *)
Lemma stats_for_once_selected (evs : list Event) :
  honest mounted evs ->
  (forall d, playerStats (run evs mounted) = Some d ->
             wasSelected evs (stats_player_id d)) /\
  (forall id w, In (ReqLastN id w) (inflight (run evs mounted)) ->
                wasSelected evs id).
Proof.
  induction evs as [|e evs IH] using rev_ind; intros H.
  - split; [intros d Hd; discriminate Hd|].
    intros id w [Hi|[]]. discriminate Hi.
  - apply honest_snoc in H. destruct H as [H He].
    destruct (IH H) as [IHs IHr].
    destruct (statsStep_step e _ He) as [A B].
    rewrite run_snoc. split.
    + intros d Hd. apply wasSelected_snoc.
      destruct (A d Hd) as [Hs|[w Hw]]; [apply IHs, Hs | eapply IHr, Hw].
    + intros id w Hi.
      destruct (B id w Hi) as [Hr|(p & Hp & E)].
      * apply wasSelected_snoc. eapply IHr, Hr.
      * rewrite <- E. apply wasSelected_now. rewrite run_snoc. exact Hp.
Qed.

(** The search scenario: "cur" typed, one hit; selecting it clears query
    and results and asks for the last 10 games of player 201; the reply
    commits the game log and the status together. *)
Example select_curry_scenario :
  let s1 := run [ ResultClicked 0 ] curShown in
  let s2 := run [ Replied 1 (lastNOk (sampleLog 201)) ] s1 in
  (selectedPlayer s1, playerQuery s1, playerResults s1, playerStatsStatus s1,
   nth_error (inflight s1) 1)
  = (Some (sampleHit 201 "Stephen Curry"), "", [], Loading,
     Some (ReqLastN 201 DEFAULT_LAST_N)) /\
  (playerStats s2, playerStatsStatus s2) = (Some (sampleLog 201), Ok).
Proof. vm_compute. repeat split. Qed.

Lemma staleTrace_honest : honest mounted staleTrace.
Proof.
  unfold staleTrace, toPlayerPage, searchOk, lastNOk.
  cbn [app honest answersTheRequest].
  repeat split; intros id w H; vm_compute in H; inversion H; reflexivity.
Qed.

Example staleTrace_end :
  selectedPlayer (run staleTrace mounted) = Some (sampleHit 2 "Bob") /\
  playerStats (run staleTrace mounted) = Some (sampleLog 1) /\
  playerStatsStatus (run staleTrace mounted) = Ok.
Proof. vm_compute. repeat split. Qed.

(** C1 as stated fails: with Bob selected, the game log of Ann, asked for
    earlier and answered later, is the committed one. *)
Lemma stale_log_overwrites_selection :
  honest mounted staleTrace /\ ~ statsBelongToSelection (run staleTrace mounted).
Proof.
  split; [exact staleTrace_honest|].
  intros H. destruct staleTrace_end as (Hsel & Hstats & _).
  destruct (H _ Hstats) as (p & Hp & E).
  rewrite Hsel in Hp. inversion Hp; subst p. discriminate E.
Qed.

(** C1, amended: a game-log reply is committed when it arrives, whoever is
    selected then (and a search reply whatever the query is then); so in
    every reachable state the committed game log is the log of a player
    who was the selected one at some point of the run (when the request
    was issued), not always of the one selected now. *)
Theorem stats_of_a_once_selected_player (evs : list Event) :
  honest mounted evs ->
  (forall d, playerStats (run evs mounted) = Some d ->
             wasSelected evs (stats_player_id d)) /\
  (forall k id w ok d,
     nth_error (inflight (run evs mounted)) k = Some (ReqLastN id w) ->
     let s' := step (Replied k (LastNReply (Response ok (JsonValue d)))) (run evs mounted) in
     playerStats s' = Some d /\ playerStatsStatus s' = Ok /\
     selectedPlayer s' = selectedPlayer (run evs mounted)) /\
  (forall k q ok data,
     nth_error (inflight (run evs mounted)) k = Some (ReqSearch q) ->
     let s' := step (Replied k (SearchReply (Response ok (JsonValue data)))) (run evs mounted) in
     playerResults s' = nullish (resp_players data) [] /\ playerSearchStatus s' = Ok /\
     playerQuery s' = playerQuery (run evs mounted)).
Proof.
  intros H. split; [apply (stats_for_once_selected evs H)|]. split.
  - intros k id w ok d N s'. unfold s'.
    rewrite (step_lastN_reply k id w _ _ N). unfold dispatch.
    autorewrite with commit_frame. repeat split.
  - intros k q ok data N s'. unfold s'.
    rewrite (step_search_reply k q _ _ N). unfold dispatch.
    autorewrite with commit_frame. repeat split.
Qed.

Lemma stats_of_a_once_selected_player_witness :
  honest mounted staleTrace /\
  playerStats (run staleTrace mounted) = Some (sampleLog 1) /\
  wasSelected staleTrace 1.
Proof.
  assert (S : playerStats (run staleTrace mounted) = Some (sampleLog 1))
    by (vm_compute; reflexivity).
  split; [exact staleTrace_honest|]. split; [exact S|].
  exact (proj1 (stats_of_a_once_selected_player staleTrace staleTrace_honest)
           (sampleLog 1) S).
Defined.

(** *** Typeahead search *)

Lemma nextDue_In (l : list Timer) (u : Timer) : nextDue l = Some u -> In u l.
Proof.
  revert u. induction l as [|t l IH]; simpl; intros u H; [discriminate|].
  destruct (nextDue l) as [v|].
  - destruct (due v <? due t); inversion H; subst; [right; apply IH; reflexivity | left; reflexivity].
  - inversion H. left. reflexivity.
Qed.

Lemma nextDue_None (l : list Timer) : nextDue l = None -> l = [].
Proof.
  destruct l as [|t l]; simpl; [reflexivity|].
  destruct (nextDue l) as [v|]; [destruct (due v <? due t)|]; discriminate.
Qed.

Lemma nextDue_le (l : list Timer) (u : Timer) :
  nextDue l = Some u -> forall t, In t l -> due u <= due t.
Proof.
  revert u. induction l as [|t l IH]; simpl; intros u H x Hx; [contradiction|].
  destruct (nextDue l) as [v|] eqn:N.
  - destruct (due v <? due t) eqn:C; inversion H; subst; clear H.
    + apply Z.ltb_lt in C. destruct Hx as [<-|Hx]; [lia | apply (IH _ eq_refl), Hx].
    + apply Z.ltb_ge in C. destruct Hx as [<-|Hx]; [lia|].
      pose proof (IH _ eq_refl x Hx). lia.
  - inversion H; subst. destruct Hx as [<-|Hx]; [lia|].
    rewrite (nextDue_None _ N) in Hx. contradiction.
Qed.

Lemma nextDue_nonempty (l : list Timer) : l <> [] -> exists u, nextDue l = Some u.
Proof.
  destruct l as [|t l]; [congruence|]. intros _. simpl.
  destruct (nextDue l) as [v|]; [destruct (due v <? due t)|]; eexists; reflexivity.
Qed.

(** A timer set later fires first only when it is due strictly earlier. *)
Lemma nextDue_app (l1 l2 : list Timer) (u : Timer) :
  nextDue (l1 ++ l2) = Some u ->
  In u l1 \/ (nextDue l2 = Some u /\ forall t, In t l1 -> due u < due t).
Proof.
  revert u. induction l1 as [|t l1 IH]; simpl; intros u H.
  - right. split; [exact H | intros t []].
  - destruct (nextDue (l1 ++ l2)) as [v|] eqn:N.
    + destruct (due v <? due t) eqn:C; inversion H; subst; clear H.
      * apply Z.ltb_lt in C. destruct (IH _ eq_refl) as [I|[I L]].
        -- left. right. exact I.
        -- right. split; [exact I|]. intros x [<-|Hx]; [exact C | apply L, Hx].
      * left. left. reflexivity.
    + inversion H. left. left. reflexivity.
Qed.

Lemma runTimers_idle (fuel : nat) (deadline : Z) (s : State) :
  (forall t, In t (timers s) -> deadline < due t) ->
  runTimers fuel deadline s = s.
Proof.
  intros H. destruct fuel as [|fuel]; simpl; [reflexivity|].
  destruct (nextDue (timers s)) as [u|] eqn:N; [|reflexivity].
  pose proof (H u (nextDue_In _ _ N)) as L.
  apply Z.leb_gt in L. rewrite L. reflexivity.
Qed.





Lemma keepsTimers_sound (a : Action) (s : State) :
  keepsTimers a = true -> timersView (applyAction a s) = timersView s.
Proof. destruct a; try discriminate; reflexivity. Qed.

Lemma keepsTimers_actions (acts : list Action) (s : State) :
  forallb keepsTimers acts = true -> timersView (applyActions acts s) = timersView s.
Proof.
  revert s. induction acts as [|a acts IH]; simpl; intros s H; [reflexivity|].
  apply andb_prop in H. destruct H as [Ha Hs].
  rewrite (IH _ Hs). apply keepsTimers_sound, Ha.
Qed.

(** While the query stays, the effects leave the timers alone. *)
Lemma effects_keepTimers (prev cur : State) :
  playerQuery prev = playerQuery cur -> forallb keepsTimers (effects prev cur) = true.
Proof.
  intros E. unfold effects. rewrite E, String.eqb_refl. simpl.
  repeat rewrite forallb_app.
  assert (F : forallb keepsTimers (fetchLeaders cur) = true)
    by (unfold fetchLeaders; destruct (IMPLEMENTED_ROUTES (leaderTab cur)); reflexivity).
  repeat match goal with
         | |- context [if ?b then _ else _] => destruct b; simpl
         end;
    rewrite ?F; reflexivity.
Qed.

Lemma flush_keepsTimers (passes : nat) (prev cur : State) :
  playerQuery prev = playerQuery cur ->
  timersView (flush passes prev cur) = timersView cur.
Proof.
  revert prev cur. induction passes as [|k IH]; simpl; intros prev cur E; [reflexivity|].
  pose proof (keepsTimers_actions _ cur (effects_keepTimers prev cur E)) as V.
  rewrite IH; [exact V|].
  symmetry. exact (f_equal (fun v => fst (fst (fst v))) V).
Qed.

Lemma timersView_dispatch (code : State -> list Action) (s : State) :
  forallb keepsTimers (code s) = true ->
  timersView (dispatch code s) = timersView s.
Proof.
  intros H. pose proof (keepsTimers_actions _ s H) as V.
  unfold dispatch, commit. rewrite flush_keepsTimers; [exact V|].
  symmetry. exact (f_equal (fun v => fst (fst (fst v))) V).
Qed.

(** Firing a timer leaves the other timers as they are. *)
Lemma timerFired_keepsTimers (cb : TimerCallback) (s : State) :
  forallb keepsTimers (timerFired cb s) = true.
Proof.
  destruct cb as [| |q]; simpl; try reflexivity.
  - destruct (pendingTabRef s); reflexivity.
  - unfold fetchPlayerSearch. destruct (isEmpty (trim q)); reflexivity.
Qed.

Lemma timers_after_firing (t : Timer) (v : Z) (s : State) :
  timers (dispatch (timerFired (callback t)) (with_now v (clearTimeout (timer_id t) s)))
  = filter (fun u => negb (Nat.eqb (timer_id u) (timer_id t))) (timers s).
Proof.
  pose proof (timersView_dispatch (timerFired (callback t))
                (with_now v (clearTimeout (timer_id t) s))
                (timerFired_keepsTimers _ _)) as V.
  exact (f_equal (fun v => snd (fst (fst v))) V).
Qed.

Lemma filter_shorter {A : Type} (f : A -> bool) (l : list A) :
  (List.length (filter f l) <= List.length l)%nat.
Proof.
  induction l as [|x l IH]; simpl; [lia|]. destruct (f x); simpl; lia.
Qed.

Lemma filter_drops {A : Type} (f : A -> bool) (l : list A) (x : A) :
  In x l -> f x = false -> (List.length (filter f l) < List.length l)%nat.
Proof.
  induction l as [|y l IH]; simpl; [contradiction|].
  intros [->|H] F.
  - rewrite F. pose proof (filter_shorter f l). lia.
  - specialize (IH H F). destruct (f y); simpl; lia.
Qed.

(** Time runs up to the moment the timer set last is due: the timers
    before it that are due fire first, then the last timer fires, and
    nothing fires after it.  [Inv] is any property of the state kept by the
    timers that fire first. *)
Section LastTimer.
Variable Inv : State -> Prop.
Variable early : Timer -> Prop.
Hypothesis Inv_fired :
  forall s u,
    Inv s -> In u (timers s) -> early u ->
    Inv (dispatch (timerFired (callback u))
           (with_now (Z.max (now s) (due u)) (clearTimeout (timer_id u) s))).

Lemma runTimers_last (n : nat) :
  forall (fuel : nat) (s : State) (t0 : Timer) (pre : list Timer),
    (List.length pre <= n)%nat -> (List.length pre < fuel)%nat ->
    timers s = pre ++ [t0] ->
    (forall t, In t pre -> early t /\ timer_id t <> timer_id t0) ->
    Inv s ->
    exists s0 late,
      runTimers fuel (due t0) s
      = dispatch (timerFired (callback t0))
          (with_now (Z.max (now s0) (due t0)) (clearTimeout (timer_id t0) s0)) /\
      Inv s0 /\
      timers s0 = late ++ [t0] /\
      forall t, In t late -> due t0 < due t /\ timer_id t <> timer_id t0.
Proof.
  induction n as [|n IH]; intros fuel s t0 pre Hn Hfuel Ht Hpre HI.
  - destruct pre as [|x pre]; [|simpl in Hn; lia].
    destruct fuel as [|fuel]; [simpl in Hfuel; lia|].
    simpl in Ht. simpl. rewrite Ht. simpl. rewrite Z.leb_refl.
    exists s, []. split; [|split; [exact HI | split; [exact Ht | intros t []]]].
    apply runTimers_idle. intros t Hi.
    rewrite timers_after_firing, Ht in Hi. simpl in Hi.
    rewrite Nat.eqb_refl in Hi. contradiction.
  - destruct fuel as [|fuel]; [lia|].
    simpl. rewrite Ht.
    destruct (nextDue_nonempty (pre ++ [t0])) as [u N];
      [destruct pre; discriminate|].
    rewrite N.
    assert (L : due u <= due t0).
    { apply (nextDue_le _ _ N). apply in_or_app. right. left. reflexivity. }
    apply Z.leb_le in L. rewrite L.
    destruct (nextDue_app _ _ _ N) as [I|[I S]].
    + destruct (Hpre u I) as [Cb Id].
      set (keep := fun v : Timer => negb (Nat.eqb (timer_id v) (timer_id u))).
      set (s1 := dispatch (timerFired (callback u))
                   (with_now (Z.max (now s) (due u)) (clearTimeout (timer_id u) s))).
      assert (T1 : timers s1 = filter keep pre ++ [t0]).
      { unfold s1. rewrite timers_after_firing, Ht, filter_app. simpl.
        fold keep. unfold keep at 2.
        replace (Nat.eqb (timer_id t0) (timer_id u)) with false; [reflexivity|].
        symmetry. apply Nat.eqb_neq. congruence. }
      assert (Short : (List.length (filter keep pre) < List.length pre)%nat).
      { apply (filter_drops keep pre u I). unfold keep. rewrite Nat.eqb_refl. reflexivity. }
      apply (IH fuel s1 t0 (filter keep pre)); try lia; try exact T1.
      * intros t Hi. apply filter_In in Hi. apply Hpre, Hi.
      * apply Inv_fired; [exact HI | | exact Cb].
        rewrite Ht. apply in_or_app. left. exact I.
    + simpl in I. inversion I; subst u.
      exists s, pre. split; [|split; [exact HI | split; [exact Ht|]]].
      * apply runTimers_idle. intros t Hi.
        rewrite timers_after_firing, Ht in Hi.
        apply filter_In in Hi. destruct Hi as [Hi F].
        apply in_app_or in Hi. destruct Hi as [Hi|[<-|[]]]; [apply S, Hi|].
        rewrite Nat.eqb_refl in F. discriminate F.
      * intros t Hi. split; [apply S, Hi | apply Hpre, Hi].
Qed.

End LastTimer.


(** What typing in the search box does at once: the query changes, the
    pending debounce timer is cleared and a new one is set. *)
Lemma query_typed_step (s : State) (q : string) :
  tab s = TabPlayer -> q <> playerQuery s ->
  step (QueryTyped q) s
  = applyActions [ SetPlayerQuery q; ClearDebounce; StartDebounce q ] s.
Proof.
  intros T N. simpl step. unfold dispatch.
  assert (H : handle (QueryTyped q) s = [ SetPlayerQuery q ])
    by (simpl; rewrite T; reflexivity).
  rewrite H. unfold commit. cbn [flush].
  set (cur := applyActions [ SetPlayerQuery q ] s).
  assert (E : effects s cur = [ ClearDebounce; StartDebounce q ]).
  { unfold effects. cbn [cur applyActions fold_left applyAction
                           tab leaderTab leadersLimit playerQuery with_playerQuery].
    rewrite LeaderTab_eqb_refl, AppTab_eqb_refl, Z.eqb_refl.
    replace (String.eqb (playerQuery s) q) with false; [reflexivity|].
    symmetry. apply String.eqb_neq. congruence. }
  rewrite E.
  rewrite effects_sameDeps.
  - reflexivity.
  - unfold cur. simpl. destruct (debounceTimer s); repeat split.
Qed.





(** *** Timers of the reachable states *)

(** Letting time pass fires every timer that is due: the fuel of
    [runTimers] is enough. *)
Lemma runTimers_exhausts (fuel : nat) (deadline : Z) (s : State) :
  (List.length (timers s) <= fuel)%nat ->
  forall t, In t (timers (runTimers fuel deadline s)) -> deadline < due t.
Proof.
  revert s. induction fuel as [|fuel IH]; intros s L t Hi.
  - simpl in Hi. destruct (timers s); [contradiction | simpl in L; lia].
  - simpl in Hi. destruct (nextDue (timers s)) as [u|] eqn:N.
    + destruct (due u <=? deadline) eqn:C.
      * revert Hi. apply IH.
        rewrite timers_after_firing.
        assert (D : (List.length
                       (filter (fun v => negb (Nat.eqb (timer_id v) (timer_id u)))
                          (timers s))
                     < List.length (timers s))%nat).
        { apply (filter_drops _ _ u (nextDue_In _ _ N)).
          rewrite Nat.eqb_refl. reflexivity. }
        lia.
      * apply Z.leb_gt in C. pose proof (nextDue_le _ _ N t Hi). lia.
    + rewrite (nextDue_None _ N) in Hi. contradiction.
Qed.

Lemma elapse_exhausts (ms : Z) (s : State) (t : Timer) :
  In t (timers (elapse ms s)) -> now (elapse ms s) < due t.
Proof.
  unfold elapse. intros Hi.
  change (In t (timers (runTimers (List.length (timers s)) (now s + Z.max 0 ms) s))) in Hi.
  apply runTimers_exhausts in Hi; [exact Hi | lia].
Qed.

Lemma freshIds_action (a : Action) (s : State) :
  freshIds s -> freshIds (applyAction a s).
Proof.
  unfold freshIds. intros F.
  destruct a; simpl; try exact F.
  - intros t Hi. apply in_app_or in Hi. destruct Hi as [Hi|[<-|[]]].
    + specialize (F t Hi). lia.
    + simpl. lia.
  - intros t Hi. apply in_app_or in Hi. destruct Hi as [Hi|[<-|[]]].
    + specialize (F t Hi). lia.
    + simpl. lia.
  - destruct (debounceTimer s); simpl; [|exact F].
    intros t Hi. apply filter_In in Hi. apply F, Hi.
Qed.

Lemma freshIds_actions (acts : list Action) (s : State) :
  freshIds s -> freshIds (applyActions acts s).
Proof.
  revert s. induction acts as [|a acts IH]; simpl; intros s F; [exact F|].
  apply IH, freshIds_action, F.
Qed.

Lemma freshIds_flush (passes : nat) (prev cur : State) :
  freshIds cur -> freshIds (flush passes prev cur).
Proof.
  revert prev cur. induction passes as [|k IH]; simpl; intros prev cur F; [exact F|].
  apply IH, freshIds_actions, F.
Qed.

Lemma freshIds_dispatch (code : State -> list Action) (s : State) :
  freshIds s -> freshIds (dispatch code s).
Proof. intros F. apply freshIds_flush, freshIds_actions, F. Qed.

Lemma freshIds_runTimers (fuel : nat) (deadline : Z) (s : State) :
  freshIds s -> freshIds (runTimers fuel deadline s).
Proof.
  revert s. induction fuel as [|fuel IH]; simpl; intros s F; [exact F|].
  destruct (nextDue (timers s)) as [u|]; [|exact F].
  destruct (due u <=? deadline); [|exact F].
  apply IH, freshIds_dispatch.
  intros t Hi. simpl in Hi. apply filter_In in Hi. apply F, Hi.
Qed.

Lemma freshIds_step (e : Event) (s : State) : freshIds s -> freshIds (step e s).
Proof.
  intros F. destruct e; try (apply freshIds_dispatch, F).
  - simpl. unfold elapse. apply (freshIds_runTimers _ _ s F).
  - simpl. destruct (nth_error (inflight s) k) as [req|]; [|exact F].
    destruct (settled req r); [|exact F].
    apply freshIds_dispatch. exact F.
Qed.

Lemma debounceOnly_plain (a : Action) (s : State) :
  plainAction a = true -> debounceOnly s -> debounceOnly (applyAction a s).
Proof.
  unfold debounceOnly. intros P D.
  destruct a; try discriminate; simpl; try exact D.
  - destruct cb; try discriminate; intros t Hi C;
      (apply in_app_or in Hi; destruct Hi as [Hi|[<-|[]]]; [exact (D t Hi C) | discriminate C]).
  - destruct (debounceTimer s) as [id|] eqn:E; simpl; [|rewrite E; exact D].
    intros t Hi C. apply filter_In in Hi. destruct Hi as [Hi Hid].
    pose proof (D t Hi C) as Hd. inversion Hd; subst id.
    rewrite Nat.eqb_refl in Hid. discriminate Hid.
Qed.

Lemma debounceOnly_plains (acts : list Action) (s : State) :
  forallb plainAction acts = true -> debounceOnly s -> debounceOnly (applyActions acts s).
Proof.
  revert s. induction acts as [|a acts IH]; simpl; intros s P D; [exact D|].
  apply andb_prop in P. destruct P as [Pa Ps].
  apply IH; [exact Ps|]. apply debounceOnly_plain; assumption.
Qed.

(** The cleanup of the debounce effect leaves no search timer. *)
Lemma clearDebounce_noSearchTimers (s : State) :
  debounceOnly s -> noSearchTimers (applyAction ClearDebounce s).
Proof.
  unfold debounceOnly, noSearchTimers. intros D. simpl.
  destruct (debounceTimer s) as [id|] eqn:E; simpl.
  - intros t Hi. apply filter_In in Hi. destruct Hi as [Hi Hid].
    destruct (isTabCallback (callback t)) eqn:C; [reflexivity|].
    pose proof (D t Hi C) as Hd. inversion Hd; subst id.
    rewrite Nat.eqb_refl in Hid. discriminate Hid.
  - intros t Hi. destruct (isTabCallback (callback t)) eqn:C; [reflexivity|].
    pose proof (D t Hi C) as Hd. discriminate Hd.
Qed.

Lemma startDebounce_debounceOnly (q : string) (s : State) :
  noSearchTimers s -> debounceOnly (applyAction (StartDebounce q) s).
Proof.
  unfold debounceOnly, noSearchTimers. intros Ns t Hi C. simpl in *.
  apply in_app_or in Hi. destruct Hi as [Hi|[<-|[]]]; [|reflexivity].
  rewrite (Ns t Hi) in C. discriminate C.
Qed.

Lemma noSearchTimers_kept (acts : list Action) (s : State) :
  forallb keepsTimers acts = true -> noSearchTimers s ->
  noSearchTimers (applyActions acts s).
Proof.
  intros K Ns. pose proof (keepsTimers_actions acts s K) as V.
  unfold noSearchTimers.
  replace (timers (applyActions acts s)) with (timers s); [exact Ns|].
  symmetry. exact (f_equal (fun v => snd (fst (fst v))) V).
Qed.

(** The effects of a render: leaderboard actions and, around them when the
    query changed, the cleanup and the restart of the debounce. *)
Lemma effects_shape (prev cur : State) :
  exists mid,
    forallb keepsTimers mid = true /\ forallb plainAction mid = true /\
    effects prev cur
    = if negb (String.eqb (playerQuery prev) (playerQuery cur))
      then ClearDebounce :: mid ++ [ StartDebounce (playerQuery cur) ]
      else mid.
Proof.
  unfold effects.
  set (qc := negb (String.eqb (playerQuery prev) (playerQuery cur))).
  set (X := if negb (LeaderTab_eqb (leaderTab prev) (leaderTab cur))
            then [ SetLeadersLimit 10; SetCanLoadMore true ] else []).
  set (Y := if negb (AppTab_eqb (tab prev) (tab cur))
            then if AppTab_eqb (tab cur) TabLeaders
                 then [ SetLeadersLimit 10; SetCanLoadMore true ] else []
            else []).
  set (Z := if negb (LeaderTab_eqb (leaderTab prev) (leaderTab cur))
               || negb (leadersLimit prev =? leadersLimit cur)
               || negb (AppTab_eqb (tab prev) (tab cur))
            then if AppTab_eqb (tab cur) TabLeaders then fetchLeaders cur else []
            else []).
  exists (X ++ Y ++ Z).
  assert (F : forallb keepsTimers (fetchLeaders cur) = true
              /\ forallb plainAction (fetchLeaders cur) = true)
    by (unfold fetchLeaders; destruct (IMPLEMENTED_ROUTES (leaderTab cur)); split; reflexivity).
  destruct F as [F1 F2].
  split; [|split].
  - unfold X, Y, Z. repeat rewrite forallb_app.
    repeat match goal with
           | |- context [if ?b then _ else _] => destruct b; simpl
           end;
      rewrite ?F1; reflexivity.
  - unfold X, Y, Z. repeat rewrite forallb_app.
    repeat match goal with
           | |- context [if ?b then _ else _] => destruct b; simpl
           end;
      rewrite ?F2; reflexivity.
  - destruct qc; simpl.
    + rewrite <- !app_assoc. reflexivity.
    + rewrite !app_nil_r. reflexivity.
Qed.

Lemma effects_debounceOnly (prev cur : State) :
  debounceOnly cur -> debounceOnly (applyActions (effects prev cur) cur).
Proof.
  intros D. destruct (effects_shape prev cur) as (mid & K & P & E). rewrite E.
  destruct (negb (String.eqb (playerQuery prev) (playerQuery cur))).
  - rewrite applyActions_cons, applyActions_app.
    apply startDebounce_debounceOnly, noSearchTimers_kept; [exact K|].
    apply clearDebounce_noSearchTimers, D.
  - apply debounceOnly_plains; assumption.
Qed.

Lemma debounceOnly_flush (passes : nat) (prev cur : State) :
  debounceOnly cur -> debounceOnly (flush passes prev cur).
Proof.
  revert prev cur. induction passes as [|k IH]; simpl; intros prev cur D; [exact D|].
  apply IH, effects_debounceOnly, D.
Qed.

Lemma debounceOnly_dispatch (code : State -> list Action) (s : State) :
  forallb plainAction (code s) = true -> debounceOnly s -> debounceOnly (dispatch code s).
Proof. intros P D. apply debounceOnly_flush, debounceOnly_plains; assumption. Qed.

Lemma timerFired_plain (cb : TimerCallback) (s : State) :
  forallb plainAction (timerFired cb s) = true.
Proof.
  destruct cb as [| |q]; simpl; try reflexivity.
  - destruct (pendingTabRef s); reflexivity.
  - unfold fetchPlayerSearch. destruct (isEmpty (trim q)); reflexivity.
Qed.

Lemma requestTabChange_plain (next : AppTab) (s : State) :
  forallb plainAction (requestTabChange next s) = true.
Proof.
  unfold requestTabChange.
  destruct (AppTab_eqb next (tab s)), (isTabTransitioning s); reflexivity.
Qed.

Lemma handle_plain (e : Event) (s : State) :
  forallb plainAction (handle e s) = true.
Proof.
  destruct e; simpl;
    repeat match goal with
           | |- context [if ?b then _ else _] => destruct b; simpl
           | |- context [match selectedPlayer s with _ => _ end] =>
               destruct (selectedPlayer s); simpl
           | |- context [match nth_error ?l ?i with _ => _ end] =>
               destruct (nth_error l i); simpl
           end;
    try reflexivity; try apply requestTabChange_plain.
  unfold jumpToPlayerFromLeader. rewrite forallb_app, requestTabChange_plain. reflexivity.
Qed.

Lemma settled_plain (req : Request) (r : Reply) (acts : list Action) :
  settled req r = Some acts -> forallb plainAction acts = true.
Proof.
  destruct req as [url limit|q|playerId name|id w], r as [r|r|r];
    try discriminate; intros H; inversion H; subst acts; clear H.
  - destruct r as [|[|] [| |d]]; reflexivity.
  - destruct r as [|ok [| |d]]; reflexivity.
  - destruct (jumpSettled_cases playerId r) as [(p & _ & E)|[E|E]]; rewrite E; reflexivity.
  - destruct r as [|ok [| |d]]; reflexivity.
Qed.

Lemma debounceOnly_runTimers (fuel : nat) (deadline : Z) (s : State) :
  debounceOnly s -> debounceOnly (runTimers fuel deadline s).
Proof.
  revert s. induction fuel as [|fuel IH]; simpl; intros s D; [exact D|].
  destruct (nextDue (timers s)) as [u|]; [|exact D].
  destruct (due u <=? deadline); [|exact D].
  apply IH, debounceOnly_dispatch; [apply timerFired_plain|].
  intros t Hi C. simpl in Hi. apply filter_In in Hi. apply (D t (proj1 Hi) C).
Qed.

Lemma debounceOnly_step (e : Event) (s : State) :
  debounceOnly s -> debounceOnly (step e s).
Proof.
  intros D. destruct e;
    try (apply debounceOnly_dispatch; [apply handle_plain | exact D]).
  - simpl. unfold elapse. apply (debounceOnly_runTimers _ _ s D).
  - simpl. destruct (nth_error (inflight s) k) as [req|]; [|exact D].
    destruct (settled req r) as [acts|] eqn:S; [|exact D].
    apply debounceOnly_dispatch; [exact (settled_plain _ _ _ S) | exact D].
Qed.

(** Every state the mounted component can reach has fresh timer ids and
    no search timer but the one of the debounce effect. *)
Lemma reachable_timers (evs : list Event) :
  freshIds (run evs mounted) /\ debounceOnly (run evs mounted).
Proof.
  induction evs as [|e evs IH] using rev_ind.
  - split; intros t Hi; vm_compute in Hi; destruct Hi as [<-|[]].
    + vm_compute. lia.
    + intros _. reflexivity.
  - rewrite run_snoc. destruct IH as [F D].
    split; [apply freshIds_step, F | apply debounceOnly_step, D].
Qed.



(** *** Well-formed timers *)

Lemma NoDup_map_filter {A B : Type} (f : A -> B) (g : A -> bool) (l : list A) :
  NoDup (map f l) -> NoDup (map f (filter g l)).
Proof.
  induction l as [|x l IH]; simpl; intros H; [constructor|].
  inversion H as [|? ? Hx Hl]; subst.
  destruct (g x); simpl; [|apply IH, Hl].
  constructor; [|apply IH, Hl].
  intros Hi. apply Hx. apply in_map_iff in Hi. destruct Hi as (y & E & Hy).
  apply in_map_iff. exists y. split; [exact E|]. apply filter_In in Hy. apply Hy.
Qed.

Lemma NoDup_map_inj {A B : Type} (f : A -> B) (l : list A) (x y : A) :
  NoDup (map f l) -> In x l -> In y l -> f x = f y -> x = y.
Proof.
  induction l as [|z l IH]; simpl; intros H Hx Hy E; [contradiction|].
  inversion H as [|? ? Hz Hl]; subst.
  destruct Hx as [<-|Hx], Hy as [<-|Hy].
  - reflexivity.
  - exfalso. apply Hz. rewrite E. apply in_map, Hy.
  - exfalso. apply Hz. rewrite <- E. apply in_map, Hx.
  - apply IH; assumption.
Qed.

Lemma NoDup_ids_snoc (l : list Timer) (t : Timer) :
  NoDup (map timer_id l) ->
  (forall u, In u l -> (timer_id u < timer_id t)%nat) ->
  NoDup (map timer_id (l ++ [t])).
Proof.
  intros H F. rewrite map_app. simpl.
  apply NoDup_app; [exact H | constructor; [intros [] | constructor] |].
  intros i Hi [<-|[]]. apply in_map_iff in Hi. destruct Hi as (u & E & Hu).
  specialize (F u Hu). lia.
Qed.

Lemma timersWf_newTimer (cb : TimerCallback) (ms : Z) (s : State) :
  timersWf s -> timersWf (newTimer cb ms s).
Proof.
  intros (F & N & D). unfold timersWf, freshIds, newTimer. simpl.
  split; [|split].
  - intros t Hi. apply in_app_or in Hi. destruct Hi as [Hi|[<-|[]]].
    + specialize (F t Hi). lia.
    + simpl. lia.
  - apply NoDup_ids_snoc; [exact N|]. intros u Hu. simpl. apply F, Hu.
  - intros i E. destruct (D i E) as [L S]. split; [lia|].
    intros t Hi Id. apply in_app_or in Hi. destruct Hi as [Hi|[<-|[]]].
    + apply S; assumption.
    + simpl in Id. lia.
Qed.

Lemma timersWf_action (a : Action) (s : State) :
  timersWf s -> timersWf (applyAction a s).
Proof.
  intros W. destruct a; simpl; try exact W.
  - apply timersWf_newTimer, W.
  - pose proof (timersWf_newTimer (CbSearch q) 250 s W) as (F & N & _).
    destruct W as (F0 & _ & _).
    split; [exact F | split; [exact N|]].
    simpl. intros i E. inversion E; subst i. split; [lia|].
    intros t Hi Id. apply in_app_or in Hi. destruct Hi as [Hi|[<-|[]]].
    + specialize (F0 t Hi). lia.
    + reflexivity.
  - destruct (debounceTimer s) as [id|]; [|exact W].
    destruct W as (F & N & _). split; [|split].
    + intros t Hi. simpl in Hi. apply filter_In in Hi. apply F, Hi.
    + simpl. apply NoDup_map_filter, N.
    + intros i E. discriminate E.
Qed.

Lemma timersWf_actions (acts : list Action) (s : State) :
  timersWf s -> timersWf (applyActions acts s).
Proof.
  revert s. induction acts as [|a acts IH]; simpl; intros s W; [exact W|].
  apply IH, timersWf_action, W.
Qed.

Lemma timersWf_flush (passes : nat) (prev cur : State) :
  timersWf cur -> timersWf (flush passes prev cur).
Proof.
  revert prev cur. induction passes as [|k IH]; simpl; intros prev cur W; [exact W|].
  apply IH, timersWf_actions, W.
Qed.

Lemma timersWf_dispatch (code : State -> list Action) (s : State) :
  timersWf s -> timersWf (dispatch code s).
Proof. intros W. apply timersWf_flush, timersWf_actions, W. Qed.

Lemma timersWf_cleared (id : nat) (v : Z) (s : State) :
  timersWf s -> timersWf (with_now v (clearTimeout id s)).
Proof.
  intros (F & N & D). split; [|split].
  - intros t Hi. simpl in Hi. apply filter_In in Hi. apply F, Hi.
  - simpl. apply NoDup_map_filter, N.
  - simpl. intros i E. destruct (D i E) as [L S]. split; [exact L|].
    intros t Hi. apply filter_In in Hi. apply S, Hi.
Qed.

(** *** The tab machine and its timers *)

Lemma filter_absorb {A : Type} (f g : A -> bool) (l : list A) :
  (forall x, In x l -> f x = true -> g x = true) ->
  filter f (filter g l) = filter f l.
Proof.
  induction l as [|x l IH]; simpl; intros H; [reflexivity|].
  assert (IH' : filter f (filter g l) = filter f l)
    by (apply IH; intros y Hy; apply H; right; exact Hy).
  destruct (g x) eqn:G; simpl.
  - rewrite IH'. reflexivity.
  - destruct (f x) eqn:Fx; [|exact IH'].
    rewrite (H x (or_introl eq_refl) Fx) in G. discriminate G.
Qed.

Lemma filter_swap {A : Type} (f g : A -> bool) (l : list A) :
  filter f (filter g l) = filter g (filter f l).
Proof.
  induction l as [|x l IH]; simpl; [reflexivity|].
  destruct (g x) eqn:G, (f x) eqn:Fx; simpl; rewrite ?G, ?Fx, IH; reflexivity.
Qed.

Lemma tabQuiet_sound (a : Action) (s : State) :
  timersWf s -> tabQuiet a = true ->
  tabTimers (applyAction a s) = tabTimers s /\
  isTabTransitioning (applyAction a s) = isTabTransitioning s.
Proof.
  intros (_ & _ & D) Q. unfold tabTimers.
  destruct a; try discriminate; simpl; try (split; reflexivity).
  - rewrite filter_app. simpl. rewrite app_nil_r. split; reflexivity.
  - destruct (debounceTimer s) as [id|] eqn:E; simpl; [|split; reflexivity].
    split; [|reflexivity].
    apply filter_absorb. intros t Hi C.
    apply negb_true_iff, Nat.eqb_neq. intros Id.
    destruct (D id eq_refl) as [_ S]. rewrite (S t Hi Id) in C. discriminate C.
Qed.

Lemma tabInv_quiet (a : Action) (s : State) :
  timersWf s -> tabInv s -> tabQuiet a = true -> tabInv (applyAction a s).
Proof.
  intros W I Q. destruct (tabQuiet_sound a s W Q) as [E1 E2].
  unfold tabInv in *. rewrite E1, E2. exact I.
Qed.

Lemma tabInv_quiets (acts : list Action) (s : State) :
  timersWf s -> tabInv s -> forallb tabQuiet acts = true ->
  tabInv (applyActions acts s).
Proof.
  revert s. induction acts as [|a acts IH]; simpl; intros s W I Q; [exact I|].
  apply andb_prop in Q. destruct Q as [Qa Qs].
  apply IH; [apply timersWf_action, W | apply tabInv_quiet; assumption | exact Qs].
Qed.

Lemma tabInv_requestTabChange (next : AppTab) (s : State) :
  tabInv s -> tabInv (applyActions (requestTabChange next s) s).
Proof.
  intros I. unfold requestTabChange.
  destruct (AppTab_eqb next (tab s)); [exact I|].
  destruct (isTabTransitioning s) eqn:T; [exact I|].
  unfold tabInv in *. rewrite T in I. simpl.
  left. eexists. eexists. unfold tabTimers in *. simpl.
  rewrite !filter_app, I. simpl.
  split; [reflexivity|]. split; [reflexivity|]. split; [reflexivity|].
  simpl. unfold TAB_SWAP_MS, TAB_UNLOCK_MS. lia.
Qed.

Lemma effects_tabQuiet (prev cur : State) :
  forallb tabQuiet (effects prev cur) = true.
Proof.
  pose proof (effects_vocabulary prev cur) as H.
  rewrite forallb_forall in *. intros a Ha. specialize (H a Ha).
  destruct a; try discriminate; reflexivity.
Qed.

Lemma tabInv_flush (passes : nat) (prev cur : State) :
  timersWf cur -> tabInv cur -> tabInv (flush passes prev cur).
Proof.
  revert prev cur. induction passes as [|k IH]; simpl; intros prev cur W I; [exact I|].
  apply IH; [apply timersWf_actions, W|].
  apply tabInv_quiets; [exact W | exact I | apply effects_tabQuiet].
Qed.

(** A piece of code that is a tab request followed by quiet actions. *)
Lemma tabInv_dispatch (code : State -> list Action) (next : AppTab)
  (quiet : list Action) (s : State) :
  code s = requestTabChange next s ++ quiet -> forallb tabQuiet quiet = true ->
  timersWf s -> tabInv s -> tabInv (dispatch code s).
Proof.
  intros E Q W I. unfold dispatch, commit. rewrite E.
  apply tabInv_flush; [apply timersWf_actions, W|].
  rewrite applyActions_app.
  apply tabInv_quiets; [apply timersWf_actions, W | | exact Q].
  apply tabInv_requestTabChange, I.
Qed.

Lemma requestTabChange_same (s : State) : requestTabChange (tab s) s = [].
Proof. apply requestTabChange_noop. left. reflexivity. Qed.

Lemma tabInv_dispatch_quiet (code : State -> list Action) (s : State) :
  forallb tabQuiet (code s) = true ->
  timersWf s -> tabInv s -> tabInv (dispatch code s).
Proof.
  intros Q. apply (tabInv_dispatch code (tab s) (code s)); [|exact Q].
  rewrite requestTabChange_same. reflexivity.
Qed.

Lemma handle_shape (e : Event) (s : State) :
  exists next quiet,
    handle e s = requestTabChange next s ++ quiet /\ forallb tabQuiet quiet = true.
Proof.
  destruct e; simpl;
    try (exists (tab s); rewrite requestTabChange_same; simpl;
         repeat match goal with
                | |- context [if ?b then _ else _] => destruct b; simpl
                | |- context [match selectedPlayer s with _ => _ end] =>
                    destruct (selectedPlayer s); simpl
                | |- context [match nth_error ?l ?i with _ => _ end] =>
                    destruct (nth_error l i); simpl
                end;
         eexists; split; reflexivity).
  - exists v, []. rewrite app_nil_r. split; reflexivity.
  - destruct (AppTab_eqb (tab s) TabLeaders && negb (Status_eqb (leadersStatus s) Loading));
      [|exists (tab s), []; rewrite requestTabChange_same; split; reflexivity].
    destruct (nth_error (leaders s) i) as [row|];
      [|exists (tab s), []; rewrite requestTabChange_same; split; reflexivity].
    exists TabPlayer. eexists. split; [reflexivity | reflexivity].
Qed.

Lemma settled_tabQuiet (req : Request) (r : Reply) (acts : list Action) :
  settled req r = Some acts -> forallb tabQuiet acts = true.
Proof.
  destruct req as [url limit|q|playerId name|id w], r as [r|r|r];
    try discriminate; intros H; inversion H; subst acts; clear H.
  - destruct r as [|[|] [| |d]]; reflexivity.
  - destruct r as [|ok [| |d]]; reflexivity.
  - destruct (jumpSettled_cases playerId r) as [(p & _ & E)|[E|E]]; rewrite E; reflexivity.
  - destruct r as [|ok [| |d]]; reflexivity.
Qed.

Lemma nextDue_cons_other (x y : Timer) (l : list Timer) :
  nextDue (x :: l) = Some y -> y <> x -> due y < due x.
Proof.
  simpl. destruct (nextDue l) as [v|].
  - destruct (due v <? due x) eqn:C; intros H N; inversion H; subst.
    + apply Z.ltb_lt, C.
    + contradiction.
  - intros H N. inversion H; subst. contradiction.
Qed.

Lemma filter_head_split {A : Type} (f : A -> bool) (l : list A) (x : A)
  (rest : list A) :
  filter f l = x :: rest ->
  exists l1 l2, l = l1 ++ x :: l2 /\ filter f l1 = [] /\ filter f l2 = rest.
Proof.
  induction l as [|y l IH]; simpl; [discriminate|].
  destruct (f y) eqn:Fy.
  - intros H. inversion H; subst. exists [], l. repeat split.
  - intros H. destruct (IH H) as (l1 & l2 & E & F1 & F2).
    exists (y :: l1), l2. simpl. rewrite Fy, E. repeat split; assumption.
Qed.

Lemma filter_nil_all {A : Type} (f : A -> bool) (l : list A) :
  filter f l = [] -> forall x, In x l -> f x = false.
Proof.
  induction l as [|y l IH]; simpl; intros H x Hx; [contradiction|].
  destruct (f y) eqn:Fy; [discriminate|].
  destruct Hx as [<-|Hx]; [exact Fy | apply IH; assumption].
Qed.

Lemma filter_all {A : Type} (f : A -> bool) (l : list A) :
  (forall x, In x l -> f x = true) -> filter f l = l.
Proof.
  induction l as [|y l IH]; simpl; intros H; [reflexivity|].
  rewrite (H y (or_introl eq_refl)), IH; [reflexivity|].
  intros x Hx. apply H. right. exact Hx.
Qed.

(** The unlock timer does not fire while the swap timer, set before it
    and due no later, is pending. *)
Lemma unlock_after_swap (f : Timer -> bool) (l : list Timer) (sw ul : Timer) :
  filter f l = [sw; ul] -> sw <> ul -> nextDue l = Some ul -> due ul < due sw.
Proof.
  intros Hf N Hn.
  destruct (filter_head_split f l sw [ul] Hf) as (l1 & l2 & E & F1 & _).
  rewrite E in Hn. destruct (nextDue_app _ _ _ Hn) as [I|[I _]].
  - assert (Fu : f ul = true).
    { assert (Hi : In ul (filter f l)) by (rewrite Hf; right; left; reflexivity).
      apply filter_In in Hi. apply Hi. }
    rewrite (filter_nil_all f l1 F1 ul I) in Fu. discriminate Fu.
  - apply (nextDue_cons_other sw ul l2 I). congruence.
Qed.

Lemma tabTimers_cleared (u : Timer) (v : Z) (s : State) :
  tabTimers (with_now v (clearTimeout (timer_id u) s))
  = filter (fun t => negb (Nat.eqb (timer_id t) (timer_id u))) (tabTimers s).
Proof. unfold tabTimers. simpl. apply filter_swap. Qed.

(** Firing the timer that is due first keeps the tab machine and its
    timers in step. *)
Lemma tabInv_fired (s : State) (u : Timer) (v : Z) :
  timersWf s -> tabInv s -> nextDue (timers s) = Some u ->
  tabInv (dispatch (timerFired (callback u))
            (with_now v (clearTimeout (timer_id u) s))).
Proof.
  intros W I Hn.
  pose proof (nextDue_In _ _ Hn) as Hu.
  pose proof (timersWf_cleared (timer_id u) v s W) as W'.
  destruct W as (_ & N & _).
  assert (Inj : forall x, In x (timers s) -> timer_id x = timer_id u -> x = u)
    by (intros x Hx E; apply (NoDup_map_inj timer_id (timers s) x u N Hx Hu E)).
  assert (InTab : forall x, In x (tabTimers s) ->
                            In x (timers s) /\ isTabCallback (callback x) = true)
    by (intros x Hx; apply filter_In in Hx; exact Hx).
  set (s' := with_now v (clearTimeout (timer_id u) s)) in *.
  assert (T' : isTabTransitioning s' = isTabTransitioning s) by reflexivity.
  pose proof (tabTimers_cleared u v s) as C. fold s' in C.
  destruct (callback u) as [| |q] eqn:Cb.
  - (* the swap timer *)
    apply tabInv_dispatch_quiet;
      [simpl; match goal with
              | |- context [match ?x with Some _ => _ | None => _ end] => destruct x
              end; reflexivity
      | exact W'|].
    assert (Ut : In u (tabTimers s))
      by (apply filter_In; split; [exact Hu | rewrite Cb; reflexivity]).
    unfold tabInv in *. rewrite T'.
    destruct (isTabTransitioning s).
    + destruct I as [(sw & ul & E & Csw & Cul & L)|(ul & E & Cul)].
      * rewrite E in Ut. destruct Ut as [<-|[<-|[]]]; [|congruence].
        right. exists ul. split; [|exact Cul].
        rewrite C, E. simpl. rewrite Nat.eqb_refl. simpl.
        replace (Nat.eqb (timer_id ul) (timer_id sw)) with false; [reflexivity|].
        symmetry. apply Nat.eqb_neq. intros Id.
        assert (Hul : In ul (tabTimers s)) by (rewrite E; right; left; reflexivity).
        pose proof (Inj ul (proj1 (InTab ul Hul)) Id). congruence.
      * rewrite E in Ut. destruct Ut as [<-|[]]. congruence.
    + rewrite I in Ut. contradiction.
  - (* the unlock timer *)
    assert (Ut : In u (tabTimers s))
      by (apply filter_In; split; [exact Hu | rewrite Cb; reflexivity]).
    assert (Gone : tabTimers s' = []).
    { unfold tabInv in I. destruct (isTabTransitioning s).
      - destruct I as [(sw & ul & E & Csw & Cul & L)|(ul & E & Cul)].
        + rewrite E in Ut. destruct Ut as [<-|[<-|[]]]; [congruence|].
          exfalso.
          assert (Lt : due ul < due sw).
          { apply (unlock_after_swap _ (timers s) sw ul E); [congruence | exact Hn]. }
          lia.
        + rewrite E in Ut. destruct Ut as [<-|[]].
          rewrite C, E. simpl. rewrite Nat.eqb_refl. reflexivity.
      - rewrite I in Ut. contradiction. }
    unfold dispatch, commit. simpl timerFired.
    apply tabInv_flush; [apply timersWf_actions, W'|].
    unfold tabInv. simpl. exact Gone.
  - (* a search timer *)
    apply tabInv_dispatch_quiet;
      [simpl; unfold fetchPlayerSearch; destruct (isEmpty (trim q)); reflexivity
      | exact W'|].
    unfold tabInv in *. rewrite T', C.
    rewrite filter_all; [exact I|].
    intros x Hx. apply negb_true_iff, Nat.eqb_neq. intros Id.
    destruct (InTab x Hx) as [Hx' Cx].
    rewrite (Inj x Hx' Id), Cb in Cx. discriminate Cx.
Qed.

Lemma wf_runTimers (fuel : nat) (deadline : Z) (s : State) :
  timersWf s -> tabInv s ->
  timersWf (runTimers fuel deadline s) /\ tabInv (runTimers fuel deadline s).
Proof.
  revert s. induction fuel as [|fuel IH]; simpl; intros s W I; [split; assumption|].
  destruct (nextDue (timers s)) as [u|] eqn:N; [|split; assumption].
  destruct (due u <=? deadline); [|split; assumption].
  apply IH.
  - apply timersWf_dispatch, timersWf_cleared, W.
  - apply tabInv_fired; assumption.
Qed.

Lemma wf_step (e : Event) (s : State) :
  timersWf s -> tabInv s -> timersWf (step e s) /\ tabInv (step e s).
Proof.
  intros W I.
  assert (Handled : timersWf (dispatch (handle e) s) /\ tabInv (dispatch (handle e) s)).
  { split; [apply timersWf_dispatch, W|].
    destruct (handle_shape e s) as (next & quiet & E & Q).
    apply (tabInv_dispatch (handle e) next quiet s E Q W I). }
  destruct e; try exact Handled.
  - simpl. unfold elapse.
    destruct (wf_runTimers (List.length (timers s)) (now s + Z.max 0 ms) s W I) as [W1 I1].
    split; [exact W1 | exact I1].
  - simpl. destruct (nth_error (inflight s) k) as [req|]; [|split; assumption].
    destruct (settled req r) as [acts|] eqn:S; [|split; assumption].
    split; [apply timersWf_dispatch, W|].
    apply tabInv_dispatch_quiet; [exact (settled_tabQuiet _ _ _ S) | exact W | exact I].
Qed.

(** Every state the mounted component can reach has well-formed timers,
    in step with the tab machine. *)
Lemma reachable_wf (evs : list Event) :
  timersWf (run evs mounted) /\ tabInv (run evs mounted).
Proof.
  induction evs as [|e evs IH] using rev_ind.
  - split; [|reflexivity].
    split; [|split].
    + intros t Hi. vm_compute in Hi. destruct Hi as [<-|[]]. vm_compute. lia.
    + vm_compute. constructor; [intros [] | constructor].
    + intros i E. vm_compute in E. inversion E; subst i. split; [vm_compute; lia|].
      intros t Hi _. vm_compute in Hi. destruct Hi as [<-|[]]. reflexivity.
  - rewrite run_snoc. destruct IH as [W I]. apply wf_step; assumption.
Qed.

Lemma idle_noTabTimers (s : State) :
  tabInv s -> isTabTransitioning s = false -> noTabTimers s.
Proof.
  unfold tabInv. intros I T. rewrite T in I.
  intros t Hi. apply (filter_nil_all _ _ I t Hi).
Qed.

(** *** The tab transition on the clock *)

(** Two requests in a row from an idle state: the second changes
    nothing. *)
Lemma second_request_ignored (s : State) (a b : AppTab) :
  isTabTransitioning s = false -> a <> tab s ->
  step (TabClicked a) s
  = applyActions
      [ WritePendingTabRef (Some a); SetIsTabTransitioning true;
        SetTimeout CbTabSwap TAB_SWAP_MS; SetTimeout CbTabUnlock TAB_UNLOCK_MS ] s /\
  step (TabClicked b) (step (TabClicked a) s) = step (TabClicked a) s.
Proof.
  intros I N.
  assert (E1 : step (TabClicked a) s = applyActions (requestTabChange a s) s).
  { simpl. apply dispatch_sameDeps.
    rewrite (requestTabChange_starts a s I N). repeat split. }
  rewrite (requestTabChange_starts a s I N) in E1.
  split; [exact E1|].
  simpl step at 1. apply dispatch_nothing, requestTabChange_noop.
  right. rewrite E1. reflexivity.
Qed.

Lemma swapPending_fired (a : AppTab) (sw : Timer) (s : State) (u : Timer) :
  callback sw = CbTabSwap ->
  swapPending a sw s -> In u (timers s) ->
  isTabCallback (callback u) = false \/ u = sw ->
  swapPending a sw
    (dispatch (timerFired (callback u))
       (with_now (Z.max (now s) (due u)) (clearTimeout (timer_id u) s))).
Proof.
  intros Csw (P & T & W & Ids) Hu E.
  set (s' := with_now (Z.max (now s) (due u)) (clearTimeout (timer_id u) s)).
  assert (Acts : timerFired (callback u) s' = [ SetTab a ]
                 \/ (isTabCallback (callback u) = false /\
                     forall x, tab (applyActions (timerFired (callback u) s') x) = tab x)).
  { destruct E as [E|E].
    - right. split; [exact E|]. destruct (callback u) as [| |q]; try discriminate.
      intros x. simpl. unfold fetchPlayerSearch. destruct (isEmpty (trim q)); reflexivity.
    - left. subst u. rewrite Csw. simpl. rewrite P. reflexivity. }
  assert (Keep : pendingTabRef (applyActions (timerFired (callback u) s') s') = Some a /\
                 isTabTransitioning (applyActions (timerFired (callback u) s') s') = true).
  { destruct Acts as [A|[C _]].
    - rewrite A. simpl. split; assumption.
    - destruct (callback u) as [| |q]; try discriminate.
      simpl. unfold fetchPlayerSearch. destruct (isEmpty (trim q)); simpl; split; assumption. }
  destruct Keep as [K1 K2].
  unfold swapPending, dispatch.
  rewrite commit_pendingTabRef, commit_isTabTransitioning, commit_tab.
  split; [exact K1|]. split; [exact K2|].
  fold (dispatch (timerFired (callback u)) s'). unfold s'.
  rewrite timers_after_firing.
  split.
  - destruct Acts as [A|[C Tab]].
    + right. fold s'. rewrite A. reflexivity.
    + destruct W as [W|W].
      * left. apply filter_In. split; [exact W|].
        apply negb_true_iff, Nat.eqb_neq. intros Eq. apply (Ids u Hu C). congruence.
      * right. fold s'. rewrite Tab. exact W.
  - intros t Hi C. apply filter_In in Hi. apply (Ids t (proj1 Hi) C).
Qed.

(** From an idle state, two requests in a row and the swap delay: the tab
    is the first target and the input is unlocked. *)
Lemma tab_swap_on_the_clock (s : State) (a b : AppTab) :
  isTabTransitioning s = false -> a <> tab s -> noTabTimers s -> freshIds s ->
  let s3 := run [ TabClicked a; TabClicked b; Elapsed TAB_SWAP_MS ] s in
  tab s3 = a /\ isTabTransitioning s3 = false /\ pendingTabRef s3 = None.
Proof.
  intros I N NT F s3.
  destruct (second_request_ignored s a b I N) as [E1 E2].
  set (sw := {| timer_id := nextTimerId s; due := now s + TAB_SWAP_MS;
                callback := CbTabSwap |}).
  set (ul := {| timer_id := S (nextTimerId s); due := now s + TAB_UNLOCK_MS;
                callback := CbTabUnlock |}).
  set (s1 := step (TabClicked a) s) in *.
  assert (Ht : timers s1 = (timers s ++ [sw]) ++ [ul]).
  { rewrite E1. reflexivity. }
  assert (Now : now s1 = now s) by (rewrite E1; reflexivity).
  assert (Inv1 : swapPending a sw s1).
  { unfold swapPending. rewrite Ht, E1. simpl.
    split; [reflexivity|]. split; [reflexivity|]. split.
    - left. apply in_or_app. left. apply in_or_app. right. left. reflexivity.
    - intros t Hi C. apply in_app_or in Hi. destruct Hi as [Hi|[<-|[]]].
      + apply in_app_or in Hi. destruct Hi as [Hi|[<-|[]]].
        * pose proof (F t Hi). lia.
        * discriminate C.
      + discriminate C. }
  destruct (runTimers_last (swapPending a sw)
              (fun t => isTabCallback (callback t) = false \/ t = sw)
              (fun x u H Hu E => swapPending_fired a sw x u eq_refl H Hu E)
              (List.length (timers s ++ [sw])) (List.length (timers s1)) s1 ul
              (timers s ++ [sw]))
    as (s0 & late & R & (P0 & T0 & W0 & _) & Ht0 & Late); try exact Ht; try exact Inv1;
    try lia.
  { rewrite Ht, !length_app. simpl. lia. }
  { intros t Hi. apply in_app_or in Hi. destruct Hi as [Hi|[<-|[]]].
    - split; [left; apply NT, Hi|]. pose proof (F t Hi). simpl. lia.
    - split; [right; reflexivity|]. simpl. lia. }
  assert (Tab0 : tab s0 = a).
  { destruct W0 as [W0|W0]; [|exact W0].
    rewrite Ht0 in W0. apply in_app_or in W0. destruct W0 as [W0|[W0|[]]].
    - destruct (Late sw W0) as [L _]. simpl in L. unfold TAB_SWAP_MS, TAB_UNLOCK_MS in L. lia.
    - discriminate W0. }
  assert (E3 : s3 = with_now (now s1 + Z.max 0 TAB_SWAP_MS)
                      (runTimers (List.length (timers s1)) (due ul) s1)).
  { assert (E : s3 = elapse TAB_SWAP_MS (step (TabClicked b) s1)) by reflexivity.
    rewrite E2 in E. rewrite E. unfold elapse.
    replace (now s1 + Z.max 0 TAB_SWAP_MS) with (due ul)
      by (simpl; rewrite Now; unfold TAB_SWAP_MS, TAB_UNLOCK_MS; lia).
    reflexivity. }
  rewrite E3, R.
  cbn [tab isTabTransitioning pendingTabRef with_now].
  unfold dispatch.
  rewrite commit_tab, commit_isTabTransitioning, commit_pendingTabRef.
  simpl. repeat split. exact Tab0.
Qed.

(** C8: [requestTabChange next] does nothing when [next] is the active tab
    or a transition is under way; so of two requests in quick succession
    the second does nothing: one swap timer is set, and when it fires the
    tab becomes the first target; from every reachable idle state, once
    the swap delay has elapsed, the tab is the first target and the input
    is unlocked. *)
Theorem tab_change_requested_once (s : State) (a b : AppTab) :
  (forall next,
     next = tab s \/ isTabTransitioning s = true ->
     requestTabChange next s = [] /\ step (TabClicked next) s = s) /\
  (isTabTransitioning s = false -> a <> tab s ->
   let s1 := step (TabClicked a) s in
   let s2 := step (TabClicked b) s1 in
   s2 = s1 /\
   tab s2 = tab s /\ isTabTransitioning s2 = true /\ pendingTabRef s2 = Some a /\
   timers s2
   = timers s
     ++ [ {| timer_id := nextTimerId s; due := now s + TAB_SWAP_MS;
             callback := CbTabSwap |};
          {| timer_id := S (nextTimerId s); due := now s + TAB_UNLOCK_MS;
             callback := CbTabUnlock |} ] /\
   tab (dispatch (timerFired CbTabSwap) s2) = a) /\
  (forall evs,
     s = run evs mounted -> isTabTransitioning s = false -> a <> tab s ->
     let s3 := run [ TabClicked a; TabClicked b; Elapsed TAB_SWAP_MS ] s in
     tab s3 = a /\ isTabTransitioning s3 = false /\ pendingTabRef s3 = None).
Proof.
  split; [|split].
  - intros next H. pose proof (requestTabChange_noop next s H) as E.
    split; [exact E|]. simpl. apply dispatch_nothing. exact E.
  - intros I N s1 s2.
    destruct (second_request_ignored s a b I N) as [E1 E2].
    fold s1 in E1, E2. fold s2 in E2.
    rewrite E2. split; [reflexivity|].
    split; [rewrite E1; reflexivity|].
    split; [rewrite E1; reflexivity|].
    split; [rewrite E1; reflexivity|].
    split; [rewrite E1; simpl; rewrite <- app_assoc; reflexivity|].
    unfold dispatch. rewrite commit_tab. unfold timerFired.
    replace (pendingTabRef s1) with (Some a) by (rewrite E1; reflexivity).
    reflexivity.
  - intros evs -> I N.
    destruct (reachable_wf evs) as [(F & _ & _) Inv].
    apply tab_swap_on_the_clock; [exact I | exact N | | exact F].
    apply idle_noTabTimers; assumption.
Qed.

Lemma tab_change_requested_once_witness :
  isTabTransitioning mounted = false /\ TabPlayer <> tab mounted /\
  let s1 := step (TabClicked TabPlayer) mounted in
  let s2 := step (TabClicked TabLeaders) s1 in
  let s3 := run [ TabClicked TabPlayer; TabClicked TabLeaders; Elapsed TAB_SWAP_MS ]
              mounted in
  s2 = s1 /\ tab (dispatch (timerFired CbTabSwap) s2) = TabPlayer /\
  tab s3 = TabPlayer /\ isTabTransitioning s3 = false.
Proof.
  assert (I : isTabTransitioning mounted = false) by reflexivity.
  assert (N : TabPlayer <> tab mounted) by discriminate.
  split; [exact I|]. split; [exact N|].
  destruct (tab_change_requested_once mounted TabPlayer TabLeaders) as (_ & Two & Clock).
  destruct (Two I N) as (A & _ & _ & _ & _ & B).
  destruct (Clock [] eq_refl I N) as (C & D & _).
  split; [exact A|]. split; [exact B|]. split; [exact C | exact D].
Defined.

(** *** Entering the Leaders page *)

Lemma keepsTab_sound (a : Action) (s : State) :
  keepsTab a = true -> tab (applyAction a s) = tab s.
Proof.
  destruct a; try discriminate; intros _; simpl; try reflexivity.
  destruct (debounceTimer s); reflexivity.
Qed.

Lemma keepsTab_actions (acts : list Action) (s : State) :
  forallb keepsTab acts = true -> tab (applyActions acts s) = tab s.
Proof.
  revert s. induction acts as [|a acts IH]; simpl; intros s H; [reflexivity|].
  apply andb_prop in H. destruct H as [Ha Hs].
  rewrite (IH _ Hs). apply keepsTab_sound, Ha.
Qed.

Lemma requestTabChange_keepsTab (next : AppTab) (s : State) :
  forallb keepsTab (requestTabChange next s) = true.
Proof.
  unfold requestTabChange.
  destruct (AppTab_eqb next (tab s)), (isTabTransitioning s); reflexivity.
Qed.

Lemma handle_keepsTab (e : Event) (s : State) :
  forallb keepsTab (handle e s) = true.
Proof.
  destruct e; simpl;
    repeat match goal with
           | |- context [if ?b then _ else _] => destruct b; simpl
           | |- context [match selectedPlayer s with _ => _ end] =>
               destruct (selectedPlayer s); simpl
           | |- context [match nth_error ?l ?i with _ => _ end] =>
               destruct (nth_error l i); simpl
           end;
    try reflexivity; try apply requestTabChange_keepsTab.
  unfold jumpToPlayerFromLeader. rewrite forallb_app, requestTabChange_keepsTab. reflexivity.
Qed.

Lemma settled_keepsTab (req : Request) (r : Reply) (acts : list Action) :
  settled req r = Some acts -> forallb keepsTab acts = true.
Proof.
  destruct req as [url limit|q|playerId name|id w], r as [r|r|r];
    try discriminate; intros H; inversion H; subst acts; clear H.
  - destruct r as [|[|] [| |d]]; reflexivity.
  - destruct r as [|ok [| |d]]; reflexivity.
  - destruct (jumpSettled_cases playerId r) as [(p & _ & E)|[E|E]]; rewrite E; reflexivity.
  - destruct r as [|ok [| |d]]; reflexivity.
Qed.

(** Only time passing changes the tab. *)
Lemma tab_changes_on_the_clock (e : Event) (s : State) :
  tab (step e s) <> tab s -> exists ms, e = Elapsed ms.
Proof.
  intros H. destruct e; try (exfalso; apply H; simpl; unfold dispatch;
                              rewrite commit_tab; apply keepsTab_actions, handle_keepsTab).
  - exists ms. reflexivity.
  - exfalso. apply H. simpl.
    destruct (nth_error (inflight s) k) as [req|]; [|reflexivity].
    destruct (settled req r) as [acts|] eqn:S; [|reflexivity].
    unfold dispatch. rewrite commit_tab.
    rewrite (keepsTab_actions _ _ (settled_keepsTab _ _ _ S)). reflexivity.
Qed.




(** *** What the return to the Leaders page shows *)













(** The same return with both requests answered, the one of the render of
    the swap, for thirty rows, last. *)
Example reentry_out_of_order :
  (tab returnedOutOfOrder, leadersLimit returnedOutOfOrder,
   leadersStatus returnedOutOfOrder, List.length (leaders returnedOutOfOrder),
   inflight returnedOutOfOrder)
  = (TabLeaders, 10, Ok, 30%nat, []).
Proof. vm_compute. reflexivity. Qed.



End AppFacts.

(** ** The standings page: what is shown *)

Module StandingsPageFacts.
Import Js Remote Standings JsFacts StandingsFacts.

Lemma Qle_bool_inject (a b : Z) :
  Qle_bool (inject_Z a) (inject_Z b) = (a <=? b)%Z.
Proof.
  destruct (Z.leb_spec a b) as [H|H].
  - apply Qle_bool_iff. rewrite <- Zle_Qle. exact H.
  - destruct (Qle_bool (inject_Z a) (inject_Z b)) eqn:E; [|reflexivity].
    apply Qle_bool_iff in E. rewrite <- Zle_Qle in E. lia.
Qed.

Lemma Qeq_bool_inject (a b : Z) :
  Qeq_bool (inject_Z a) (inject_Z b) = (a =? b)%Z.
Proof.
  destruct (Z.eqb_spec a b) as [H|H].
  - subst. apply Qeq_bool_iff. reflexivity.
  - destruct (Qeq_bool (inject_Z a) (inject_Z b)) eqn:E; [|reflexivity].
    apply Qeq_bool_iff in E. unfold Qeq in E. simpl in E. lia.
Qed.

Lemma hasSplit_spec (ts : list Team) :
  hasSplit ts = true <->
  exists t, In t ts /\
    (includes (lowerConference t) "east" = true \/
     includes (lowerConference t) "west" = true).
Proof.
  unfold hasSplit. rewrite orb_true_iff, !Z.ltb_lt. split.
  - intros [H|H].
    + destruct (east ts) as [|t l] eqn:E; [simpl in H; lia|].
      assert (I : In t (east ts)) by (rewrite E; left; reflexivity).
      apply filter_In in I. exists t. split; [apply I | left; apply I].
    + destruct (west ts) as [|t l] eqn:E; [simpl in H; lia|].
      assert (I : In t (west ts)) by (rewrite E; left; reflexivity).
      apply filter_In in I. exists t. split; [apply I | right; apply I].
  - intros (t & I & [H|H]); [left|right].
    + assert (J : In t (east ts)) by (apply filter_In; split; assumption).
      destruct (east ts); [destruct J | simpl; lia].
    + assert (J : In t (west ts)) by (apply filter_In; split; assumption).
      destruct (west ts); [destruct J | simpl; lia].
Qed.

(** X15: a standings reply that parses, whatever its HTTP status and
    whatever the collation of the host, commits exactly the teams it
    carries: none is lost, none is doubled. *)
Theorem standings_commit_every_team (lc : string -> string -> Z) (ok : bool)
  (ts : list Team) (s : StandingsState) :
  let s' := fetchFromDbSettled lc (Response ok (JsonValue {| resp_teams := Some ts |})) s in
  status s' = Ok /\ Permutation (teams s') ts /\
  List.length (teams s') = List.length ts.
Proof.
  cbn [fetchFromDbSettled fetched json prop andThen catch snd teams status nullish
       resp_teams].
  assert (P : Permutation (sortStandings lc ts) ts) by apply sort_perm.
  split; [reflexivity|]. split; [exact P | apply Permutation_length, P].
Qed.

(** X16: a standings fetch that is rejected, whose body is not JSON or
    whose body is the JSON null ends in the error box, the stored teams
    kept as they were; a JSON object without teams ends in status Ok and
    one empty table. *)
Theorem standings_failure_shows_error (lc : string -> string -> Z)
  (r : FetchResult StandingsResponse) (s : StandingsState) :
  (r = NetworkError \/ (exists ok, r = Response ok BadJson) \/
   (exists ok, r = Response ok JsonNull) ->
   let s' := fetchFromDbSettled lc r (fetchFromDb s) in
   status s' = Error /\ teams s' = teams s /\ render s' = FailedToLoad) /\
  (forall ok,
     let s' := fetchFromDbSettled lc (Response ok (JsonValue {| resp_teams := None |}))
                 (fetchFromDb s) in
     status s' = Ok /\ teams s' = [] /\ render s' = OneTable []).
Proof.
  split.
  - intros [->|[[ok ->]|[ok ->]]]; repeat split.
  - intros ok. repeat split.
Qed.

Lemma standings_failure_shows_error_witness :
  let s := {| status := Ok; teams := sampleTeams |} in
  let s' := fetchFromDbSettled codeUnitCompare (Response true JsonNull) (fetchFromDb s) in
  status s' = Error /\ teams s' = sampleTeams /\ render s' = FailedToLoad.
Proof.
  refine (proj1 (standings_failure_shows_error codeUnitCompare (Response true JsonNull)
                   {| status := Ok; teams := sampleTeams |}) _).
  right. right. exists true. reflexivity.
Defined.

(** X18: unless the status is Error, the page shows the East and West tabs
    as soon as one stored team has a conference that contains "east" or
    "west" in any letter case; a tab holds the stored teams with such a
    conference and a team with no conference is in neither tab.  When no
    team has such a conference, one table holds every stored team. *)
Theorem split_hides_unlabelled_teams (s : StandingsState) :
  status s <> Error ->
  ((exists t, In t (teams s) /\
      (includes (lowerConference t) "east" = true \/
       includes (lowerConference t) "west" = true)) ->
   exists e w,
     render s = EastWest e w /\
     (forall t, In t e <-> In t (teams s) /\ includes (lowerConference t) "east" = true) /\
     (forall t, In t w <-> In t (teams s) /\ includes (lowerConference t) "west" = true) /\
     (forall t, conference t = None -> ~ In t e /\ ~ In t w)) /\
  ((forall t, In t (teams s) ->
      includes (lowerConference t) "east" = false /\
      includes (lowerConference t) "west" = false) ->
   render s = OneTable (teams s)).
Proof.
  intros NE. unfold render.
  assert (S : Status_eqb (status s) Error = false)
    by (destruct (status s); try reflexivity; exfalso; apply NE; reflexivity).
  rewrite S. split.
  - intros H. apply hasSplit_spec in H. rewrite H.
    exists (east (teams s)), (west (teams s)).
    split; [reflexivity|]. split; [|split].
    + intros t. apply filter_In.
    + intros t. apply filter_In.
    + intros t C. unfold east, west. rewrite !filter_In. unfold lowerConference.
      rewrite C. split; intros [_ F]; discriminate F.
  - intros H. destruct (hasSplit (teams s)) eqn:E; [|reflexivity].
    apply hasSplit_spec in E. destruct E as (t & I & [F|F]);
      destruct (H t I) as [F1 F2]; congruence.
Qed.

Lemma split_hides_unlabelled_teams_witness :
  let s := {| status := Ok;
              teams := unrankedTeam "Pistons" "East" :: sampleTeams |} in
  exists e w,
    render s = EastWest e w /\
    (forall t, In t e <-> In t (teams s) /\ includes (lowerConference t) "east" = true) /\
    (forall t, In t w <-> In t (teams s) /\ includes (lowerConference t) "west" = true) /\
    (forall t, conference t = None -> ~ In t e /\ ~ In t w).
Proof.
  refine (proj1 (split_hides_unlabelled_teams
                   {| status := Ok;
                      teams := unrankedTeam "Pistons" "East" :: sampleTeams |} _) _).
  - simpl. discriminate.
  - exists (unrankedTeam "Pistons" "East"). split; [left; reflexivity | left; reflexivity].
Defined.

(** X19: for a whole-number rank the divider is drawn under a row exactly
    when the chip of the next rank has another tone, that is under rank 6
    (last playoff place) and under rank 10 (last play-in place); a team
    without rank has the neutral chip, shown as a dash, and no divider. *)
Theorem divider_where_the_tone_changes (r : Z) :
  (divider (Some (inject_Z r)) <> "" <->
   fst (rankChip (Some (inject_Z r))) <> fst (rankChip (Some (inject_Z (r + 1))))) /\
  (divider (Some (inject_Z r)) <> "" <-> r = 6 \/ r = 10) /\
  rankChip None = ("bg-slate-900/40 text-slate-200 border-slate-800", None) /\
  divider None = "".
Proof.
  unfold divider, rankChip. cbn [nullish fst].
  change 6%Q with (inject_Z 6). change 10%Q with (inject_Z 10).
  rewrite !Qle_bool_inject, !Qeq_bool_inject.
  split; [|split; [|split; reflexivity]].
  - destruct (Z.eqb_spec r 6) as [->|N6]; [split; intros _; discriminate|].
    destruct (Z.eqb_spec r 10) as [->|N10]; [split; intros _; discriminate|].
    split; [intros H; contradiction H; reflexivity|].
    intros H. exfalso. apply H.
    destruct (Z.leb_spec r 6), (Z.leb_spec (r + 1) 6); try lia; try reflexivity;
      destruct (Z.leb_spec r 10), (Z.leb_spec (r + 1) 10); try lia; reflexivity.
  - destruct (Z.eqb_spec r 6) as [->|N6]; [split; [intros _; left; reflexivity | intros _; discriminate]|].
    destruct (Z.eqb_spec r 10) as [->|N10]; [split; [intros _; right; reflexivity | intros _; discriminate]|].
    split; [intros H; contradiction H; reflexivity | intros [?|?]; contradiction].
Qed.

Section Unranked.
Variable localeCompare : string -> string -> Z.
Hypothesis east_first :
  (localeCompare "eastern conference" "western conference" < 0)%Z.
Hypothesis west_last :
  (0 < localeCompare "western conference" "eastern conference")%Z.

(** X17: in the East table and in the West table of a labelled list, no
    team with a playoff rank below 999 stands under a team without
    one. *)
Theorem unranked_teams_stand_last (ts : list Team) (s : StandingsState)
  (above below : Team) (l1 l2 l3 : list Team) (r : Q) :
  Forall conferenceLabelled ts ->
  let shown :=
    teams (fetchFromDbSettled localeCompare
             (Response true (JsonValue {| resp_teams := Some ts |})) s) in
  east shown = l1 ++ above :: l2 ++ below :: l3 \/
  west shown = l1 ++ above :: l2 ++ below :: l3 ->
  playoff_rank above = None -> playoff_rank below = Some r ->
  (999 <= r)%Q.
Proof.
  intros L shown H A B.
  assert (S : StronglySorted rankThenPct (l1 ++ above :: l2 ++ below :: l3)).
  { destruct H as [<-|<-]; subst shown;
      cbn [fetchFromDbSettled fetched json prop andThen catch snd teams nullish resp_teams].
    - apply (side_sorted localeCompare east_first west_last _ "eastern conference");
        [exact east_side | exact L].
    - apply (side_sorted localeCompare east_first west_last _ "western conference");
        [exact west_side | exact L]. }
  apply sorted_apart in S. unfold rankThenPct in S. cbv beta zeta in S.
  rewrite A, B in S. destruct S as [S|[S _]]; lra.
Qed.

End Unranked.

Lemma unranked_teams_stand_last_witness :
  let shown :=
    teams (fetchFromDbSettled codeUnitCompare
             (Response true (JsonValue {| resp_teams := Some sampleWithUnranked |}))
             unfetched) in
  map team_name (east shown) = [ Some "Celtics"; Some "Pistons" ] /\
  forall above below l1 l2 l3 r,
    east shown = l1 ++ above :: l2 ++ below :: l3 ->
    playoff_rank above = None -> playoff_rank below = Some r -> (999 <= r)%Q.
Proof.
  assert (E : (codeUnitCompare "eastern conference" "western conference" < 0)%Z)
    by reflexivity.
  assert (W : (0 < codeUnitCompare "western conference" "eastern conference")%Z)
    by reflexivity.
  assert (L : Forall conferenceLabelled sampleWithUnranked).
  { unfold sampleWithUnranked.
    repeat (apply Forall_cons;
            [ first [ left; eexists; split; reflexivity
                    | right; eexists; split; reflexivity ] | ]).
    apply Forall_nil. }
  split; [reflexivity|].
  intros above below l1 l2 l3 r H.
  exact (unranked_teams_stand_last codeUnitCompare E W sampleWithUnranked unfetched
           above below l1 l2 l3 r L (or_introl H)).
Defined.

End StandingsPageFacts.

(** ** The controller: further properties *)

Module ControllerFacts.
Import Js Remote App JsFacts AppFacts.

(** *** Invariants of the steps *)

Lemma now_action (a : Action) (s : State) : now (applyAction a s) = now s.
Proof. destruct a; try reflexivity. simpl. destruct (debounceTimer s); reflexivity. Qed.

Lemma now_actions (acts : list Action) (s : State) : now (applyActions acts s) = now s.
Proof.
  revert s. induction acts as [|a acts IH]; simpl; intros s; [reflexivity|].
  rewrite IH. apply now_action.
Qed.

Lemma now_dispatch (code : State -> list Action) (s : State) :
  now (dispatch code s) = now s.
Proof. unfold dispatch. rewrite commit_now. apply now_actions. Qed.

(** The clock never runs past the deadline while timers fire. *)
Lemma runTimers_now (fuel : nat) (deadline : Z) (s : State) :
  now s <= deadline -> now s <= now (runTimers fuel deadline s) <= deadline.
Proof.
  revert s. induction fuel as [|fuel IH]; simpl; intros s H; [lia|].
  destruct (nextDue (timers s)) as [t|]; [|lia].
  destruct (Z.leb_spec (due t) deadline) as [L|L]; [|lia].
  match goal with |- context [runTimers fuel deadline ?x] => set (s1 := x) end.
  assert (N : now s1 = Z.max (now s) (due t)) by (unfold s1; apply now_dispatch).
  specialize (IH s1). rewrite N in IH. lia.
Qed.

Section StepInvariant.
Variable Inv : State -> Prop.
Hypothesis Inv_handled :
  forall e s, Inv s -> Inv (applyActions (handle e s) s).
Hypothesis Inv_fired :
  forall cb s, Inv s -> Inv (applyActions (timerFired cb s) s).
Hypothesis Inv_settled :
  forall req r acts k s,
    Inv s -> nth_error (inflight s) k = Some req -> settled req r = Some acts ->
    Inv (applyActions acts (with_inflight (removeNth k (inflight s)) s)).
Hypothesis Inv_effects :
  forall prev cur, Inv cur -> Inv (applyActions (effects prev cur) cur).
Hypothesis Inv_cleared :
  forall id v s, Inv s -> now s <= v -> Inv (with_now v (clearTimeout id s)).
Hypothesis Inv_now : forall v s, Inv s -> now s <= v -> Inv (with_now v s).

Lemma Inv_flush (passes : nat) (prev cur : State) :
  Inv cur -> Inv (flush passes prev cur).
Proof.
  revert prev cur. induction passes as [|k IH]; simpl; intros prev cur I; [exact I|].
  apply IH, Inv_effects, I.
Qed.

Lemma Inv_runTimers (fuel : nat) (deadline : Z) (s : State) :
  Inv s -> Inv (runTimers fuel deadline s).
Proof.
  revert s. induction fuel as [|fuel IH]; simpl; intros s I; [exact I|].
  destruct (nextDue (timers s)) as [t|]; [|exact I].
  destruct (due t <=? deadline); [|exact I].
  apply IH. unfold dispatch, commit. apply Inv_flush, Inv_fired, Inv_cleared; [exact I | lia].
Qed.

Lemma Inv_step (e : Event) (s : State) : Inv s -> Inv (step e s).
Proof.
  intros I.
  destruct e; try (simpl step; unfold dispatch, commit; apply Inv_flush, Inv_handled, I).
  - simpl. unfold elapse. apply Inv_now; [apply Inv_runTimers, I|].
    apply runTimers_now. lia.
  - simpl. destruct (nth_error (inflight s) k) as [req|] eqn:N; [|exact I].
    destruct (settled req r) as [acts|] eqn:S; [|exact I].
    unfold dispatch, commit. apply Inv_flush. eapply Inv_settled; eassumption.
Qed.

Hypothesis Inv_mounted : Inv mounted.

Lemma Inv_reachable (evs : list Event) : Inv (run evs mounted).
Proof.
  induction evs as [|e evs IH] using rev_ind; [exact Inv_mounted|].
  rewrite run_snoc. apply Inv_step, IH.
Qed.

End StepInvariant.

(** *** Effects come to rest *)

Lemma flush_at_rest (n : nat) (prev cur : State) :
  sameDeps prev cur -> flush n prev cur = cur.
Proof.
  revert prev. induction n as [|n IH]; simpl; intros prev D; [reflexivity|].
  rewrite (effects_sameDeps _ _ D). simpl. apply IH, sameDeps_refl.
Qed.

(** X1: the effects come to rest: whatever the change of state, the
    render reached after two rounds of effects runs no effect, so that
    any number of further renders leaves the state as it is. *)
Theorem effects_settle_in_two_rounds (prev cur : State) (n : nat) :
  flush (2 + n) prev cur = commit prev cur /\
  effects (flush 1 prev cur) (commit prev cur) = [].
Proof.
  pose proof (flush_settles prev cur) as D. split.
  - unfold commit. change (flush (2 + n) prev cur)
      with (flush n (applyActions (effects prev cur) cur)
              (applyActions (effects cur (applyActions (effects prev cur) cur))
                 (applyActions (effects prev cur) cur))).
    apply flush_at_rest. exact D.
  - apply effects_sameDeps. exact D.
Qed.

(** *** The tab moves only under the wipe *)

Lemma timerFired_moves (cb : TimerCallback) (x : State) :
  let x' := applyActions (timerFired cb x) x in
  (tab x' = tab x \/ pendingTabRef x = Some (tab x')) /\
  (pendingTabRef x' = pendingTabRef x \/ pendingTabRef x' = None).
Proof.
  destruct cb as [| |q]; simpl.
  - destruct (pendingTabRef x) as [target|] eqn:E; simpl; rewrite ?E;
      split; [right | left | left | left]; reflexivity.
  - split; [left | right]; reflexivity.
  - unfold fetchPlayerSearch. destruct (isEmpty (trim q)); split; left; reflexivity.
Qed.

Lemma towards_fired (p0 : option AppTab) (t0 : AppTab) (cb : TimerCallback)
  (id : nat) (v : Z) (s : State) :
  towards p0 t0 s ->
  towards p0 t0 (dispatch (timerFired cb) (with_now v (clearTimeout id s))).
Proof.
  intros [P T]. unfold towards, dispatch.
  rewrite commit_tab, commit_pendingTabRef.
  destruct (timerFired_moves cb (with_now v (clearTimeout id s))) as [A B].
  change (tab (with_now v (clearTimeout id s))) with (tab s) in A.
  change (pendingTabRef (with_now v (clearTimeout id s))) with (pendingTabRef s) in A, B.
  split.
  - destruct B as [B|B]; [rewrite B; exact P | right; exact B].
  - destruct A as [A|A]; [rewrite A; exact T|].
    destruct P as [P|P]; [right; congruence | congruence].
Qed.

Lemma towards_runTimers (p0 : option AppTab) (t0 : AppTab) (fuel : nat)
  (deadline : Z) (s : State) :
  towards p0 t0 s -> towards p0 t0 (runTimers fuel deadline s).
Proof.
  revert s. induction fuel as [|fuel IH]; simpl; intros s H; [exact H|].
  destruct (nextDue (timers s)) as [t|]; [|exact H].
  destruct (due t <=? deadline); [|exact H].
  apply IH, towards_fired, H.
Qed.

(** X2: the tab on display changes only while time passes, never in the
    click or in the reply itself, and the tab it changes to is the one
    that was pending. *)
Theorem tab_moves_only_under_the_wipe (e : Event) (s : State) :
  tab (step e s) <> tab s ->
  (exists ms, e = Elapsed ms) /\ pendingTabRef s = Some (tab (step e s)).
Proof.
  intros H. destruct (tab_changes_on_the_clock e s H) as [ms ->].
  split; [exists ms; reflexivity|].
  assert (J : towards (pendingTabRef s) (tab s) (step (Elapsed ms) s)).
  { simpl. unfold elapse.
    destruct (towards_runTimers (pendingTabRef s) (tab s) (List.length (timers s))
                (now s + Z.max 0 ms) s) as [A B].
    - split; left; reflexivity.
    - split; [exact A | exact B]. }
  destruct J as [_ [J|J]]; [contradiction | symmetry; exact J].
Qed.

Lemma tab_moves_only_under_the_wipe_witness :
  tab (step (Elapsed 800) returning) <> tab returning /\
  pendingTabRef returning = Some (tab (step (Elapsed 800) returning)).
Proof.
  assert (H : tab (step (Elapsed 800) returning) <> tab returning)
    by (vm_compute; discriminate).
  split; [exact H|].
  exact (proj2 (tab_moves_only_under_the_wipe (Elapsed 800) returning H)).
Defined.

(** *** Leaderboard requests belong to the Leaders page *)

Lemma keepsRequests_sound (a : Action) (s : State) :
  keepsRequests a = true -> tabAndRequests (applyAction a s) = tabAndRequests s.
Proof.
  destruct a; try discriminate; intros _; try reflexivity.
  simpl. destruct (debounceTimer s); reflexivity.
Qed.

Lemma keepsRequests_actions (acts : list Action) (s : State) :
  forallb keepsRequests acts = true ->
  tabAndRequests (applyActions acts s) = tabAndRequests s.
Proof.
  revert s. induction acts as [|a acts IH]; simpl; intros s H; [reflexivity|].
  apply andb_prop in H. destruct H as [Ha Hs].
  rewrite (IH _ Hs). apply keepsRequests_sound, Ha.
Qed.

Lemma effects_off_the_page (prev cur : State) :
  tab cur <> TabLeaders -> forallb keepsRequests (effects prev cur) = true.
Proof.
  intros T. apply AppTab_eqb_neq in T. unfold effects. rewrite T.
  repeat match goal with
         | |- context [if ?b then _ else _] => destruct b
         end; reflexivity.
Qed.

Lemma flush_off_the_page (passes : nat) (prev cur : State) :
  tab cur <> TabLeaders ->
  tabAndRequests (flush passes prev cur) = tabAndRequests cur.
Proof.
  revert prev cur. induction passes as [|k IH]; simpl; intros prev cur T; [reflexivity|].
  pose proof (keepsRequests_actions _ cur (effects_off_the_page prev cur T)) as K.
  rewrite IH; [exact K|].
  change (fst (tabAndRequests (applyActions (effects prev cur) cur)) <> TabLeaders).
  rewrite K. exact T.
Qed.

Lemma dispatch_off_the_page (code : State -> list Action) (s : State) :
  tab (applyActions (code s) s) <> TabLeaders ->
  inflight (dispatch code s) = inflight (applyActions (code s) s).
Proof.
  intros T. unfold dispatch, commit.
  exact (f_equal snd (flush_off_the_page 2 s _ T)).
Qed.

Lemma noLeadersFetch_sound (a : Action) (s : State) :
  noLeadersFetch a = true ->
  filter isLeadersRequest (inflight (applyAction a s))
  = filter isLeadersRequest (inflight s).
Proof.
  destruct a; intros H; try reflexivity.
  - simpl. rewrite filter_app. simpl. simpl in H.
    destruct (isLeadersRequest r); [discriminate H | apply app_nil_r].
  - simpl. destruct (debounceTimer s); reflexivity.
Qed.

Lemma noLeadersFetch_actions (acts : list Action) (s : State) :
  forallb noLeadersFetch acts = true ->
  filter isLeadersRequest (inflight (applyActions acts s))
  = filter isLeadersRequest (inflight s).
Proof.
  revert s. induction acts as [|a acts IH]; simpl; intros s H; [reflexivity|].
  apply andb_prop in H. destruct H as [Ha Hs].
  rewrite (IH _ Hs). apply noLeadersFetch_sound, Ha.
Qed.

Lemma requestTabChange_noLeadersFetch (next : AppTab) (s : State) :
  forallb noLeadersFetch (requestTabChange next s) = true.
Proof.
  unfold requestTabChange.
  destruct (AppTab_eqb next (tab s)), (isTabTransitioning s); reflexivity.
Qed.

Lemma handle_noLeadersFetch (e : Event) (s : State) :
  forallb noLeadersFetch (handle e s) = true.
Proof.
  destruct e; simpl;
    repeat match goal with
           | |- context [if ?b then _ else _] => destruct b; simpl
           | |- context [match selectedPlayer s with _ => _ end] =>
               destruct (selectedPlayer s); simpl
           | |- context [match nth_error ?l ?i with _ => _ end] =>
               destruct (nth_error l i); simpl
           end;
    try reflexivity; try apply requestTabChange_noLeadersFetch.
  unfold jumpToPlayerFromLeader.
  rewrite forallb_app, requestTabChange_noLeadersFetch. reflexivity.
Qed.

Lemma timerFired_noLeadersFetch (cb : TimerCallback) (s : State) :
  forallb noLeadersFetch (timerFired cb s) = true.
Proof.
  destruct cb as [| |q]; simpl.
  - destruct (pendingTabRef s); reflexivity.
  - reflexivity.
  - unfold fetchPlayerSearch. destruct (isEmpty (trim q)); reflexivity.
Qed.

Lemma settled_noLeadersFetch (req : Request) (r : Reply) (acts : list Action) :
  settled req r = Some acts -> forallb noLeadersFetch acts = true.
Proof.
  destruct req as [url limit|q|playerId name|id w], r as [r|r|r];
    try discriminate; intros H; inversion H; subst acts; clear H.
  - destruct r as [|[|] [| |d]]; reflexivity.
  - destruct r as [|ok [| |d]]; reflexivity.
  - destruct (jumpSettled_cases playerId r) as [(p & _ & E)|[E|E]]; rewrite E; reflexivity.
  - destruct r as [|ok [| |d]]; reflexivity.
Qed.

Lemma leaders_requests_kept (code : State -> list Action) (s : State) :
  forallb noLeadersFetch (code s) = true ->
  tab (applyActions (code s) s) <> TabLeaders ->
  filter isLeadersRequest (inflight (dispatch code s))
  = filter isLeadersRequest (inflight s).
Proof.
  intros F T. rewrite (dispatch_off_the_page code s T).
  apply noLeadersFetch_actions, F.
Qed.

Lemma awayFromLeaders_fired (cb : TimerCallback) (id : nat) (v : Z) (s : State) :
  awayFromLeaders s ->
  let s' := dispatch (timerFired cb) (with_now v (clearTimeout id s)) in
  awayFromLeaders s' /\
  filter isLeadersRequest (inflight s') = filter isLeadersRequest (inflight s).
Proof.
  intros [T P] s'.
  destruct (timerFired_moves cb (with_now v (clearTimeout id s))) as [A B].
  change (tab (with_now v (clearTimeout id s))) with (tab s) in A.
  change (pendingTabRef (with_now v (clearTimeout id s))) with (pendingTabRef s) in A, B.
  assert (T' : tab (applyActions (timerFired cb (with_now v (clearTimeout id s)))
                      (with_now v (clearTimeout id s))) <> TabLeaders).
  { destruct A as [A|A]; [rewrite A; exact T | congruence]. }
  split; [split|].
  - unfold s', dispatch. rewrite commit_tab. exact T'.
  - unfold s', dispatch. rewrite commit_pendingTabRef.
    destruct B as [B|B]; rewrite B; [exact P | discriminate].
  - unfold s'. rewrite leaders_requests_kept;
      [reflexivity | apply timerFired_noLeadersFetch | exact T'].
Qed.

Lemma awayFromLeaders_runTimers (fuel : nat) (deadline : Z) (s : State) :
  awayFromLeaders s ->
  awayFromLeaders (runTimers fuel deadline s) /\
  filter isLeadersRequest (inflight (runTimers fuel deadline s))
  = filter isLeadersRequest (inflight s).
Proof.
  revert s. induction fuel as [|fuel IH]; simpl; intros s A; [split; [exact A | reflexivity]|].
  destruct (nextDue (timers s)) as [t|]; [|split; [exact A | reflexivity]].
  destruct (due t <=? deadline); [|split; [exact A | reflexivity]].
  destruct (awayFromLeaders_fired (callback t) (timer_id t) (Z.max (now s) (due t)) s A)
    as [A' E'].
  destruct (IH _ A') as [A'' E'']. split; [exact A'' | congruence].
Qed.

Lemma filter_removeNth_incl {A : Type} (f : A -> bool) (k : nat) (l : list A) (x : A) :
  In x (filter f (removeNth k l)) -> In x (filter f l).
Proof.
  rewrite !filter_In. intros [I F]. split; [eapply In_removeNth, I | exact F].
Qed.

Lemma handled_off_the_page (e : Event) (s : State) :
  tab s <> TabLeaders ->
  tab (dispatch (handle e) s) <> TabLeaders /\
  filter isLeadersRequest (inflight (dispatch (handle e) s))
  = filter isLeadersRequest (inflight s).
Proof.
  intros T.
  assert (K : tab (applyActions (handle e s) s) <> TabLeaders)
    by (rewrite keepsTab_actions; [exact T | apply handle_keepsTab]).
  split.
  - unfold dispatch. rewrite commit_tab. exact K.
  - apply leaders_requests_kept; [apply handle_noLeadersFetch | exact K].
Qed.

(** X8: leaderboard requests belong to the Leaders page: while another
    page is on display and no change to Leaders is pending, no event
    (click, keystroke, reply or time passing) sends a leaderboard request,
    and the tab is not Leaders after it. *)
Theorem no_leaders_request_off_the_page (e : Event) (s : State) (r : Request) :
  tab s <> TabLeaders -> pendingTabRef s <> Some TabLeaders ->
  tab (step e s) <> TabLeaders /\
  (isLeadersRequest r = true -> In r (inflight (step e s)) -> In r (inflight s)).
Proof.
  intros T P.
  assert (G : tab (step e s) <> TabLeaders /\
              forall x, In x (filter isLeadersRequest (inflight (step e s))) ->
                        In x (filter isLeadersRequest (inflight s))).
  { destruct e as [v|v| |q| | |i|i|ms|k r0];
      try (match goal with
           | |- context [step ?ev s] =>
               change (step ev s) with (dispatch (handle ev) s);
               destruct (handled_off_the_page ev s T) as [K1 K2];
               split; [exact K1 | rewrite K2; intros x X; exact X]
           end).
    - simpl. unfold elapse.
      destruct (awayFromLeaders_runTimers (List.length (timers s))
                  (now s + Z.max 0 ms) s (conj T P)) as [[T' _] E'].
      split; [exact T'|]. intros x X. simpl in X. rewrite E' in X. exact X.
    - simpl. destruct (nth_error (inflight s) k) as [req|] eqn:N;
        [|split; [exact T | intros x X; exact X]].
      destruct (settled req r0) as [acts|] eqn:S;
        [|split; [exact T | intros x X; exact X]].
      set (s1 := with_inflight (removeNth k (inflight s)) s).
      assert (K : tab (applyActions acts s1) <> TabLeaders).
      { rewrite keepsTab_actions; [exact T | eapply settled_keepsTab, S]. }
      split.
      + unfold dispatch. rewrite commit_tab. exact K.
      + rewrite (leaders_requests_kept (fun _ => acts) s1);
          [ | eapply settled_noLeadersFetch, S | exact K ].
        intros x X. eapply filter_removeNth_incl, X. }
  destruct G as [G1 G2]. split; [exact G1|].
  intros F I. assert (X : In r (filter isLeadersRequest (inflight (step e s))))
    by (apply filter_In; split; assumption).
  apply G2 in X. apply filter_In in X. apply X.
Qed.

Lemma no_leaders_request_off_the_page_witness :
  tab mounted <> TabLeaders /\ pendingTabRef mounted <> Some TabLeaders /\
  tab (step (TabClicked TabPlayer) mounted) <> TabLeaders.
Proof.
  assert (T : tab mounted <> TabLeaders) by (vm_compute; discriminate).
  assert (P : pendingTabRef mounted <> Some TabLeaders) by (vm_compute; discriminate).
  split; [exact T|]. split; [exact P|].
  exact (proj1 (no_leaders_request_off_the_page (TabClicked TabPlayer) mounted
                  (ReqSearch "a") T P)).
Defined.

(** *** Handlers of the Leaders and Player pages *)

Ltac committed :=
  unfold dispatch;
  rewrite ?commit_tab, ?commit_isTabTransitioning, ?commit_pendingTabRef,
    ?commit_leaderTab, ?commit_playerQuery, ?commit_playerSearchStatus,
    ?commit_playerResults, ?commit_selectedPlayer, ?commit_playerStatsStatus,
    ?commit_playerStats, ?commit_showAllGames, ?commit_now.




Lemma player_page_requests (code : State -> list Action) (s : State) :
  tab s = TabPlayer -> forallb keepsTab (code s) = true ->
  inflight (dispatch code s) = inflight (applyActions (code s) s).
Proof.
  intros T K. apply dispatch_off_the_page.
  rewrite (keepsTab_actions _ _ K), T. discriminate.
Qed.






(** X11: "Clear" drops the selection, the game log, the query and the
    result list and goes back to the last-10 view, but cancels nothing:
    the requests in flight and the statuses stay as they were, and a game
    log that arrives afterwards is committed though no player is
    selected.  With the selection gone, the buttons of the selection do
    nothing. *)
Theorem clear_keeps_requests_in_flight (s : State) (p : PlayerHit) :
  tab s = TabPlayer -> selectedPlayer s = Some p ->
  let s' := step ClearClicked s in
  (selectedPlayer s' = None /\ playerStats s' = None /\ showAllGames s' = false /\
   playerQuery s' = "" /\ playerResults s' = []) /\
  (inflight s' = inflight s /\ playerStatsStatus s' = playerStatsStatus s /\
   playerSearchStatus s' = playerSearchStatus s) /\
  (forall k id w ok d,
     nth_error (inflight s) k = Some (ReqLastN id w) ->
     let late := step (Replied k (LastNReply (Response ok (JsonValue d)))) s' in
     playerStats late = Some d /\ selectedPlayer late = None) /\
  step ClearClicked s' = s' /\ step ToggleAllClicked s' = s'.
Proof.
  intros T S s'.
  assert (H : handle ClearClicked s
              = [ SetSelectedPlayer None; SetPlayerStats None; SetShowAllGames false;
                  SetPlayerQuery ""; SetPlayerResults [] ])
    by (simpl; rewrite T, S; reflexivity).
  assert (I : inflight s' = inflight s).
  { unfold s'. simpl step.
    rewrite (player_page_requests _ s T) by (rewrite H; reflexivity).
    rewrite H. reflexivity. }
  assert (N : selectedPlayer s' = None)
    by (unfold s'; simpl step; committed; rewrite H; reflexivity).
  assert (T' : tab s' = TabPlayer)
    by (unfold s'; simpl step; committed; rewrite H; exact T).
  split; [|split; [|split; [|split]]].
  - unfold s'. simpl step. committed. rewrite H. repeat split.
  - split; [exact I|]. unfold s'. simpl step. committed. rewrite H. split; reflexivity.
  - intros k id w ok d K late. unfold late.
    rewrite <- I in K. rewrite (step_lastN_reply k id w _ s' K).
    committed. simpl. split; [reflexivity | exact N].
  - simpl step. apply dispatch_nothing. simpl. rewrite T', N. reflexivity.
  - simpl step. apply dispatch_nothing. simpl. rewrite T', N. reflexivity.
Qed.

Lemma clear_keeps_requests_in_flight_witness :
  let s := step (ResultClicked 0) curShown in
  inflight (step ClearClicked s) = inflight s /\
  playerStatsStatus (step ClearClicked s) = Loading /\
  selectedPlayer (step ClearClicked s) = None.
Proof.
  assert (T : tab (step (ResultClicked 0) curShown) = TabPlayer)
    by (vm_compute; reflexivity).
  assert (S : selectedPlayer (step (ResultClicked 0) curShown)
              = Some (sampleHit 201 "Stephen Curry")) by (vm_compute; reflexivity).
  assert (L : playerStatsStatus (step (ResultClicked 0) curShown) = Loading)
    by (vm_compute; reflexivity).
  pose proof (clear_keeps_requests_in_flight _ _ T S) as H. cbv zeta in H.
  destruct H as ((H1 & _) & (H2 & H3 & _) & _).
  split; [exact H2|]. split; [rewrite H3; exact L | exact H1].
Defined.

(** *** White space *)

Lemma trimEnd_cons (c : ascii) (s : string) :
  trimEnd (String c s)
  = match trimEnd s with
    | EmptyString => if isWhiteSpace c then EmptyString else String c EmptyString
    | t => String c t
    end.
Proof. reflexivity. Qed.

Lemma trimEnd_idem (s : string) : trimEnd (trimEnd s) = trimEnd s.
Proof.
  induction s as [|c s IH]; [reflexivity|].
  rewrite trimEnd_cons. destruct (trimEnd s) as [|d t] eqn:E.
  - destruct (isWhiteSpace c) eqn:W; [reflexivity|].
    rewrite trimEnd_cons. simpl. rewrite W. reflexivity.
  - rewrite trimEnd_cons, IH. reflexivity.
Qed.

Lemma trimEnd_head (c : ascii) (s : string) :
  isWhiteSpace c = false -> exists t, trimEnd (String c s) = String c t.
Proof.
  intros W. rewrite trimEnd_cons. destruct (trimEnd s) as [|d t].
  - rewrite W. exists EmptyString. reflexivity.
  - exists (String d t). reflexivity.
Qed.

Lemma trimStart_cases (s : string) :
  trimStart s = EmptyString \/
  exists c s', trimStart s = String c s' /\ isWhiteSpace c = false.
Proof.
  induction s as [|c s IH]; [left; reflexivity|].
  simpl. destruct (isWhiteSpace c) eqn:W; [exact IH|].
  right. exists c, s. split; [reflexivity | exact W].
Qed.

(** Trimming a trimmed string changes nothing. *)
Lemma trim_idem (q : string) : trim (trim q) = trim q.
Proof.
  unfold trim. destruct (trimStart_cases q) as [E|(c & s' & E & W)]; rewrite E.
  - reflexivity.
  - destruct (trimEnd_head c s' W) as [t Ht].
    rewrite Ht. simpl trimStart. rewrite W, <- Ht. apply trimEnd_idem.
Qed.

(** *** The requests the component sends *)

Lemma pageSize_ten : pageSize 10.
Proof. exists 1. lia. Qed.

Lemma pageSize_more (l : Z) : pageSize l -> pageSize (l + 10).
Proof. intros [k [H ->]]. exists (k + 1). lia. Qed.

Lemma okAction_sound (a : Action) (s : State) :
  okAction a -> requestsWf s -> requestsWf (applyAction a s).
Proof.
  unfold requestsWf. intros O [P F].
  destruct a; simpl in *; try (split; assumption).
  - subst d. split; [apply pageSize_more, P | exact F].
  - split; [exact P|]. apply Forall_app. split; [exact F|].
    apply Forall_cons; [exact O | apply Forall_nil].
  - destruct (debounceTimer s); split; assumption.
Qed.

Lemma okActions_sound (acts : list Action) (s : State) :
  Forall okAction acts -> requestsWf s -> requestsWf (applyActions acts s).
Proof.
  revert s. induction acts as [|a acts IH]; simpl; intros s O W; [exact W|].
  inversion O; subst. apply IH; [assumption|]. apply okAction_sound; assumption.
Qed.

Ltac all_ok :=
  repeat (apply Forall_cons; [simpl; auto |]); try apply Forall_nil.

Lemma requestTabChange_ok (next : AppTab) (s : State) :
  Forall okAction (requestTabChange next s).
Proof.
  unfold requestTabChange.
  destruct (AppTab_eqb next (tab s)), (isTabTransitioning s); all_ok.
Qed.

Lemma handle_ok (e : Event) (s : State) : Forall okAction (handle e s).
Proof.
  destruct e; simpl;
    repeat match goal with
           | |- context [if ?b then _ else _] => destruct b; simpl
           | |- context [match selectedPlayer s with _ => _ end] =>
               destruct (selectedPlayer s); simpl
           | |- context [match nth_error ?l ?i with _ => _ end] =>
               destruct (nth_error l i); simpl
           end;
    try apply requestTabChange_ok; all_ok.
  unfold jumpToPlayerFromLeader. apply Forall_app. split;
    [apply requestTabChange_ok | all_ok].
Qed.

Lemma timerFired_ok (cb : TimerCallback) (s : State) : Forall okAction (timerFired cb s).
Proof.
  destruct cb as [| |q]; simpl.
  - destruct (pendingTabRef s); all_ok.
  - all_ok.
  - unfold fetchPlayerSearch. destruct (isEmpty (trim q)) eqn:E; all_ok.
    split; [|apply trim_idem].
    intros H. rewrite H in E. discriminate E.
Qed.

Lemma settled_ok (req : Request) (r : Reply) (acts : list Action) :
  settled req r = Some acts -> Forall okAction acts.
Proof.
  destruct req as [url limit|q|playerId name|id w], r as [r|r|r];
    try discriminate; intros H; inversion H; subst acts; clear H.
  - destruct r as [|[|] [| |d]]; all_ok.
  - destruct r as [|ok [| |d]]; all_ok.
  - destruct (jumpSettled_cases playerId r) as [(p & _ & E)|[E|E]]; rewrite E; all_ok.
  - destruct r as [|ok [| |d]]; all_ok.
Qed.

Lemma fetchLeaders_ok (s : State) :
  pageSize (leadersLimit s) -> Forall okAction (fetchLeaders s).
Proof.
  intros P. unfold fetchLeaders. rewrite IMPLEMENTED_ROUTES_all. simpl. all_ok.
  unfold leadersEndpoint. destruct (leaderTab s); simpl; repeat split; assumption.
Qed.

Lemma effects_ok (prev cur : State) :
  requestsWf cur -> Forall okAction (effects prev cur).
Proof.
  intros [P _]. pose proof (fetchLeaders_ok cur P) as F. pose proof pageSize_ten as T.
  unfold effects. repeat (apply Forall_app; split);
    repeat match goal with
           | |- context [if ?b then _ else _] => destruct b
           end; try exact F; all_ok.
Qed.

Lemma Forall_removeNth {A : Type} (P : A -> Prop) (k : nat) (l : list A) :
  Forall P l -> Forall P (removeNth k l).
Proof.
  rewrite !Forall_forall. intros H x I. apply H. eapply In_removeNth, I.
Qed.

Lemma requestsWf_reachable (evs : list Event) : requestsWf (run evs mounted).
Proof.
  apply (Inv_reachable requestsWf).
  - intros e s W. apply okActions_sound; [apply handle_ok | exact W].
  - intros cb s W. apply okActions_sound; [apply timerFired_ok | exact W].
  - intros req r acts k s [P F] N S.
    apply okActions_sound; [eapply settled_ok, S|].
    split; [exact P | apply Forall_removeNth, F].
  - intros prev cur W. apply okActions_sound; [apply effects_ok, W | exact W].
  - intros id v s W _. exact W.
  - intros v s W _. exact W.
  - unfold mounted, commit. apply (Inv_flush requestsWf).
    + intros prev cur W. apply okActions_sound; [apply effects_ok, W | exact W].
    + apply okActions_sound; [|split; [apply pageSize_ten | apply Forall_nil]].
      unfold mountEffects. simpl.
      repeat (apply Forall_cons; [simpl; auto using pageSize_ten |]); apply Forall_nil.
Qed.

(** X5: in every state the mounted component can reach the limit is 10,
    20, 30, ..., and every leaderboard request in flight asks for as many
    rows as its continuation will compare the reply with, for season
    2025-26 with at least 10 games played, and with the minimum of
    attempts of its category (50 three-point attempts, 100 field-goal
    attempts, none for the per-game categories). *)
Theorem leaders_limit_moves_in_tens (evs : list Event) :
  let s := run evs mounted in
  pageSize (leadersLimit s) /\
  forall url l,
    In (ReqLeaders url l) (inflight s) ->
    ep_limit url = l /\ pageSize l /\ ep_season url = "2025-26" /\
    ep_min_gp url = 10 /\ ep_min_attempts url = minAttempts (ep_path url).
Proof.
  destruct (requestsWf_reachable evs) as [P F]. split; [exact P|].
  intros url l I. rewrite Forall_forall in F. exact (F _ I).
Qed.

(** X6: a search request is never sent for an empty query or with white
    space around the query: in every reachable state the query of each
    search request in flight is not empty and is its own trimmed form. *)
Theorem search_requests_are_trimmed (evs : list Event) (q : string) :
  In (ReqSearch q) (inflight (run evs mounted)) -> q <> "" /\ trim q = q.
Proof.
  destruct (requestsWf_reachable evs) as [_ F].
  intros I. rewrite Forall_forall in F. exact (F _ I).
Qed.

Lemma search_requests_are_trimmed_witness :
  In (ReqSearch "cur") (inflight searchingCur) /\ trim "cur" = "cur".
Proof.
  assert (I : In (ReqSearch "cur")
                (inflight (run (toPlayerPage ++ [ QueryTyped "cur"; Elapsed 250 ]) mounted)))
    by (vm_compute; right; left; reflexivity).
  split; [exact I|].
  exact (proj2 (search_requests_are_trimmed _ "cur" I)).
Defined.

(** X7: a game-log request asks for the last 10 games or for 9999 games,
    never for another number: in every reachable state. *)
Theorem game_log_window_is_ten_or_all (evs : list Event) (id w : Z) :
  In (ReqLastN id w) (inflight (run evs mounted)) ->
  w = DEFAULT_LAST_N \/ w = ALL_GAMES_N.
Proof.
  destruct (requestsWf_reachable evs) as [_ F].
  intros I. rewrite Forall_forall in F. exact (F _ I).
Qed.

Lemma game_log_window_is_ten_or_all_witness :
  In (ReqLastN 201 10) (inflight (run (curTrace ++ [ ResultClicked 0 ]) mounted)) /\
  (10 = DEFAULT_LAST_N \/ 10 = ALL_GAMES_N).
Proof.
  assert (I : In (ReqLastN 201 10)
                (inflight (run (curTrace ++ [ ResultClicked 0 ]) mounted)))
    by (vm_compute; right; left; reflexivity).
  split; [exact I|].
  exact (game_log_window_is_ten_or_all _ 201 10 I).
Defined.

Lemma leaders_limit_moves_in_tens_witness :
  In (ReqLeaders (leadersEndpoint initial) 10) (inflight (run [] mounted)) /\
  ep_limit (leadersEndpoint initial) = 10 /\ pageSize 10.
Proof.
  assert (I : In (ReqLeaders (leadersEndpoint initial) 10) (inflight (run [] mounted)))
    by (vm_compute; left; reflexivity).
  split; [exact I|].
  destruct (proj2 (leaders_limit_moves_in_tens []) _ _ I) as (A & B & _).
  split; [exact A | exact B].
Defined.

(** *** A status of Loading has a request behind it *)

Lemma existsb_removeNth {A : Type} (f : A -> bool) (k : nat) (l : list A) (x : A) :
  nth_error l k = Some x -> f x = false ->
  existsb f (removeNth k l) = existsb f l.
Proof.
  revert k. induction l as [|y l IH]; intros [|k] N F; simpl in *; try discriminate.
  - inversion N; subst. rewrite F. reflexivity.
  - rewrite (IH k N F). reflexivity.
Qed.

Ltac backed :=
  unfold loadingBacked, awaited in *; simpl;
  rewrite ?existsb_app; simpl;
  rewrite ?orb_true_r, ?orb_false_r;
  intuition (try discriminate; auto).

Lemma backed_requestTabChange (next : AppTab) (s : State) :
  loadingBacked s -> loadingBacked (applyActions (requestTabChange next s) s).
Proof.
  intros B. unfold requestTabChange.
  destruct (AppTab_eqb next (tab s)), (isTabTransitioning s); backed.
Qed.

Lemma backed_handled (e : Event) (s : State) :
  loadingBacked s -> loadingBacked (applyActions (handle e s) s).
Proof.
  intros B. destruct e; simpl handle;
    try apply backed_requestTabChange; try exact B;
    repeat match goal with
           | |- context [if ?b then _ else _] => destruct b
           | |- context [match selectedPlayer s with _ => _ end] =>
               destruct (selectedPlayer s)
           | |- context [match nth_error ?l ?i with _ => _ end] =>
               destruct (nth_error l i)
           end;
    try exact B; try solve [backed].
  unfold jumpToPlayerFromLeader. rewrite applyActions_app.
  pose proof (backed_requestTabChange TabPlayer s B) as B'.
  revert B'. generalize (applyActions (requestTabChange TabPlayer s) s).
  intros x B'. backed.
Qed.

Lemma backed_fired (cb : TimerCallback) (s : State) :
  loadingBacked s -> loadingBacked (applyActions (timerFired cb s) s).
Proof.
  intros B. destruct cb as [| |q]; simpl timerFired.
  - destruct (pendingTabRef s); backed.
  - backed.
  - unfold fetchPlayerSearch. destruct (isEmpty (trim q)); backed.
Qed.

Lemma backed_settled (req : Request) (r : Reply) (acts : list Action) (k : nat)
  (s : State) :
  loadingBacked s -> nth_error (inflight s) k = Some req -> settled req r = Some acts ->
  loadingBacked (applyActions acts (with_inflight (removeNth k (inflight s)) s)).
Proof.
  intros B N S.
  assert (R : forall f, f req = false ->
                existsb f (removeNth k (inflight s)) = existsb f (inflight s))
    by (intros f F; exact (existsb_removeNth f k _ req N F)).
  destruct req as [url limit|q|playerId name|id w], r as [r|r|r];
    try discriminate; inversion S; subst acts; clear S.
  - pose proof (R isSearchRequest eq_refl) as R1.
    pose proof (R isLastNRequest eq_refl) as R2.
    destruct r as [|[|] [| |d]]; unfold loadingBacked, awaited in *; simpl;
      rewrite ?R1, ?R2; intuition (try discriminate; auto).
  - pose proof (R isLeadersRequest eq_refl) as R1.
    pose proof (R isLastNRequest eq_refl) as R2.
    destruct r as [|ok [| |d]]; unfold loadingBacked, awaited in *; simpl;
      rewrite ?R1, ?R2; intuition (try discriminate; auto).
  - pose proof (R isLeadersRequest eq_refl) as R1.
    pose proof (R isLastNRequest eq_refl) as R2.
    destruct (jumpSettled_cases playerId r) as [(p & _ & E)|[E|E]]; rewrite E;
      unfold loadingBacked, awaited in *; simpl;
      rewrite ?existsb_app, ?R1, ?R2; simpl; rewrite ?orb_true_r, ?orb_false_r;
      intuition (try discriminate; auto).
  - pose proof (R isLeadersRequest eq_refl) as R1.
    pose proof (R isSearchRequest eq_refl) as R2.
    destruct r as [|ok [| |d]]; unfold loadingBacked, awaited in *; simpl;
      rewrite ?R1, ?R2; intuition (try discriminate; auto).
Qed.

Lemma backed_effects (prev cur : State) :
  loadingBacked cur -> loadingBacked (applyActions (effects prev cur) cur).
Proof.
  intros B. unfold effects, fetchLeaders. rewrite IMPLEMENTED_ROUTES_all.
  cbn [negb].
  repeat match goal with
         | |- context [if ?b then _ else _] => destruct b
         end;
    cbn [app]; try exact B;
    unfold applyActions; cbn [fold_left applyAction];
    try (destruct (debounceTimer cur)); backed.
Qed.

Lemma loadingBacked_reachable (evs : list Event) : loadingBacked (run evs mounted).
Proof.
  apply (Inv_reachable loadingBacked).
  - apply backed_handled.
  - apply backed_fired.
  - apply backed_settled.
  - apply backed_effects.
  - intros id v s B _. exact B.
  - intros v s B _. exact B.
  - vm_compute. repeat split; intros H; try reflexivity; discriminate H.
Qed.

Lemma existsb_witness {A : Type} (f : A -> bool) (l : list A) :
  existsb f l = true -> exists x, In x l /\ f x = true.
Proof. intros H. apply existsb_exists in H. exact H. Qed.

(** X14: no slot waits for nothing: in every state the mounted component
    can reach, a leaderboard status of Loading has a leaderboard request
    in flight, a search status of Loading has a search request (typed or
    of a deep link) in flight, and a game-log status of Loading has a
    game-log request in flight. *)
Theorem loading_has_a_request_in_flight (evs : list Event) :
  let s := run evs mounted in
  (leadersStatus s = Loading -> exists url l, In (ReqLeaders url l) (inflight s)) /\
  (playerSearchStatus s = Loading ->
   (exists q, In (ReqSearch q) (inflight s)) \/
   (exists id name, In (ReqJumpSearch id name) (inflight s))) /\
  (playerStatsStatus s = Loading -> exists id w, In (ReqLastN id w) (inflight s)).
Proof.
  destruct (loadingBacked_reachable evs) as (A & B & C). unfold awaited in *.
  split; [|split].
  - intros H. destruct (existsb_witness _ _ (A H)) as ([url l|q|id name|id w] & I & F);
      try discriminate F. exists url, l. exact I.
  - intros H. destruct (existsb_witness _ _ (B H)) as ([url l|q|id name|id w] & I & F);
      try discriminate F.
    + left. exists q. exact I.
    + right. exists id, name. exact I.
  - intros H. destruct (existsb_witness _ _ (C H)) as ([url l|q|id name|id w] & I & F);
      try discriminate F. exists id, w. exact I.
Qed.

Lemma loading_has_a_request_in_flight_witness :
  playerSearchStatus searchingCur = Loading /\
  ((exists q, In (ReqSearch q) (inflight searchingCur)) \/
   (exists id name, In (ReqJumpSearch id name) (inflight searchingCur))).
Proof.
  assert (L : playerSearchStatus
                (run (toPlayerPage ++ [ QueryTyped "cur"; Elapsed 250 ]) mounted) = Loading)
    by (vm_compute; reflexivity).
  split; [exact L|].
  exact (proj1 (proj2 (loading_has_a_request_in_flight
                         (toPlayerPage ++ [ QueryTyped "cur"; Elapsed 250 ]))) L).
Defined.

(** *** The debounced search *)

Lemma plain_search_timers (acts : list Action) (s : State) (t : Timer) :
  forallb plainAction acts = true ->
  In t (timers (applyActions acts s)) -> isTabCallback (callback t) = false ->
  In t (timers s).
Proof.
  revert s. induction acts as [|a acts IH]; simpl; intros s P I C; [exact I|].
  apply andb_prop in P. destruct P as [Pa Ps].
  specialize (IH _ Ps I C). clear I.
  destruct a; try discriminate; simpl in IH; try exact IH.
  - apply in_app_or in IH. destruct IH as [IH|[<-|[]]]; [exact IH|].
    simpl in C. destruct cb; discriminate.
  - destruct (debounceTimer s); [|exact IH].
    simpl in IH. apply filter_In in IH. apply IH.
Qed.

Lemma searchesTheQuery_view (s s' : State) :
  timersView s' = timersView s -> searchesTheQuery s -> searchesTheQuery s'.
Proof.
  unfold timersView, searchesTheQuery. intros V Q.
  injection V as V1 V2 V3 V4. rewrite V1, V2. exact Q.
Qed.

Lemma flush_playerQuery (passes : nat) (prev cur : State) :
  playerQuery (flush passes prev cur) = playerQuery cur.
Proof. apply (flush_leadersOnly passes prev cur). Qed.

Lemma searchesTheQuery_dispatch (code : State -> list Action) (s : State) :
  forallb plainAction (code s) = true -> debounceOnly s -> searchesTheQuery s ->
  searchesTheQuery (dispatch code s).
Proof.
  intros P D Q. unfold dispatch, commit.
  set (cur := applyActions (code s) s).
  assert (Dc : debounceOnly cur) by (apply debounceOnly_plains; assumption).
  change (flush 2 s cur) with (flush 1 cur (applyActions (effects s cur) cur)).
  set (cur1 := applyActions (effects s cur) cur).
  assert (Q1 : playerQuery cur1 = playerQuery cur)
    by (exact (flush_playerQuery 1 s cur)).
  apply (searchesTheQuery_view cur1);
    [apply flush_keepsTimers; symmetry; exact Q1|].
  destruct (effects_shape s cur) as (mid & K & Pm & E).
  unfold cur1. rewrite E.
  destruct (String.eqb (playerQuery s) (playerQuery cur)) eqn:C; simpl negb; cbv iota.
  - apply String.eqb_eq in C.
    apply (searchesTheQuery_view cur); [apply keepsTimers_actions, K|].
    intros t I q H. rewrite <- C. apply (Q t); [|exact H].
    apply (plain_search_timers (code s) s t P I). rewrite H. reflexivity.
  - rewrite applyActions_cons, applyActions_app.
    set (x := applyActions mid (applyAction ClearDebounce cur)).
    assert (Nx : noSearchTimers x)
      by (apply noSearchTimers_kept; [exact K | apply clearDebounce_noSearchTimers, Dc]).
    assert (Qx : playerQuery x = playerQuery cur).
    { pose proof (keepsTimers_actions mid (applyAction ClearDebounce cur) K) as V.
      unfold timersView in V. injection V as V1 _ _ _.
      unfold x. transitivity (playerQuery (applyAction ClearDebounce cur)); [exact V1|].
      simpl. destruct (debounceTimer cur); reflexivity. }
    intros t I q H. simpl in I. apply in_app_or in I. destruct I as [I|[<-|[]]].
    + pose proof (Nx t I) as Nt. rewrite H in Nt. discriminate Nt.
    + simpl in H. inversion H. simpl. symmetry. exact Qx.
Qed.

Lemma searchesTheQuery_runTimers (fuel : nat) (deadline : Z) (s : State) :
  debounceOnly s -> searchesTheQuery s ->
  searchesTheQuery (runTimers fuel deadline s).
Proof.
  revert s. induction fuel as [|fuel IH]; simpl; intros s D Q; [exact Q|].
  destruct (nextDue (timers s)) as [u|]; [|exact Q].
  destruct (due u <=? deadline); [|exact Q].
  assert (D1 : debounceOnly (with_now (Z.max (now s) (due u)) (clearTimeout (timer_id u) s))).
  { intros t Hi C. simpl in Hi. apply filter_In in Hi. apply (D t (proj1 Hi) C). }
  assert (Q1 : searchesTheQuery
                 (with_now (Z.max (now s) (due u)) (clearTimeout (timer_id u) s))).
  { intros t Hi q C. simpl in Hi. apply filter_In in Hi. apply (Q t (proj1 Hi) q C). }
  apply IH.
  - apply debounceOnly_dispatch; [apply timerFired_plain | exact D1].
  - apply searchesTheQuery_dispatch; [apply timerFired_plain | exact D1 | exact Q1].
Qed.

Lemma searchesTheQuery_step (e : Event) (s : State) :
  debounceOnly s -> searchesTheQuery s -> searchesTheQuery (step e s).
Proof.
  intros D Q. destruct e;
    try (apply searchesTheQuery_dispatch; [apply handle_plain | exact D | exact Q]).
  - simpl. unfold elapse.
    exact (searchesTheQuery_runTimers _ _ s D Q).
  - simpl. destruct (nth_error (inflight s) k) as [req|]; [|exact Q].
    destruct (settled req r) as [acts|] eqn:S; [|exact Q].
    apply searchesTheQuery_dispatch; [exact (settled_plain _ _ _ S) | exact D | exact Q].
Qed.

Lemma searchesTheQuery_reachable (evs : list Event) :
  searchesTheQuery (run evs mounted).
Proof.
  induction evs as [|e evs IH] using rev_ind.
  - intros t I q C. vm_compute in I. destruct I as [<-|[]].
    vm_compute in C. inversion C. reflexivity.
  - rewrite run_snoc. apply searchesTheQuery_step; [apply reachable_timers | exact IH].
Qed.

(** *** Timers run out *)

Lemma timedAction_sound (a : Action) (s : State) :
  timedAction a = true -> dueBound s -> dueBound (applyAction a s).
Proof.
  unfold dueBound. intros T B.
  destruct a; simpl in *; try exact B.
  - intros t I. apply in_app_or in I. destruct I as [I|[<-|[]]]; [exact (B t I)|].
    simpl. apply Z.leb_le in T. lia.
  - intros t I. apply in_app_or in I. destruct I as [I|[<-|[]]]; [exact (B t I)|].
    simpl. lia.
  - destruct (debounceTimer s); [|exact B].
    simpl. intros t I. apply filter_In in I. apply B, I.
Qed.

Lemma timedActions_sound (acts : list Action) (s : State) :
  forallb timedAction acts = true -> dueBound s -> dueBound (applyActions acts s).
Proof.
  revert s. induction acts as [|a acts IH]; simpl; intros s T B; [exact B|].
  apply andb_prop in T. destruct T as [Ta Ts].
  apply IH; [exact Ts|]. apply timedAction_sound; assumption.
Qed.

Lemma requestTabChange_timed (next : AppTab) (s : State) :
  forallb timedAction (requestTabChange next s) = true.
Proof.
  unfold requestTabChange.
  destruct (AppTab_eqb next (tab s)), (isTabTransitioning s); reflexivity.
Qed.

Lemma handle_timed (e : Event) (s : State) : forallb timedAction (handle e s) = true.
Proof.
  destruct e; simpl;
    repeat match goal with
           | |- context [if ?b then _ else _] => destruct b; simpl
           | |- context [match selectedPlayer s with _ => _ end] =>
               destruct (selectedPlayer s); simpl
           | |- context [match nth_error ?l ?i with _ => _ end] =>
               destruct (nth_error l i); simpl
           end;
    try reflexivity; try apply requestTabChange_timed.
  unfold jumpToPlayerFromLeader. rewrite forallb_app, requestTabChange_timed. reflexivity.
Qed.

Lemma plain_is_timed (acts : list Action) :
  forallb tabQuiet acts = true -> forallb timedAction acts = true.
Proof.
  induction acts as [|a acts IH]; simpl; intros H; [reflexivity|].
  apply andb_prop in H. destruct H as [Ha Hs]. rewrite (IH Hs), andb_true_r.
  destruct a; try reflexivity; discriminate Ha.
Qed.

Lemma timerFired_timed (cb : TimerCallback) (s : State) :
  forallb timedAction (timerFired cb s) = true.
Proof.
  destruct cb as [| |q]; simpl; try reflexivity.
  - destruct (pendingTabRef s); reflexivity.
  - unfold fetchPlayerSearch. destruct (isEmpty (trim q)); reflexivity.
Qed.

Lemma dueBound_later (v : Z) (l : list Timer) (s : State) :
  dueBound s -> now s <= v -> (forall t, In t l -> In t (timers s)) ->
  dueBound (with_now v (with_timers l s)).
Proof.
  unfold dueBound. intros B L I t Ht. simpl in *. specialize (B t (I t Ht)). lia.
Qed.

Lemma dueBound_reachable (evs : list Event) : dueBound (run evs mounted).
Proof.
  apply (Inv_reachable dueBound).
  - intros e s B. apply timedActions_sound; [apply handle_timed | exact B].
  - intros cb s B. apply timedActions_sound; [apply timerFired_timed | exact B].
  - intros req r acts k s B N S.
    apply timedActions_sound; [apply plain_is_timed; eapply settled_tabQuiet, S | exact B].
  - intros prev cur B.
    apply timedActions_sound; [apply plain_is_timed, effects_tabQuiet | exact B].
  - intros id v s B L. apply dueBound_later; [exact B | exact L|].
    intros t I. apply filter_In in I. apply I.
  - intros v s B L t I. specialize (B t I). simpl in *. lia.
  - intros t I. vm_compute in I. destruct I as [<-|[]]. vm_compute. discriminate.
Qed.

Ltac locked :=
  unfold lockInv in *; simpl; intuition (try discriminate; auto).

Lemma lock_requestTabChange (next : AppTab) (s : State) :
  lockInv s -> lockInv (applyActions (requestTabChange next s) s).
Proof.
  intros B. unfold requestTabChange.
  destruct (AppTab_eqb next (tab s)), (isTabTransitioning s); locked.
Qed.

Lemma lock_handled (e : Event) (s : State) :
  lockInv s -> lockInv (applyActions (handle e s) s).
Proof.
  intros B. destruct e; simpl handle;
    try apply lock_requestTabChange; try exact B;
    repeat match goal with
           | |- context [if ?b then _ else _] => destruct b
           | |- context [match selectedPlayer s with _ => _ end] =>
               destruct (selectedPlayer s)
           | |- context [match nth_error ?l ?i with _ => _ end] =>
               destruct (nth_error l i)
           end;
    try exact B; try solve [locked].
  unfold jumpToPlayerFromLeader. rewrite applyActions_app.
  pose proof (lock_requestTabChange TabPlayer s B) as B'.
  revert B'. generalize (applyActions (requestTabChange TabPlayer s) s).
  intros x B'. locked.
Qed.

Lemma lockInv_reachable (evs : list Event) : lockInv (run evs mounted).
Proof.
  apply (Inv_reachable lockInv).
  - apply lock_handled.
  - intros cb s B. destruct cb as [| |q]; simpl timerFired.
    + destruct (pendingTabRef s) eqn:E; [|exact B]. unfold lockInv in *. simpl.
      exact B.
    + locked.
    + unfold fetchPlayerSearch. destruct (isEmpty (trim q)); locked.
  - intros req r acts k s B N S.
    destruct req as [url limit|q|playerId name|id w], r as [r|r|r];
      try discriminate; inversion S; subst acts; clear S.
    + destruct r as [|[|] [| |d]]; locked.
    + destruct r as [|ok [| |d]]; locked.
    + destruct (jumpSettled_cases playerId r) as [(p & _ & E)|[E|E]]; rewrite E; locked.
    + destruct r as [|ok [| |d]]; locked.
  - intros prev cur B.
    destruct (effectActions_leadersOnly (effects prev cur) cur (effects_vocabulary prev cur))
      as (_ & T & P & _).
    unfold lockInv. rewrite T, P. exact B.
  - intros id v s B _. exact B.
  - intros v s B _. exact B.
  - intros _. vm_compute. reflexivity.
Qed.

Lemma timers_runTimers_incl (fuel : nat) (deadline : Z) (s : State) (t : Timer) :
  In t (timers (runTimers fuel deadline s)) -> In t (timers s).
Proof.
  revert s. induction fuel as [|fuel IH]; simpl; intros s I; [exact I|].
  destruct (nextDue (timers s)) as [u|]; [|exact I].
  destruct (due u <=? deadline); [|exact I].
  apply IH in I. rewrite timers_after_firing in I. apply filter_In in I. apply I.
Qed.

Lemma now_elapse (ms : Z) (s : State) : now (elapse ms s) = now s + Z.max 0 ms.
Proof. reflexivity. Qed.

(** X3: a transition always ends: from every state the mounted component
    can reach, 800 ms without input leave no timer pending, no transition
    in progress and no tab pending, so that the tabs answer again. *)
Theorem transition_ends_within_800_ms (evs : list Event) (ms : Z) :
  800 <= ms ->
  let s' := step (Elapsed ms) (run evs mounted) in
  timers s' = [] /\ isTabTransitioning s' = false /\ pendingTabRef s' = None.
Proof.
  intros M s'.
  assert (R : s' = run (evs ++ [ Elapsed ms ]) mounted)
    by (rewrite run_snoc; reflexivity).
  assert (T : timers s' = []).
  { destruct (timers s') as [|t l] eqn:E; [reflexivity|]. exfalso.
    assert (I : In t (timers s')) by (rewrite E; left; reflexivity).
    pose proof (elapse_exhausts ms (run evs mounted) t I) as L.
    assert (I0 : In t (timers (run evs mounted))).
    { unfold s' in I. simpl in I. eapply timers_runTimers_incl, I. }
    pose proof (dueBound_reachable evs t I0) as B.
    rewrite now_elapse in L.
    assert (D : delayOf (callback t) <= 800)
      by (destruct (callback t); simpl; unfold TAB_SWAP_MS, TAB_UNLOCK_MS; lia).
    lia. }
  assert (F : isTabTransitioning s' = false).
  { destruct (reachable_wf (evs ++ [ Elapsed ms ])) as [_ I]. rewrite <- R in I.
    revert I. unfold tabInv, tabTimers. rewrite T. simpl filter.
    destruct (isTabTransitioning s'); [|reflexivity].
    intros [(sw & ul & I & _)|(ul & I & _)]; discriminate I. }
  split; [exact T|]. split; [exact F|].
  pose proof (lockInv_reachable (evs ++ [ Elapsed ms ])) as L. rewrite <- R in L.
  exact (L F).
Qed.

Lemma transition_ends_within_800_ms_witness :
  isTabTransitioning (run [ TabClicked TabPlayer ] mounted) = true /\
  timers (step (Elapsed 800) (run [ TabClicked TabPlayer ] mounted)) = [] /\
  isTabTransitioning (step (Elapsed 800) (run [ TabClicked TabPlayer ] mounted)) = false /\
  pendingTabRef (step (Elapsed 800) (run [ TabClicked TabPlayer ] mounted)) = None.
Proof.
  split; [vm_compute; reflexivity|].
  assert (M : 800 <= 800) by lia.
  pose proof (transition_ends_within_800_ms [ TabClicked TabPlayer ] 800 M) as H.
  cbv zeta in H. exact H.
Defined.

Lemma same_id_once {A : Type} (f : A -> nat) (l : list A) (i : nat) :
  NoDup (map f l) -> (forall x, In x l -> f x = i) -> (List.length l <= 1)%nat.
Proof.
  intros N H. destruct l as [|a [|b l]]; simpl; try lia.
  exfalso. inversion N as [|? ? Na _]; subst. apply Na. left.
  rewrite (H a), (H b); [reflexivity | right; left; reflexivity | left; reflexivity].
Qed.

(** X12: the debounce keeps one search at most: in every state the
    mounted component can reach at most one search timer is pending; it
    is the one the debounce effect will cancel, it searches for the query
    on display, and it fires within 250 ms. *)
Theorem one_pending_search_for_the_query (evs : list Event) :
  let s := run evs mounted in
  (List.length (searchTimers s) <= 1)%nat /\
  forall t q,
    In t (timers s) -> callback t = CbSearch q ->
    q = playerQuery s /\ debounceTimer s = Some (timer_id t) /\ due t <= now s + 250.
Proof.
  intros s. unfold s.
  destruct (reachable_timers evs) as [_ D].
  destruct (reachable_wf evs) as [(_ & N & _) _].
  pose proof (searchesTheQuery_reachable evs) as Q.
  pose proof (dueBound_reachable evs) as B.
  split.
  - destruct (debounceTimer (run evs mounted)) as [i|] eqn:E.
    + apply (same_id_once timer_id _ i).
      * apply NoDup_map_filter, N.
      * intros t I. apply filter_In in I. destruct I as [I C].
        apply negb_true_iff in C. specialize (D t I C). congruence.
    + destruct (searchTimers (run evs mounted)) as [|t l] eqn:L; [simpl; lia|].
      assert (I : In t (searchTimers (run evs mounted))) by (rewrite L; left; reflexivity).
      apply filter_In in I. destruct I as [I C]. apply negb_true_iff in C.
      specialize (D t I C). congruence.
  - intros t q I C. split; [exact (Q t I q C)|]. split.
    + apply (D t I). rewrite C. reflexivity.
    + specialize (B t I). rewrite C in B. exact B.
Qed.

Lemma one_pending_search_for_the_query_witness :
  let s := run (toPlayerPage ++ [ QueryTyped "cur" ]) mounted in
  exists t, In t (timers s) /\ callback t = CbSearch "cur" /\ playerQuery s = "cur".
Proof.
  set (t := {| timer_id := 3%nat; due := 1050; callback := CbSearch "cur" |}).
  assert (I : In t (timers (run (toPlayerPage ++ [ QueryTyped "cur" ]) mounted)))
    by (vm_compute; left; reflexivity).
  exists t. split; [exact I|]. split; [reflexivity|].
  symmetry.
  exact (proj1 (proj2 (one_pending_search_for_the_query
                         (toPlayerPage ++ [ QueryTyped "cur" ])) t "cur" I eq_refl)).
Defined.

(** *** Typing on *)

Lemma filter_none {A : Type} (f : A -> bool) (l : list A) :
  (forall x, In x l -> f x = false) -> filter f l = [].
Proof.
  induction l as [|x l IH]; simpl; intros H; [reflexivity|].
  rewrite (H x (or_introl eq_refl)). apply IH. intros y I. apply H. right. exact I.
Qed.

(** With no transition timer pending, the cleanup of the debounce leaves
    no timer at all. *)
Lemma clearDebounce_all (s : State) :
  noTabTimers s -> debounceOnly s ->
  applyAction ClearDebounce s = with_debounceTimer None (with_timers [] s).
Proof.
  intros N D. simpl.
  destruct (debounceTimer s) as [id|] eqn:E.
  - unfold clearTimeout.
    replace (filter (fun t => negb (Nat.eqb (timer_id t) id)) (timers s)) with (@nil Timer);
      [reflexivity|].
    symmetry. apply filter_none. intros t I.
    pose proof (D t I (N t I)) as H. rewrite E in H. injection H as ->.
    rewrite Nat.eqb_refl. reflexivity.
  - assert (T : timers s = []).
    { destruct (timers s) as [|t l] eqn:L; [reflexivity|].
      assert (I : In t (timers s)) by (rewrite L; left; reflexivity).
      pose proof (D t I (N t I)) as H. congruence. }
    destruct s; simpl in *; subst; reflexivity.
Qed.

Lemma typed_on_a_quiet_page (s : State) (q : string) :
  tab s = TabPlayer -> q <> playerQuery s -> noTabTimers s -> debounceOnly s ->
  step (QueryTyped q) s
  = applyAction (StartDebounce q)
      (with_debounceTimer None (with_timers [] (with_playerQuery q s))).
Proof.
  intros T Q N D. rewrite (query_typed_step s q T Q).
  cbn [applyActions fold_left].
  change (applyAction (SetPlayerQuery q) s) with (with_playerQuery q s).
  rewrite (clearDebounce_all (with_playerQuery q s)); [reflexivity | exact N | exact D].
Qed.

Lemma elapse_early (ms : Z) (s : State) :
  (forall t, In t (timers s) -> now s + Z.max 0 ms < due t) ->
  step (Elapsed ms) s = with_now (now s + Z.max 0 ms) s.
Proof.
  intros H. simpl. unfold elapse. rewrite runTimers_idle; [reflexivity | exact H].
Qed.

Lemma runTimers_single (t : Timer) (deadline : Z) (s : State) :
  timers s = [ t ] -> due t <= deadline ->
  runTimers 1 deadline s
  = dispatch (timerFired (callback t))
      (with_now (Z.max (now s) (due t)) (clearTimeout (timer_id t) s)).
Proof.
  intros T D. simpl. rewrite T. simpl.
  apply Z.leb_le in D. rewrite D. reflexivity.
Qed.

Lemma search_fired (q : string) (s : State) :
  isEmpty (trim q) = false ->
  dispatch (timerFired (CbSearch q)) s
  = applyActions [ SetPlayerSearchStatus Loading; Fetch (ReqSearch (trim q)) ] s.
Proof.
  intros E.
  assert (F : timerFired (CbSearch q) s
              = [ SetPlayerSearchStatus Loading; Fetch (ReqSearch (trim q)) ])
    by (simpl; unfold fetchPlayerSearch; rewrite E; reflexivity).
  rewrite dispatch_sameDeps; rewrite F; [reflexivity | repeat split].
Qed.

(** X13: of two queries typed less than 250 ms apart only the second is
    searched for: on a quiet Player page, typing [q1], then [q2] after
    [d] ms, then 250 ms without input send one request, for the trimmed
    [q2], and none for [q1]; the status is Loading and the results of
    before stay on display. *)
Theorem debounce_searches_the_latest_query (evs : list Event) (q1 q2 : string) (d : Z) :
  let s := run evs mounted in
  tab s = TabPlayer -> isTabTransitioning s = false ->
  q1 <> playerQuery s -> q2 <> q1 -> 0 <= d < 250 -> isEmpty (trim q2) = false ->
  let s' := run [ QueryTyped q1; Elapsed d; QueryTyped q2; Elapsed 250 ] s in
  inflight s' = inflight s ++ [ ReqSearch (trim q2) ] /\
  playerSearchStatus s' = Loading /\
  playerResults s' = playerResults s /\
  playerQuery s' = q2 /\
  timers s' = [].
Proof.
  intros s T I Q1 Q2 D E s'.
  destruct (reachable_timers evs) as [_ Db]. fold s in Db.
  destruct (reachable_wf evs) as [_ Ti]. fold s in Ti.
  pose proof (idle_noTabTimers s Ti I) as N.
  unfold s', run. cbn [fold_left].
  rewrite (typed_on_a_quiet_page s q1 T Q1 N Db).
  set (s1 := applyAction (StartDebounce q1)
               (with_debounceTimer None (with_timers [] (with_playerQuery q1 s)))).
  assert (E2 : step (Elapsed d) s1 = with_now (now s1 + Z.max 0 d) s1).
  { apply elapse_early. intros t [<-|[]]. simpl. lia. }
  rewrite E2.
  set (s2 := with_now (now s1 + Z.max 0 d) s1).
  assert (E3 : step (QueryTyped q2) s2
               = applyAction (StartDebounce q2)
                   (with_debounceTimer None (with_timers [] (with_playerQuery q2 s2)))).
  { apply typed_on_a_quiet_page.
    - exact T.
    - exact Q2.
    - intros t [<-|[]]. reflexivity.
    - intros t [<-|[]] _. reflexivity. }
  rewrite E3.
  set (s3 := applyAction (StartDebounce q2)
               (with_debounceTimer None (with_timers [] (with_playerQuery q2 s2)))).
  set (t2 := {| timer_id := S (nextTimerId s); due := now s + Z.max 0 d + 250;
                callback := CbSearch q2 |}).
  assert (T3 : timers s3 = [ t2 ]) by reflexivity.
  assert (E4 : step (Elapsed 250) s3
               = with_now (now s3 + Z.max 0 250)
                   (applyActions
                      [ SetPlayerSearchStatus Loading; Fetch (ReqSearch (trim q2)) ]
                      (with_now (Z.max (now s3) (due t2))
                         (clearTimeout (timer_id t2) s3)))).
  { simpl step. unfold elapse. rewrite T3.
    change (List.length [ t2 ]) with 1%nat.
    rewrite (runTimers_single t2 _ s3 T3) by (simpl; lia).
    change (callback t2) with (CbSearch q2).
    rewrite (search_fired q2 _ E). reflexivity. }
  rewrite E4. simpl.
  rewrite Nat.eqb_refl. repeat split.
Qed.

Lemma debounce_searches_the_latest_query_witness :
  let s := run toPlayerPage mounted in
  let s' := run [ QueryTyped "cu"; Elapsed 100; QueryTyped "cur"; Elapsed 250 ] s in
  inflight s' = inflight s ++ [ ReqSearch "cur" ] /\ playerQuery s' = "cur".
Proof.
  assert (T : tab (run toPlayerPage mounted) = TabPlayer) by (vm_compute; reflexivity).
  assert (I : isTabTransitioning (run toPlayerPage mounted) = false)
    by (vm_compute; reflexivity).
  assert (Q1 : "cu" <> playerQuery (run toPlayerPage mounted))
    by (vm_compute; discriminate).
  assert (Q2 : "cur" <> "cu") by discriminate.
  assert (D : 0 <= 100 < 250) by lia.
  assert (E : isEmpty (trim "cur") = false) by reflexivity.
  pose proof (debounce_searches_the_latest_query toPlayerPage "cu" "cur" 100
                T I Q1 Q2 D E) as H.
  cbv zeta in H. destruct H as (H1 & _ & _ & H4 & _).
  split; [exact H1 | exact H4].
Defined.

(** *** The deep link and the debounced search *)






End ControllerFacts.

(** ** The chat page *)

Module AIPageFacts.
Import Js AIPage.

Lemma chat_snoc (evs : list ChatEvent) (e : ChatEvent) (s : ChatState) :
  chat (evs ++ [e]) s = chatStep e (chat evs s).
Proof. unfold chat. rewrite fold_left_app. reflexivity. Qed.

Lemma nextReply_In (l : list ReplyTimer) (t : ReplyTimer) :
  nextReply l = Some t -> In t l.
Proof.
  revert t. induction l as [|u l IH]; simpl; intros t H; [discriminate|].
  destruct (nextReply l) as [v|].
  - destruct (reply_due v <? reply_due u); inversion H; subst.
    + right. apply IH. reflexivity.
    + left. reflexivity.
  - inversion H. left. reflexivity.
Qed.

Lemma ReplyTimer_eqb_refl (t : ReplyTimer) : ReplyTimer_eqb t t = true.
Proof. unfold ReplyTimer_eqb. rewrite Z.eqb_refl, String.eqb_refl. reflexivity. Qed.

Lemma removeFirst_other (t u : ReplyTimer) (l : list ReplyTimer) :
  In u l -> assistantId u <> assistantId t -> In u (removeFirst t l).
Proof.
  induction l as [|v l IH]; simpl; intros I N; [exact I|].
  destruct (ReplyTimer_eqb v t) eqn:E.
  - destruct I as [<-|I]; [|exact I].
    unfold ReplyTimer_eqb in E. apply andb_prop in E. destruct E as [_ E].
    apply String.eqb_eq in E. contradiction.
  - destruct I as [<-|I]; [left; reflexivity | right; apply IH; assumption].
Qed.

Lemma removeFirst_shorter (t : ReplyTimer) (l : list ReplyTimer) :
  In t l -> S (List.length (removeFirst t l)) = List.length l.
Proof.
  induction l as [|v l IH]; simpl; intros I; [destruct I|].
  destruct (ReplyTimer_eqb v t) eqn:E; [reflexivity|].
  destruct I as [->|I]; [rewrite ReplyTimer_eqb_refl in E; discriminate E|].
  simpl. rewrite (IH I). reflexivity.
Qed.

(** *** The thread is made of exchanges *)

Lemma exchanges_snoc (n : nat) (l : list Role) :
  (List.length l <= n)%nat -> exchanges l -> exchanges (l ++ [ User; Assistant ]).
Proof.
  revert l. induction n as [|n IH]; intros l L E.
  - destruct l; [exact I | simpl in L; lia].
  - destruct l as [|[|] [|[|] rest]]; simpl in *; try contradiction; try exact I.
    apply IH; [lia | exact E].
Qed.

Lemma roles_after_reply (aid : string) (l : list ChatMsg) :
  map role
    (map (fun x =>
            if String.eqb (msg_id x) aid
            then {| msg_id := msg_id x; role := role x; text := cannedReply |}
            else x) l)
  = map role l.
Proof.
  induction l as [|x l IH]; simpl; [reflexivity|].
  rewrite IH. destruct (String.eqb (msg_id x) aid); reflexivity.
Qed.

Lemma exchanges_mockAsk (uid aid : string) (s : ChatState) :
  exchanges (map role (messages s)) ->
  exchanges (map role (messages (mockAsk uid aid s))).
Proof.
  intros E. unfold mockAsk. destruct (isEmpty (trim (question s))); [exact E|].
  simpl. unfold addMsg. rewrite <- app_assoc. rewrite map_app. simpl.
  apply (exchanges_snoc (List.length (map role (messages s)))); [lia | exact E].
Qed.

Lemma exchanges_runReplies (fuel : nat) (deadline : Z) (s : ChatState) :
  exchanges (map role (messages s)) ->
  exchanges (map role (messages (runReplies fuel deadline s))).
Proof.
  revert s. induction fuel as [|fuel IH]; simpl; intros s E; [exact E|].
  destruct (nextReply (replyTimers s)) as [t|]; [|exact E].
  destruct (reply_due t <=? deadline); [|exact E].
  apply IH. simpl. rewrite roles_after_reply. exact E.
Qed.

Lemma exchanges_step (e : ChatEvent) (s : ChatState) :
  exchanges (map role (messages s)) ->
  exchanges (map role (messages (chatStep e s))).
Proof.
  intros E. destruct e; simpl.
  - exact E.
  - apply exchanges_mockAsk, E.
  - destruct (sendDisabled s); [exact E | apply exchanges_mockAsk, E].
  - exact I.
  - destruct (nth_error examples i); exact E.
  - apply exchanges_runReplies, E.
Qed.

(** X20: the thread of the chat page is always a sequence of exchanges,
    a message of the user followed by a message of the assistant:
    whatever is typed, sent, cleared or waited for. *)
Theorem chat_thread_is_made_of_exchanges (evs : list ChatEvent) :
  exchanges (map role (messages (chat evs chatInitial))) /\
  Nat.Even (List.length (messages (chat evs chatInitial))).
Proof.
  assert (E : exchanges (map role (messages (chat evs chatInitial)))).
  { induction evs as [|e evs IH] using rev_ind; [exact I|].
    rewrite chat_snoc. apply exchanges_step, IH. }
  split; [exact E|].
  rewrite <- (length_map role).
  revert E. generalize (map role (messages (chat evs chatInitial))).
  intros l. assert (G : forall n l, (List.length l <= n)%nat -> exchanges l ->
                                    Nat.Even (List.length l)).
  { clear. induction n as [|n IH]; intros l L E.
    - destruct l; [exists 0%nat; reflexivity | simpl in L; lia].
    - destruct l as [|[|] [|[|] rest]]; simpl in *; try contradiction.
      + exists 0%nat. reflexivity.
      + destruct (IH rest) as [k K]; [lia | exact E |]. exists (S k). lia. }
  apply (G (List.length l)). lia.
Qed.

(** *** No message waits forever *)

Lemma awaits_mockAsk (uid aid : string) (s : ChatState) :
  awaitsReply s -> awaitsReply (mockAsk uid aid s).
Proof.
  intros [A B]. unfold mockAsk. destruct (isEmpty (trim (question s))); [split; assumption|].
  split; simpl.
  - intros m I R T. unfold addMsg in I. rewrite <- app_assoc in I.
    apply in_app_or in I. destruct I as [I|[<-|[<-|[]]]].
    + destruct (A m I R T) as (t & It & Et). exists t.
      split; [apply in_or_app; left; exact It | exact Et].
    + discriminate R.
    + eexists. split; [apply in_or_app; right; left; reflexivity | reflexivity].
  - intros _ H. destruct (replyTimers s); discriminate H.
Qed.

Lemma placeholder_is_not_the_reply : cannedReply <> placeholderText.
Proof. vm_compute. discriminate. Qed.

Lemma awaits_fired (t : ReplyTimer) (v : Z) (s : ChatState) :
  awaitsReply s ->
  awaitsReply
    (replyArrives (assistantId t)
       {| question := question s; chatStatus := chatStatus s; messages := messages s;
          clock := v; replyTimers := removeFirst t (replyTimers s) |}).
Proof.
  intros [A _]. split; simpl; [|discriminate].
  intros m I R T. apply in_map_iff in I. destruct I as (x & E & I).
  destruct (String.eqb (msg_id x) (assistantId t)) eqn:C.
  - subst m. simpl in T. contradiction (placeholder_is_not_the_reply T).
  - subst m. destruct (A x I R T) as (u & Iu & Eu). exists u.
    split; [|exact Eu]. apply removeFirst_other; [exact Iu|].
    apply String.eqb_neq in C. congruence.
Qed.

Lemma awaits_runReplies (fuel : nat) (deadline : Z) (s : ChatState) :
  awaitsReply s -> awaitsReply (runReplies fuel deadline s).
Proof.
  revert s. induction fuel as [|fuel IH]; simpl; intros s A; [exact A|].
  destruct (nextReply (replyTimers s)) as [t|]; [|exact A].
  destruct (reply_due t <=? deadline); [|exact A].
  apply IH, awaits_fired, A.
Qed.

Lemma awaits_step (e : ChatEvent) (s : ChatState) :
  awaitsReply s -> awaitsReply (chatStep e s).
Proof.
  intros A. destruct e; simpl.
  - exact A.
  - apply awaits_mockAsk, A.
  - destruct (sendDisabled s); [exact A | apply awaits_mockAsk, A].
  - split; simpl; [intros m [] | discriminate].
  - destruct (nth_error examples i); exact A.
  - exact (awaits_runReplies _ _ s A).
Qed.

Lemma awaitsReply_reachable (evs : list ChatEvent) :
  awaitsReply (chat evs chatInitial).
Proof.
  induction evs as [|e evs IH] using rev_ind.
  - split; simpl; [intros m [] | discriminate].
  - rewrite chat_snoc. apply awaits_step, IH.
Qed.

(** X21: nothing on the chat page waits forever: whatever the events, an
    assistant message that still shows the placeholder has a timeout
    pending that will replace it, and the typing indicator is on only
    while a timeout is pending; so once no timeout is pending no
    placeholder is on display and the status is idle. *)
Theorem every_placeholder_has_a_reply_pending (evs : list ChatEvent) :
  let s := chat evs chatInitial in
  (forall m, In m (messages s) -> role m = Assistant -> text m = placeholderText ->
             exists t, In t (replyTimers s) /\ assistantId t = msg_id m) /\
  (replyTimers s = [] ->
   chatStatus s = ChatIdle /\
   forall m, In m (messages s) -> role m = Assistant -> text m <> placeholderText).
Proof.
  destruct (awaitsReply_reachable evs) as [A B]. split; [exact A|].
  intros N. split.
  - destruct (chatStatus (chat evs chatInitial)); [reflexivity|].
    contradiction (B eq_refl N).
  - intros m I R T. destruct (A m I R T) as (t & It & _).
    rewrite N in It. destruct It.
Qed.

Lemma every_placeholder_has_a_reply_pending_witness :
  let s := chat [ Typed "hi"; EnterPressed "u1" "a1" ] chatInitial in
  exists t, In t (replyTimers s) /\ assistantId t = "a1".
Proof.
  refine (proj1 (every_placeholder_has_a_reply_pending
                   [ Typed "hi"; EnterPressed "u1" "a1" ])
            {| msg_id := "a1"; role := Assistant; text := placeholderText |} _ _ _).
  - right. left. reflexivity.
  - reflexivity.
  - reflexivity.
Defined.

(** *** Asking and clearing *)

Lemma reply_leaves_the_others (aid : string) (l : list ChatMsg) :
  (forall m, In m l -> msg_id m <> aid) ->
  map (fun x =>
         if String.eqb (msg_id x) aid
         then {| msg_id := msg_id x; role := role x; text := cannedReply |}
         else x) l
  = l.
Proof.
  induction l as [|x l IH]; simpl; intros H; [reflexivity|].
  rewrite IH by (intros m I; apply H; right; exact I).
  replace (String.eqb (msg_id x) aid) with false; [reflexivity|].
  symmetry. apply String.eqb_neq. apply H. left. reflexivity.
Qed.

(** X22: a question is answered once, 650 ms later: with no timeout
    pending and fresh ids, typing a question that is not blank, pressing
    Enter and waiting 650 ms add two messages to the thread, the trimmed
    question of the user and the reply of the assistant in the place of
    the placeholder; the earlier messages are untouched, the input is
    empty and the status is idle again. *)
Theorem question_is_answered_after_650_ms (s : ChatState) (q uid aid : string) :
  replyTimers s = [] -> isEmpty (trim q) = false ->
  uid <> aid -> (forall m, In m (messages s) -> msg_id m <> aid) ->
  let s1 := chat [ Typed q; EnterPressed uid aid ] s in
  let s2 := chatStep (Waited REPLY_MS) s1 in
  (messages s1
   = messages s ++ [ {| msg_id := uid; role := User; text := trim q |};
                     {| msg_id := aid; role := Assistant; text := placeholderText |} ] /\
   chatStatus s1 = Thinking /\ question s1 = "") /\
  (messages s2
   = messages s ++ [ {| msg_id := uid; role := User; text := trim q |};
                     {| msg_id := aid; role := Assistant; text := cannedReply |} ] /\
   chatStatus s2 = ChatIdle /\ question s2 = "" /\ replyTimers s2 = []).
Proof.
  intros T E U F s1 s2.
  assert (S1 : s1 = {| question := "";
                       chatStatus := Thinking;
                       messages := addMsg aid Assistant placeholderText
                                     (addMsg uid User (trim q) (messages s));
                       clock := clock s;
                       replyTimers :=
                         [ {| reply_due := clock s + REPLY_MS; assistantId := aid |} ] |}).
  { unfold s1, chat. cbn [fold_left chatStep]. unfold mockAsk.
    cbn [setQuestion question messages clock replyTimers]. rewrite E, T. reflexivity. }
  split.
  - rewrite S1. cbn [messages chatStatus question]. unfold addMsg.
    rewrite <- app_assoc. repeat split.
  - unfold s2. rewrite S1. cbn [chatStep]. unfold wait.
    cbn [replyTimers List.length clock runReplies nextReply reply_due].
    replace (clock s + REPLY_MS <=? clock s + Z.max 0 REPLY_MS) with true
      by (symmetry; apply Z.leb_le; unfold REPLY_MS; lia).
    cbn [removeFirst assistantId question chatStatus messages clock replyTimers
         replyArrives].
    rewrite ReplyTimer_eqb_refl. unfold addMsg.
    rewrite <- app_assoc, map_app, (reply_leaves_the_others aid _ F).
    cbn [map app msg_id role].
    rewrite String.eqb_refl.
    replace (String.eqb uid aid) with false
      by (symmetry; apply String.eqb_neq; exact U).
    repeat split.
Qed.

Lemma question_is_answered_after_650_ms_witness :
  let s2 := chatStep (Waited REPLY_MS) (chat [ Typed " hi "; EnterPressed "u1" "a1" ] chatInitial) in
  messages s2
  = [ {| msg_id := "u1"; role := User; text := "hi" |};
      {| msg_id := "a1"; role := Assistant; text := cannedReply |} ].
Proof.
  assert (T : replyTimers chatInitial = []) by reflexivity.
  assert (E : isEmpty (trim " hi ") = false) by reflexivity.
  assert (U : "u1" <> "a1") by discriminate.
  assert (F : forall m, In m (messages chatInitial) -> msg_id m <> "a1")
    by (intros m []).
  pose proof (question_is_answered_after_650_ms chatInitial " hi " "u1" "a1" T E U F) as H.
  cbv zeta in H. destruct H as (_ & H & _). exact H.
Defined.

Lemma cleared_runReplies (fuel : nat) (deadline : Z) (s : ChatState) :
  messages s = [] -> chatStatus s = ChatIdle ->
  messages (runReplies fuel deadline s) = [] /\
  chatStatus (runReplies fuel deadline s) = ChatIdle /\
  question (runReplies fuel deadline s) = question s.
Proof.
  revert s. induction fuel as [|fuel IH]; simpl; intros s M C; [repeat split; assumption|].
  destruct (nextReply (replyTimers s)) as [t|]; [|repeat split; assumption].
  destruct (reply_due t <=? deadline); [|repeat split; assumption].
  match goal with |- context [runReplies fuel deadline ?y] => set (x := y) end.
  assert (Mx : messages x = []) by (unfold x; simpl; rewrite M; reflexivity).
  assert (Cx : chatStatus x = ChatIdle) by reflexivity.
  destruct (IH x Mx Cx) as (A & B & Q).
  split; [exact A|]. split; [exact B | exact Q].
Qed.

Lemma cleared_stays_empty (evs : list ChatEvent) (s : ChatState) :
  forallb (fun e => negb (isAsk e)) evs = true ->
  messages s = [] -> chatStatus s = ChatIdle ->
  messages (chat evs s) = [] /\ chatStatus (chat evs s) = ChatIdle.
Proof.
  revert s. induction evs as [|e evs IH]; simpl; intros s N M C; [split; assumption|].
  apply andb_prop in N. destruct N as [Ne Ns].
  apply IH; [exact Ns | |]; destruct e; simpl; try discriminate Ne; try assumption;
    try reflexivity;
    try (destruct (nth_error examples i); assumption);
    apply (cleared_runReplies _ _ s M C).
Qed.

(** X23: "Clear chat" leaves nothing behind: whatever was pending, the
    thread is empty, the status idle and the input empty after the click,
    and the thread stays empty when the pending timeouts fire: no reply
    shows up for a question that was cleared, until the user asks
    again. *)
Theorem clear_chat_leaves_no_reply_behind (s : ChatState) (evs : list ChatEvent) :
  forallb (fun e => negb (isAsk e)) evs = true ->
  let s1 := chatStep ClearChatClicked s in
  (messages s1 = [] /\ chatStatus s1 = ChatIdle /\ question s1 = "" /\
   replyTimers s1 = replyTimers s) /\
  messages (chat evs s1) = [] /\ chatStatus (chat evs s1) = ChatIdle.
Proof.
  intros N s1. split; [repeat split|].
  apply cleared_stays_empty; [exact N | reflexivity | reflexivity].
Qed.

Lemma clear_chat_leaves_no_reply_behind_witness :
  let s := chat [ Typed "hi"; EnterPressed "u1" "a1" ] chatInitial in
  replyTimers s <> [] /\
  messages (chat [ Waited 650 ] (chatStep ClearChatClicked s)) = [].
Proof.
  split; [vm_compute; discriminate|].
  assert (N : forallb (fun e => negb (isAsk e)) [ Waited 650 ] = true) by reflexivity.
  exact (proj1 (proj2 (clear_chat_leaves_no_reply_behind
                         (chat [ Typed "hi"; EnterPressed "u1" "a1" ] chatInitial)
                         [ Waited 650 ] N))).
Defined.

(** X24: a blank question is never sent, by the button or by the Enter
    key; while the assistant is thinking the Send button does nothing, but
    the Enter key still sends a question that is not blank. *)
Theorem blank_questions_are_not_sent (s : ChatState) (uid aid : string) :
  (isEmpty (trim (question s)) = true ->
   chatStep (EnterPressed uid aid) s = s /\ chatStep (SendClicked uid aid) s = s) /\
  (chatStatus s = Thinking -> chatStep (SendClicked uid aid) s = s) /\
  (chatStatus s = Thinking -> isEmpty (trim (question s)) = false ->
   messages (chatStep (EnterPressed uid aid) s)
   = messages s ++ [ {| msg_id := uid; role := User; text := trim (question s) |};
                     {| msg_id := aid; role := Assistant; text := placeholderText |} ]).
Proof.
  split; [|split].
  - intros E. simpl. unfold mockAsk. rewrite E.
    split; [reflexivity | destruct (sendDisabled s); reflexivity].
  - intros T. simpl. unfold sendDisabled. rewrite T. reflexivity.
  - intros _ E. simpl. unfold mockAsk. rewrite E. simpl. unfold addMsg.
    rewrite <- app_assoc. reflexivity.
Qed.

Lemma blank_questions_are_not_sent_witness :
  let s := chat [ Typed "   " ] chatInitial in
  chatStep (EnterPressed "u1" "a1") s = s /\ chatStep (SendClicked "u1" "a1") s = s.
Proof.
  refine (proj1 (blank_questions_are_not_sent (chat [ Typed "   " ] chatInitial) "u1" "a1") _).
  reflexivity.
Defined.

(** *** Replies arrive *)

Lemma nextReply_le (l : list ReplyTimer) (u : ReplyTimer) :
  nextReply l = Some u -> forall t, In t l -> reply_due u <= reply_due t.
Proof.
  revert u. induction l as [|x l IH]; simpl; intros u H t I; [destruct I|].
  destruct (nextReply l) as [v|] eqn:N.
  - destruct (Z.ltb_spec (reply_due v) (reply_due x)) as [L|L]; inversion H; subst.
    + destruct I as [<-|I]; [lia | apply (IH u eq_refl t I)].
    + destruct I as [<-|I]; [lia|]. pose proof (IH v eq_refl t I). lia.
  - inversion H; subst. destruct I as [<-|I]; [lia|].
    destruct l; [destruct I | simpl in N; destruct (nextReply l); try discriminate N;
                              destruct (reply_due r0 <? reply_due r); discriminate N].
Qed.

Lemma nextReply_None (l : list ReplyTimer) : nextReply l = None -> l = [].
Proof.
  destruct l as [|x l]; [reflexivity|]. simpl.
  destruct (nextReply l) as [v|]; [|discriminate].
  destruct (reply_due v <? reply_due x); discriminate.
Qed.

Lemma removeFirst_In (t x : ReplyTimer) (l : list ReplyTimer) :
  In x (removeFirst t l) -> In x l.
Proof.
  induction l as [|v l IH]; simpl; intros I; [exact I|].
  destruct (ReplyTimer_eqb v t); [right; exact I|].
  destruct I as [<-|I]; [left; reflexivity | right; apply IH, I].
Qed.

Lemma runReplies_subset (fuel : nat) (deadline : Z) (s : ChatState) (t : ReplyTimer) :
  In t (replyTimers (runReplies fuel deadline s)) -> In t (replyTimers s).
Proof.
  revert s. induction fuel as [|fuel IH]; simpl; intros s I; [exact I|].
  destruct (nextReply (replyTimers s)) as [u|]; [|exact I].
  destruct (reply_due u <=? deadline); [|exact I].
  apply IH in I. simpl in I. eapply removeFirst_In, I.
Qed.

(** The fuel of [wait] is enough: no pending reply is left that was due. *)
Lemma runReplies_exhausts (fuel : nat) (deadline : Z) (s : ChatState) :
  (List.length (replyTimers s) <= fuel)%nat ->
  forall t, In t (replyTimers (runReplies fuel deadline s)) -> deadline < reply_due t.
Proof.
  revert s. induction fuel as [|fuel IH]; simpl; intros s L t I.
  - destruct (replyTimers s); [destruct I | simpl in L; lia].
  - destruct (nextReply (replyTimers s)) as [u|] eqn:N.
    + destruct (Z.leb_spec (reply_due u) deadline) as [D|D].
      * revert I. apply IH. simpl.
        pose proof (removeFirst_shorter u _ (nextReply_In _ _ N)). lia.
      * pose proof (nextReply_le _ _ N t I). lia.
    + apply nextReply_None in N. rewrite N in I. destruct I.
Qed.

Lemma replyBound_step (e : ChatEvent) (s : ChatState) :
  replyBound s -> replyBound (chatStep e s).
Proof.
  unfold replyBound. intros B. destruct e; simpl; try exact B.
  - unfold mockAsk. destruct (isEmpty (trim (question s))); [exact B|]. simpl.
    intros t I. apply in_app_or in I. destruct I as [I|[<-|[]]]; [apply B, I | simpl; lia].
  - destruct (sendDisabled s); [exact B|].
    unfold mockAsk. destruct (isEmpty (trim (question s))); [exact B|]. simpl.
    intros t I. apply in_app_or in I. destruct I as [I|[<-|[]]]; [apply B, I | simpl; lia].
  - destruct (nth_error examples i); exact B.
  - intros t I. apply runReplies_subset in I. specialize (B t I). lia.
Qed.

Lemma replyBound_reachable (evs : list ChatEvent) : replyBound (chat evs chatInitial).
Proof.
  induction evs as [|e evs IH] using rev_ind; [intros t []|].
  rewrite chat_snoc. apply replyBound_step, IH.
Qed.

Lemma assistantTexts_mockAsk (uid aid : string) (s : ChatState) :
  assistantTexts s -> assistantTexts (mockAsk uid aid s).
Proof.
  unfold assistantTexts, mockAsk. intros A.
  destruct (isEmpty (trim (question s))); [exact A|]. simpl.
  intros m I R. unfold addMsg in I. rewrite <- app_assoc in I.
  apply in_app_or in I. destruct I as [I|[<-|[<-|[]]]];
    [apply A; assumption | discriminate R | left; reflexivity].
Qed.

Lemma assistantTexts_runReplies (fuel : nat) (deadline : Z) (s : ChatState) :
  assistantTexts s -> assistantTexts (runReplies fuel deadline s).
Proof.
  revert s. induction fuel as [|fuel IH]; simpl; intros s A; [exact A|].
  destruct (nextReply (replyTimers s)) as [t|]; [|exact A].
  destruct (reply_due t <=? deadline); [|exact A].
  apply IH. intros m I R. simpl in I. apply in_map_iff in I.
  destruct I as (x & E & I).
  destruct (String.eqb (msg_id x) (assistantId t)); subst m;
    [right; reflexivity | apply A; assumption].
Qed.

Lemma assistantTexts_reachable (evs : list ChatEvent) :
  assistantTexts (chat evs chatInitial).
Proof.
  induction evs as [|e evs IH] using rev_ind; [intros m []|].
  rewrite chat_snoc. destruct e; simpl; try exact IH.
  - apply assistantTexts_mockAsk, IH.
  - destruct (sendDisabled (chat evs chatInitial));
      [exact IH | apply assistantTexts_mockAsk, IH].
  - intros m [].
  - destruct (nth_error examples i); exact IH.
  - exact (assistantTexts_runReplies _ _ _ IH).
Qed.

(** X26: every question is answered within 650 ms: whatever the events
    before, 650 ms (or more) without input leave no timeout pending, the
    status idle and every assistant message of the thread showing the
    reply. *)
Theorem replies_arrive_within_650_ms (evs : list ChatEvent) (ms : Z) :
  REPLY_MS <= ms ->
  let s' := chatStep (Waited ms) (chat evs chatInitial) in
  replyTimers s' = [] /\ chatStatus s' = ChatIdle /\
  forall m, In m (messages s') -> role m = Assistant -> text m = cannedReply.
Proof.
  intros M s'.
  assert (R : s' = chat (evs ++ [ Waited ms ]) chatInitial)
    by (rewrite chat_snoc; reflexivity).
  assert (T : replyTimers s' = []).
  { destruct (replyTimers s') as [|t l] eqn:E; [reflexivity|]. exfalso.
    assert (I : In t (replyTimers s')) by (rewrite E; left; reflexivity).
    unfold s' in I. simpl in I.
    pose proof (runReplies_exhausts _ _ _ (Nat.le_refl _) t I) as L.
    apply runReplies_subset in I.
    pose proof (replyBound_reachable evs t I) as B. lia. }
  destruct (awaitsReply_reachable (evs ++ [ Waited ms ])) as [A B].
  rewrite <- R in A, B.
  split; [exact T|]. split.
  - destruct (chatStatus s'); [reflexivity|]. contradiction (B eq_refl T).
  - intros m I Ro.
    pose proof (assistantTexts_reachable (evs ++ [ Waited ms ])) as X.
    rewrite <- R in X. destruct (X m I Ro) as [P|P]; [|exact P].
    destruct (A m I Ro P) as (t & It & _). rewrite T in It. destruct It.
Qed.

Lemma replies_arrive_within_650_ms_witness :
  chatStatus (chat [ Typed "hi"; EnterPressed "u1" "a1" ] chatInitial) = Thinking /\
  replyTimers (chatStep (Waited 650) (chat [ Typed "hi"; EnterPressed "u1" "a1" ] chatInitial))
  = [] /\
  chatStatus (chatStep (Waited 650) (chat [ Typed "hi"; EnterPressed "u1" "a1" ] chatInitial))
  = ChatIdle.
Proof.
  split; [reflexivity|].
  assert (M : REPLY_MS <= 650) by (unfold REPLY_MS; lia).
  pose proof (replies_arrive_within_650_ms [ Typed "hi"; EnterPressed "u1" "a1" ] 650 M) as H.
  cbv zeta in H. destruct H as (H1 & H2 & _). split; [exact H1 | exact H2].
Defined.

End AIPageFacts.
